(** * generate_presentation.py: notebook to Beamer conversion

    A shallow embedding of the transformation core of
    [generate_presentation.py]: the markdown translator
    [markdown_to_latex], the metadata extractor [extract_title_info], the
    frame emitter [convert_markdown_to_frame] and the body of
    [generate_beamer_with_content] that merges markdown cells, code cells
    and images into the presentation content.

    Python [str] values are modelled by [string]; a character is a code
    point below 256.  Whitespace, case conversion and the regular
    expression classes are those of Python on that range. *)

From stdpp Require Import base list strings gmap sorting.
From Stdlib Require Import Ascii String DecimalString DecimalNat.

#[local] Open Scope char_scope.
#[local] Set Warnings "-clear-no-such-hyp".

(** ** Python string primitives *)

Module PyStr.

Definition nl : ascii := "010".
Definition NL : string := String nl "".

(** [str.isspace] on one character, code points below 256. *)
Definition is_space (c : ascii) : bool :=
  let n := nat_of_ascii c in
  (Nat.leb 9 n && Nat.leb n 13) || (Nat.leb 28 n && Nat.leb n 32)
  || Nat.eqb n 133 || Nat.eqb n 160.

Definition is_empty (s : string) : bool :=
  match s with EmptyString => true | String _ _ => false end.

Fixpoint lstrip (s : string) : string :=
  match s with
  | String c s' => if is_space c then lstrip s' else s
  | EmptyString => EmptyString
  end.

Fixpoint rstrip (s : string) : string :=
  match s with
  | String c s' =>
      match rstrip s' with
      | EmptyString => if is_space c then EmptyString else String c EmptyString
      | r => String c r
      end
  | EmptyString => EmptyString
  end.

(** [s.strip()] *)
Definition strip (s : string) : string := rstrip (lstrip s).

Fixpoint mem_char (c : ascii) (cs : string) : bool :=
  match cs with
  | String d cs' => Ascii.eqb c d || mem_char c cs'
  | EmptyString => false
  end.

(** [s.lstrip(chars)]: drops every leading character that occurs in
    [chars]. *)
Fixpoint lstrip_chars (chars s : string) : string :=
  match s with
  | String c s' => if mem_char c chars then lstrip_chars chars s' else s
  | EmptyString => EmptyString
  end.

(** [s.startswith(p)] *)
Definition startswith (p s : string) : bool := String.prefix p s.

(** [s.split('\n')] for a one character separator. *)
Fixpoint split (sep : ascii) (s : string) : list string :=
  match s with
  | EmptyString => [EmptyString]
  | String c s' =>
      if Ascii.eqb c sep then EmptyString :: split sep s'
      else match split sep s' with
           | h :: t => String c h :: t
           | [] => [String c EmptyString]
           end
  end.

(** [sep.join(l)] *)
Definition join (sep : string) (l : list string) : string :=
  String.concat sep l.

(** [s.count(c)] for a one character argument. *)
Fixpoint count (c : ascii) (s : string) : nat :=
  match s with
  | String d s' => (if Ascii.eqb d c then 1 else 0) + count c s'
  | EmptyString => 0
  end.

(** [s[n:]] *)
Fixpoint drop (n : nat) (s : string) : string :=
  match n, s with
  | S n', String _ s' => drop n' s'
  | _, _ => s
  end.

(** [s.replace(old, new)] for a non-empty [old]: occurrences are found
    from the left and do not overlap.  [skip] counts the characters of
    an occurrence that are still to be passed over. *)
Fixpoint replace_from (old new s : string) (skip : nat) : string :=
  match s with
  | EmptyString => EmptyString
  | String c s' =>
      match skip with
      | S k => replace_from old new s' k
      | O =>
          if String.prefix old s
          then new +:+ replace_from old new s' (String.length old - 1)
          else String c (replace_from old new s' 0)
      end
  end.

Definition replace (old new s : string) : string :=
  replace_from old new s 0.

(** [str.lower] on one character: the upper case letters below 256 are
    A-Z and the Latin-1 letters 192-214 and 216-222. *)
Definition lower_char (c : ascii) : ascii :=
  let n := nat_of_ascii c in
  if (Nat.leb 65 n && Nat.leb n 90) || (Nat.leb 192 n && Nat.leb n 214)
     || (Nat.leb 216 n && Nat.leb n 222)
  then ascii_of_nat (n + 32) else c.

Fixpoint lower (s : string) : string :=
  match s with
  | String c s' => String (lower_char c) (lower s')
  | EmptyString => EmptyString
  end.

(** [x in l] for a list of strings. *)
Definition mem_string (x : string) (l : list string) : bool :=
  existsb (String.eqb x) l.

(** [f"{n}"] *)
Definition fmt_d (n : nat) : string := NilZero.string_of_uint (Nat.to_uint n).

Fixpoint zeros (n : nat) : string :=
  match n with O => EmptyString | S n' => String "0" (zeros n') end.

(** [f"{n:03d}"] *)
Definition fmt_03d (n : nat) : string :=
  let d := fmt_d n in zeros (3 - String.length d) +:+ d.

End PyStr.

(** ** The fragment of Python's [re] that the program uses

    A pattern is a sequence of items.  Matching is by backtracking, in
    the order of Python's engine: a greedy item tries the longest
    repetition first, a lazy item the shortest.  Capture groups are not
    nested in any pattern of the program; a group boundary records the
    current offset. *)

Module Re.
Import PyStr.

Inductive item : Type :=
| Lit (c : ascii)                 (* a literal character *)
| Cls (f : ascii → bool)          (* one character of a class *)
| Opt (c : ascii)                 (* c?  *)
| Plus (f : ascii → bool)         (* [class]+ , greedy *)
| LazyStar (f : ascii → bool)     (* [class]*? *)
| Bol                             (* ^ under re.MULTILINE *)
| Eol                             (* $ under re.MULTILINE *)
| GOpen                           (* ( *)
| GClose.                         (* ) *)

Definition pattern := list item.

(** Character classes. *)
Definition dot (c : ascii) : bool := negb (Ascii.eqb c nl).      (* . *)
Definition ws (c : ascii) : bool := is_space c.                   (* \s *)
Definition upper_az (c : ascii) : bool :=                         (* [A-Z] *)
  let n := nat_of_ascii c in Nat.leb 65 n && Nat.leb n 90.
Definition lower_az (c : ascii) : bool :=                         (* [a-z] *)
  let n := nat_of_ascii c in Nat.leb 97 n && Nat.leb n 122.
Definition name_char (c : ascii) : bool :=                        (* [a-zA-Z\s] *)
  lower_az c || upper_az c || is_space c.
Definition not_star (c : ascii) : bool := negb (Ascii.eqb c "*"). (* [^*] *)
Definition one_of (cs : string) (c : ascii) : bool := mem_char c cs.

(** A literal string as a sequence of items. *)
Fixpoint lits (s : string) : pattern :=
  match s with
  | String c s' => Lit c :: lits s'
  | EmptyString => []
  end.

(** The result of a match: the offset of its end and the offsets
    recorded at the group boundaries, both counted from its start. *)
Definition result : Type := nat * list nat.

Section Repetition.
Variable f : ascii → bool.
Variable k : option ascii → string → nat → option result.

(** One or more characters of [f], longest first, then [k]. *)
Fixpoint greedy_plus (prev : option ascii) (s : string) (pos : nat)
  : option result :=
  match s with
  | String a s' =>
      if f a then
        match greedy_plus (Some a) s' (S pos) with
        | Some r => Some r
        | None => k (Some a) s' (S pos)
        end
      else None
  | EmptyString => None
  end.

(** Zero or more characters of [f], shortest first, then [k]. *)
Fixpoint lazy_star (prev : option ascii) (s : string) (pos : nat)
  : option result :=
  match k prev s pos with
  | Some r => Some r
  | None =>
      match s with
      | String a s' => if f a then lazy_star (Some a) s' (S pos) else None
      | EmptyString => None
      end
  end.
End Repetition.

(** [m p prev s pos mk]: match [p] against [s], where [prev] is the
    character before [s] (none at the start of the text), [pos] the
    offset reached and [mk] the group offsets recorded so far, most
    recent first. *)
Fixpoint m (p : pattern) (prev : option ascii) (s : string) (pos : nat)
  (mk : list nat) {struct p} : option result :=
  match p with
  | [] => Some (pos, rev mk)
  | Lit c :: p' =>
      match s with
      | String a s' => if Ascii.eqb a c then m p' (Some a) s' (S pos) mk else None
      | EmptyString => None
      end
  | Cls f :: p' =>
      match s with
      | String a s' => if f a then m p' (Some a) s' (S pos) mk else None
      | EmptyString => None
      end
  | Opt c :: p' =>
      match s with
      | String a s' =>
          if Ascii.eqb a c then
            match m p' (Some a) s' (S pos) mk with
            | Some r => Some r
            | None => m p' prev s pos mk
            end
          else m p' prev s pos mk
      | EmptyString => m p' prev s pos mk
      end
  | Plus f :: p' =>
      greedy_plus f (fun prev s pos => m p' prev s pos mk) prev s pos
  | LazyStar f :: p' =>
      lazy_star f (fun prev s pos => m p' prev s pos mk) prev s pos
  | Bol :: p' =>
      match prev with
      | None => m p' prev s pos mk
      | Some a => if Ascii.eqb a nl then m p' prev s pos mk else None
      end
  | Eol :: p' =>
      match s with
      | EmptyString => m p' prev s pos mk
      | String a _ => if Ascii.eqb a nl then m p' prev s pos mk else None
      end
  | GOpen :: p' => m p' prev s pos (pos :: mk)
  | GClose :: p' => m p' prev s pos (pos :: mk)
  end.

(** A match of [p] that starts at [s]. *)
Definition match_at (p : pattern) (prev : option ascii) (s : string)
  : option result := m p prev s 0 [].

(** The text of the groups of a match that starts at [s]. *)
Fixpoint groups (s : string) (mk : list nat) : list string :=
  match mk with
  | o :: c :: mk' => String.substring o (c - o) s :: groups s mk'
  | _ => []
  end.

(** [match.group(n)], for [n >= 1]. *)
Definition group (n : nat) (gs : list string) : string :=
  default EmptyString (gs !! (n - 1)).

(** A replacement template: literal text and group references. *)
Inductive piece : Type :=
| Txt (s : string)
| Grp (n : nat).

Fixpoint expand (t : list piece) (gs : list string) : string :=
  match t with
  | Txt s :: t' => s +:+ expand t' gs
  | Grp n :: t' => group n gs +:+ expand t' gs
  | [] => EmptyString
  end.

(** [re.sub(p, t, s)]: the matches are found from the left and do not
    overlap.  Every pattern of the program consumes at least one
    character (lemma [m_not_empty] below), so Python's rules for empty
    matches never apply: an empty match is left alone here. *)
Fixpoint sub_from (p : pattern) (t : list piece) (prev : option ascii)
  (s : string) (skip : nat) : string :=
  match s with
  | EmptyString => EmptyString
  | String c s' =>
      match skip with
      | S k => sub_from p t (Some c) s' k
      | O =>
          match match_at p prev s with
          | Some (S n, mk) =>
              expand t (groups s mk) +:+ sub_from p t (Some c) s' n
          | _ => String c (sub_from p t (Some c) s' 0)
          end
      end
  end.

Definition sub (p : pattern) (t : list piece) (s : string) : string :=
  sub_from p t None s 0.

(** [re.search(p, s)]: the groups of the leftmost match. *)
Fixpoint search_from (p : pattern) (prev : option ascii) (s : string)
  : option (list string) :=
  match match_at p prev s with
  | Some (_, mk) => Some (groups s mk)
  | None =>
      match s with
      | String c s' => search_from p (Some c) s'
      | EmptyString => None
      end
  end.

Definition search (p : pattern) (s : string) : option (list string) :=
  search_from p None s.

End Re.

Import PyStr Re.

(** ** [markdown_to_latex] *)

(** [^#####\s+(.*?)$], [^####\s+(.*?)$], ... : a header of the given
    number of hashes. *)
Definition pat_header (hashes : string) : pattern :=
  Bol :: lits hashes ++ [Plus ws; GOpen; LazyStar dot; GClose; Eol].

(** [\*\*(.*?)\*\*] *)
Definition pat_bold : pattern :=
  lits "**" ++ [GOpen; LazyStar dot; GClose] ++ lits "**".

(** [\*(.*?)\*] *)
Definition pat_italic : pattern :=
  [Lit "*"; GOpen; LazyStar dot; GClose; Lit "*"].

(** [`(.*?)`] *)
Definition pat_code : pattern :=
  [Lit "`"; GOpen; LazyStar dot; GClose; Lit "`"].

(** [\[(.*?)\]\((.*?)\)] *)
Definition pat_link : pattern :=
  [Lit "["; GOpen; LazyStar dot; GClose; Lit "]";
   Lit "("; GOpen; LazyStar dot; GClose; Lit ")"].

(** The headers and the inline spans are tagged with placeholders before
    anything is escaped. *)
Definition tag_spans (text : string) : string :=
  let text := sub (pat_header "#####") [Txt "<<<H5>>>"; Grp 1; Txt "<<<ENDH5>>>"] text in
  let text := sub (pat_header "####") [Txt "<<<H4>>>"; Grp 1; Txt "<<<ENDH4>>>"] text in
  let text := sub pat_bold [Txt "<<<BOLD>>>"; Grp 1; Txt "<<<ENDBOLD>>>"] text in
  let text := sub pat_italic [Txt "<<<ITALIC>>>"; Grp 1; Txt "<<<ENDITALIC>>>"] text in
  let text := sub pat_code [Txt "<<<CODE>>>"; Grp 1; Txt "<<<ENDCODE>>>"] text in
  sub pat_link [Txt "<<<LINK>>>"; Grp 2; Txt "<<<LINKTEXT>>>"; Grp 1; Txt "<<<ENDLINK>>>"] text.

(** The dictionary [replacements], in insertion order. *)
Definition replacements : list (string * string) :=
  [("&", "\&"); ("%", "\%"); ("$", "\$"); ("#", "\#"); ("_", "\_");
   ("{", "\{"); ("}", "\}")]%string.

(** [for char, replacement in ...: text = text.replace(char, replacement)] *)
Definition replace_all (rs : list (string * string)) (text : string) : string :=
  fold_left (fun text r => replace (fst r) (snd r) text) rs text.

Definition escape_special (text : string) : string :=
  replace_all replacements text.

(** The placeholders and the commands they become, in the order of the
    program. *)
Definition placeholders : list (string * string) :=
  [("<<<H5>>>", "\textit{"); ("<<<ENDH5>>>", "}\\");
   ("<<<H4>>>", "\textbf{"); ("<<<ENDH4>>>", "}\\");
   ("<<<BOLD>>>", "\textbf{"); ("<<<ENDBOLD>>>", "}");
   ("<<<ITALIC>>>", "\textit{"); ("<<<ENDITALIC>>>", "}");
   ("<<<CODE>>>", "\texttt{"); ("<<<ENDCODE>>>", "}");
   ("<<<LINK>>>", "\href{"); ("<<<LINKTEXT>>>", "}{");
   ("<<<ENDLINK>>>", "}")]%string.

Definition expand_placeholders (text : string) : string :=
  replace_all placeholders text.

(** The second pass over the headers, after the escaping. *)
Definition rescan_headers (text : string) : string :=
  let text := sub (pat_header "####") [Txt "\textbf{"; Grp 1; Txt "}"] text in
  let text := sub (pat_header "###") [Txt "\subsection{"; Grp 1; Txt "}"] text in
  let text := sub (pat_header "##") [Txt "\section{"; Grp 1; Txt "}"] text in
  sub (pat_header "#") [Txt "\section{"; Grp 1; Txt "}"] text.

(** The loop over the lines that builds the itemize blocks: the state is
    [(result_lines, in_list)]. *)
Definition is_list_item (stripped : string) : bool :=
  startswith "- " stripped || startswith "* " stripped.

Definition list_step (st : list string * bool) (line : string)
  : list string * bool :=
  let '(result_lines, in_list) := st in
  let stripped := strip line in
  if is_list_item stripped then
    let result_lines :=
      if in_list then result_lines else result_lines ++ ["\begin{itemize}"%string] in
    let content := strip (drop 2 stripped) in
    (result_lines ++ [("    \item " +:+ content)%string], true)
  else
    let result_lines :=
      if in_list then result_lines ++ ["\end{itemize}"%string] else result_lines in
    (if is_empty stripped then result_lines else result_lines ++ [line], false).

Definition convert_lists (text : string) : string :=
  let lines := split nl text in
  let '(result_lines, in_list) := fold_left list_step lines ([], false) in
  let result_lines :=
    if in_list then result_lines ++ ["\end{itemize}"%string] else result_lines in
  join NL result_lines.

(** [markdown_to_latex(markdown_text)]; [None] is Python's [None]. *)
Definition markdown_to_latex (markdown_text : string) : option string :=
  let text := strip markdown_text in
  if is_empty text then None
  else
    let text := tag_spans text in
    let text := escape_special text in
    let text := expand_placeholders text in
    let text := rescan_headers text in
    Some (convert_lists text).

(** ** The cells of a notebook

    The dictionaries built by [extract_markdown_cells],
    [extract_code_cells] and [extract_images_from_notebook], with the
    keys the generator reads.  [cell_index] is the position of the cell
    in the notebook, given by [enumerate]. *)

Record markdown_cell := MarkdownCell {
  md_cell_index : nat;
  md_content : string
}.

Record code_cell := CodeCell {
  code_cell_index : nat;
  code_content : string
}.

Record image := Image {
  img_filename : string;
  img_cell_index : nat;
  img_plot_type : option string      (* [None] when nothing was inferred *)
}.

(** [infer_plot_type(cell_source, counter)] *)
Definition infer_plot_type (cell_source : string) (counter : nat)
  : option string := None.

(** ** [extract_title_info] *)

Record title_info := TitleInfo {
  title : string;
  subtitle : string;
  author : string;
  institute : string
}.

(** The headers that are never taken as subtitle. *)
Definition generic_headers : list string :=
  ["problem statement"; "objectives"; "introduction"; "the dataset";
   "eda"; "models"; "deliverables"]%string.

(** The variables of the loop over the lines of the first cell. *)
Record title_state := TitleState {
  ts_title : string;
  ts_title_found : bool;
  ts_subtitle : string
}.

Definition title_step (st : title_state) (line : string) : title_state :=
  let line_stripped := strip line in
  if startswith "## " line_stripped && negb (ts_title_found st) then
    TitleState (strip (lstrip_chars "## " line_stripped)) true (ts_subtitle st)
  else if startswith "# " line_stripped && negb (ts_title_found st) then
    TitleState (strip (lstrip_chars "# " line_stripped)) true (ts_subtitle st)
  else if startswith "### " line_stripped && ts_title_found st
          && is_empty (ts_subtitle st) then
    let potential_subtitle := strip (lstrip_chars "### " line_stripped) in
    if negb (mem_string (lower potential_subtitle) generic_headers)
    then TitleState (ts_title st) (ts_title_found st) potential_subtitle
    else st
  else st.

Definition author_patterns : list pattern :=
  [ (* I,?\s+\*\*([^*]+)\*\*, *)
    [Lit "I"; Opt ","; Plus ws] ++ lits "**"
      ++ [GOpen; Plus not_star; GClose] ++ lits "**,";
    (* [Aa]uthor:?\s+([A-Z][a-zA-Z\s]+) *)
    Cls (one_of "Aa") :: lits "uthor"
      ++ [Opt ":"; Plus ws; GOpen; Cls upper_az; Plus name_char; GClose];
    (* [Bb]y:?\s+([A-Z][a-zA-Z\s]+) *)
    Cls (one_of "Bb") :: lits "y"
      ++ [Opt ":"; Plus ws; GOpen; Cls upper_az; Plus name_char; GClose];
    (* [Nn]ame:?\s+([A-Z][a-zA-Z\s]+) *)
    Cls (one_of "Nn") :: lits "ame"
      ++ [Opt ":"; Plus ws; GOpen; Cls upper_az; Plus name_char; GClose] ].

Definition institute_patterns : list pattern :=
  [ GOpen :: lits "University of Colorado Boulder" ++ [GClose];
    GOpen :: lits "Colorado Boulder" ++ [GClose];
    GOpen :: lits "University of " ++ [Cls upper_az; Plus name_char; GClose];
    [GOpen; Cls upper_az; Plus name_char] ++ lits " University" ++ [GClose];
    [GOpen; Cls upper_az; Plus name_char] ++ lits " College" ++ [GClose];
    [GOpen; Cls upper_az; Plus name_char] ++ lits " Institute" ++ [GClose] ].

(** [for pattern in patterns: match = re.search(pattern, text); if match:
    ... break]: the stripped first group of the first pattern that
    matches. *)
Fixpoint first_match (patterns : list pattern) (text : string)
  : option string :=
  match patterns with
  | p :: rest =>
      match search p text with
      | Some gs => Some (strip (group 1 gs))
      | None => first_match rest text
      end
  | [] => None
  end.

Definition extract_title_info (markdown_cells : list markdown_cell)
  : title_info :=
  match markdown_cells with
  | [] => TitleInfo "Presentation" "" "Author" "Institute"
  | first :: _ =>
      let all_content := join NL (map md_content markdown_cells) in
      let lines := split nl (md_content first) in
      let st := fold_left title_step lines (TitleState "Presentation" false "") in
      let author := default "Author"%string (first_match author_patterns all_content) in
      let institute :=
        match first_match institute_patterns all_content with
        | Some i =>
            if String.eqb i "Colorado Boulder"
            then "University of Colorado Boulder"%string else i
        | None => "Institute"%string
        end in
      TitleInfo (ts_title st) (ts_subtitle st) author institute
  end.

(** ** [convert_markdown_to_frame] *)

(** Python's truth value of an optional string. *)
Definition truthy (s : option string) : bool :=
  match s with Some s => negb (is_empty s) | None => false end.

Definition convert_markdown_to_frame (title : option string) (content : string)
  : string :=
  if is_empty (strip content) then ""%string
  else
    let latex_text := markdown_to_latex content in
    if negb (truthy latex_text) then ""%string
    else
      let frame_header :=
        if truthy title
        then ("\begin{frame}{" +:+ default ""%string title +:+ "}" +:+ NL)%string
        else ("\begin{frame}" +:+ NL)%string in
      (frame_header +:+ default ""%string latex_text +:+ NL
         +:+ "\end{frame}" +:+ NL +:+ NL)%string.

(** ** [generate_beamer_with_content]: the content of the presentation

    [content_latex] is built by successive [content_latex += ...].  The
    model keeps the pieces apart: every [+=] of the program appends one
    [event], and [content_latex] is the concatenation of the rendered
    events.  The template of the preamble is a file outside the program
    text; the content is what replaces its [{{CONTENT}}] mark. *)

Inductive event : Type :=
| Section (section_title : string)
| MdFrame (frame_title : option string) (frame_content : list string)
| CodeFrame (cell_idx : nat) (cell : code_cell)
| ImageFrame (cell_idx : nat) (img : image).

(** *** Markdown cells: the loop over the lines *)

Record walk_state := WalkState {
  w_out : list event;
  current_frame_content : list string;
  current_frame_title : option string;
  in_frame : bool
}.

(** [if in_frame and current_frame_content: content_latex += ...;
    current_frame_content = []] *)
Definition is_open (st : walk_state) : bool :=
  in_frame st && negb (bool_decide (current_frame_content st = [])).

Definition close_frame (st : walk_state) : walk_state :=
  if is_open st
  then WalkState
         (w_out st ++ [MdFrame (current_frame_title st) (current_frame_content st)])
         [] (current_frame_title st) (in_frame st)
  else st.

Definition start_section (chars : string) (line_stripped : string)
  (st : walk_state) : walk_state :=
  let st := close_frame st in
  let section_title := strip (lstrip_chars chars line_stripped) in
  WalkState (w_out st ++ [Section section_title])
            (current_frame_content st) None false.

Definition walk_step (st : walk_state) (line : string) : walk_state :=
  let line_stripped := strip line in
  if startswith "## " line_stripped then
    start_section "## " line_stripped st
  else if startswith "### " line_stripped then
    let st := close_frame st in
    WalkState (w_out st) (current_frame_content st)
              (Some (strip (lstrip_chars "### " line_stripped))) true
  else if startswith "# " line_stripped then
    start_section "# " line_stripped st
  else if startswith "---" line_stripped then
    if is_open st
    then WalkState (w_out (close_frame st)) [] None false
    else st
  else
    let st :=
      if negb (in_frame st) && negb (is_empty line_stripped)
      then WalkState (w_out st) (current_frame_content st) (Some ""%string) true
      else st in
    if in_frame st
    then WalkState (w_out st) (current_frame_content st ++ [line])
                   (current_frame_title st) (in_frame st)
    else st.

(** The events of one markdown cell. *)
Definition markdown_events (md_cell : markdown_cell) : list event :=
  let content := strip (md_content md_cell) in
  if is_empty content then []
  else
    let lines := split nl content in
    let st := fold_left walk_step lines (WalkState [] [] None false) in
    w_out (close_frame st).

(** *** Code cells *)

Definition num_lines (cell : code_cell) : nat :=
  count nl (code_content cell) + 1.

Definition large_code_frame (cell_idx n : nat) (filename : string) : string :=
  join NL
    [ "";
      "\begin{frame}{Code: Cell " +:+ fmt_d cell_idx +:+ " (Large File - "
        +:+ fmt_d n +:+ " lines)}";
      "    \textbf{Note:} This code cell is very large and has been excluded from the presentation.";
      "";
      "    \vspace{1em}";
      "";
      "    The complete code is available in: \texttt{code/" +:+ filename +:+ "}";
      "";
      "    \vspace{1em}";
      "";
      "    \begin{block}{Summary}";
      "    This cell contains substantial implementation code that is better reviewed";
      "    in the source file rather than displayed in presentation slides.";
      "    \end{block}";
      "\end{frame}";
      "";
      "" ]%string.

Definition code_figure_frame (options : string) (cell_idx : nat)
  (filename : string) : string :=
  join NL
    [ "";
      "\begin{frame}[" +:+ options +:+ "]{Code: Cell " +:+ fmt_d cell_idx +:+ "}";
      "    \begin{figure}";
      "        \CODE{" +:+ filename +:+ "}";
      "        \caption{Code from Cell " +:+ fmt_d cell_idx +:+ "}";
      "    \end{figure}";
      "\end{frame}";
      "";
      "" ]%string.

Definition breaking_code_frame : nat → string → string :=
  code_figure_frame "fragile,allowframebreaks".

Definition plain_code_frame : nat → string → string :=
  code_figure_frame "fragile".

Definition render_code (cell_idx : nat) (cell : code_cell) : string :=
  let filename := ("cell_" +:+ fmt_03d cell_idx +:+ ".py")%string in
  let n := num_lines cell in
  if Nat.ltb 200 n then large_code_frame cell_idx n filename
  else if Nat.ltb 50 n then breaking_code_frame cell_idx filename
  else plain_code_frame cell_idx filename.

(** *** Images and the merge of the three collections

    [str.title] is the built-in of Python; it is only applied to an
    inferred plot type and is left abstract. *)

Section Assembler.
Variable str_title : string → string.

Definition image_title (img : image) : string :=
  if truthy (img_plot_type img)
  then str_title (replace "_" " " (default ""%string (img_plot_type img)))
  else "Analysis Result"%string.

Definition image_caption (cell_idx : nat) (img : image) : string :=
  if truthy (img_plot_type img) then image_title img
  else ("Output from Cell " +:+ fmt_d cell_idx)%string.

Definition render_image (cell_idx : nat) (img : image) : string :=
  join NL
    [ "";
      "\begin{frame}{" +:+ image_title img +:+ "}";
      "    \begin{figure}";
      "        \centering";
      "        \includegraphics[width=0.85\textwidth,height=0.7\textheight,keepaspectratio]{assets/figures/"
        +:+ img_filename img +:+ "}";
      "        \caption{" +:+ image_caption cell_idx img +:+ "}";
      "    \end{figure}";
      "\end{frame}";
      "";
      "" ]%string.

Definition render (e : event) : string :=
  match e with
  | Section section_title =>
      (NL +:+ "\section{" +:+ section_title +:+ "}" +:+ NL +:+ NL)%string
  | MdFrame t c => convert_markdown_to_frame t (join NL c)
  | CodeFrame cell_idx cell => render_code cell_idx cell
  | ImageFrame cell_idx img => render_image cell_idx img
  end.

Definition render_all (es : list event) : string :=
  fold_left (fun content_latex e => (content_latex +:+ render e)%string)
            es ""%string.

(** [images_by_cell]: the images of each cell, in their order. *)
Definition images_by_cell (images : list image) : gmap nat (list image) :=
  fold_left
    (fun by_cell img =>
       let cell_idx := img_cell_index img in
       <[cell_idx := default [] (by_cell !! cell_idx) ++ [img]]> by_cell)
    images ∅.

(** [code_by_cell]: a later cell of the same index replaces an earlier
    one. *)
Definition code_by_cell (code_cells : list code_cell) : gmap nat code_cell :=
  fold_left (fun by_cell code => <[code_cell_index code := code]> by_cell)
            code_cells ∅.

Definition all_cell_indices (images : list image)
  (markdown_cells : list markdown_cell) (code_cells : list code_cell)
  : gset nat :=
  list_to_set (map md_cell_index markdown_cells)
  ∪ list_to_set (map code_cell_index code_cells)
  ∪ dom (images_by_cell images).

(** [sorted(all_cell_indices)] *)
Definition sorted_indices (images : list image)
  (markdown_cells : list markdown_cell) (code_cells : list code_cell)
  : list nat :=
  merge_sort Nat.le (elements (all_cell_indices images markdown_cells code_cells)).

(** The three parts of the body of the loop over the indices. *)
Definition markdown_part (markdown_cells : list markdown_cell)
  (cell_idx : nat) : list event :=
  match find (fun mc => Nat.eqb (md_cell_index mc) cell_idx) markdown_cells with
  | Some md_cell => markdown_events md_cell
  | None => []
  end.

Definition code_part (code_cells : list code_cell) (cell_idx : nat)
  : list event :=
  match code_by_cell code_cells !! cell_idx with
  | Some cell => [CodeFrame cell_idx cell]
  | None => []
  end.

Definition image_part (images : list image) (cell_idx : nat) : list event :=
  match images_by_cell images !! cell_idx with
  | Some imgs => map (ImageFrame cell_idx) imgs
  | None => []
  end.

Definition cell_events (images : list image)
  (markdown_cells : list markdown_cell) (code_cells : list code_cell)
  (cell_idx : nat) : list event :=
  markdown_part markdown_cells cell_idx
  ++ code_part code_cells cell_idx
  ++ image_part images cell_idx.

(** The events of the whole loop, in the order of their emission. *)
Definition timeline (images : list image)
  (markdown_cells : list markdown_cell) (code_cells : list code_cell)
  : list event :=
  fold_left
    (fun out cell_idx => out ++ cell_events images markdown_cells code_cells cell_idx)
    (sorted_indices images markdown_cells code_cells) [].

(** [content_latex] at the end of [generate_beamer_with_content]. *)
Definition generate_content (images : list image)
  (markdown_cells : list markdown_cell) (code_cells : list code_cell)
  : string :=
  render_all (timeline images markdown_cells code_cells).

(** [generate_beamer_with_content]: [template] is the text that
    [load_template] returns, a file of the repository populated with the
    colours of the theme; the title information and the content replace
    its marks. *)
Definition generate_beamer_with_content (template : string)
  (images : list image) (markdown_cells : list markdown_cell)
  (code_cells : list code_cell) : string :=
  let title_info := extract_title_info markdown_cells in
  let subtitle_line :=
    if is_empty (subtitle title_info) then ""%string
    else ("\subtitle{" +:+ subtitle title_info +:+ "}")%string in
  let template := replace "{{TITLE}}" (title title_info) template in
  let template := replace "{{SUBTITLE}}" subtitle_line template in
  let template := replace "{{AUTHOR}}" (author title_info) template in
  let template := replace "{{INSTITUTE}}" (institute title_info) template in
  replace "{{CONTENT}}" (generate_content images markdown_cells code_cells)
          template.

End Assembler.

(** ** The notebook and the extraction of its cells

    A notebook is the list under the key [cells] of the JSON file.  The
    keys of a cell and of an output are read with [get]: a missing
    [cell_type] or [output_type] is [None], a missing [source] or
    [outputs] the empty list, a missing [data] the empty dictionary.  A
    notebook file that is not found is [None].  The messages printed and
    the creation of the directories are not part of the model; the files
    written are. *)

Record nb_output := NbOutput {
  out_type : option string;
  out_data : gmap string string       (* mime type to payload *)
}.

Record nb_cell := NbCell {
  nb_cell_type : option string;
  nb_source : list string;
  nb_outputs : list nb_output
}.

Definition notebook := list nb_cell.

(** [enumerate(l)] *)
Definition enumerate {A : Type} (l : list A) : list (nat * A) :=
  combine (seq 0 (List.length l)) l.

(** [''.join(cell.get('source', []))] *)
Definition source_text (cell : nb_cell) : string :=
  String.concat "" (nb_source cell).

Definition has_type (t : string) (cell : nb_cell) : bool :=
  bool_decide (nb_cell_type cell = Some t).

(** [extract_markdown_cells] *)
Definition extract_markdown_cells (nb : option notebook) : list markdown_cell :=
  match nb with
  | None => []
  | Some cells =>
      fold_left
        (fun markdown_cells '(cell_idx, cell) =>
           if has_type "markdown" cell
           then markdown_cells ++ [MarkdownCell cell_idx (source_text cell)]
           else markdown_cells)
        (enumerate cells) []
  end.

(** [extract_code_cells]: the cells without anything but blanks are
    skipped. *)
Definition extract_code_cells (nb : option notebook) : list code_cell :=
  match nb with
  | None => []
  | Some cells =>
      fold_left
        (fun code_cells '(cell_idx, cell) =>
           if has_type "code" cell
           then
             let content := source_text cell in
             if negb (is_empty (strip content))
             then code_cells ++ [CodeCell cell_idx content]
             else code_cells
           else code_cells)
        (enumerate cells) []
  end.

(** A file written: its path and what is written. *)
Definition file : Type := string * string.

(** The dictionary of an extracted image, with all its keys. *)
Record image_record := ImageRecord {
  rec_filename : string;
  rec_filepath : string;
  rec_cell_index : nat;
  rec_plot_type : option string;
  rec_cell_source : string
}.

(** The keys that the generator reads. *)
Definition to_image (r : image_record) : image :=
  Image (rec_filename r) (rec_cell_index r) (rec_plot_type r).

(** The variables of the loops of [extract_images_from_notebook], with
    the files written so far. *)
Record extraction := Extraction {
  extracted_images : list image_record;
  image_counter : nat;
  written : list file
}.

Section Extraction.
(** [os.path.join] and [base64.b64decode], which raises on a payload
    that is not base64 ([None]). *)
Variable path_join : string → string → string.
Variable b64decode : string → option string.

(** One output of a cell; [inr] is the state in which the decoding
    raised. *)
Definition output_step (output_dir : string) (cell_idx : nat)
  (cell_source : string) (st : extraction) (output : nb_output)
  : extraction + extraction :=
  if bool_decide (out_type output = Some "display_data"%string
                  ∨ out_type output = Some "execute_result"%string)
  then
    match out_data output !! "image/png"%string with
    | Some image_data =>
        let image_counter := image_counter st + 1 in
        match b64decode image_data with
        | None =>
            inr (Extraction (extracted_images st) image_counter (written st))
        | Some image_bytes =>
            let plot_type := infer_plot_type cell_source image_counter in
            let filename :=
              if truthy plot_type
              then (default ""%string plot_type +:+ "_"
                      +:+ fmt_03d image_counter +:+ ".png")%string
              else ("figure_" +:+ fmt_03d image_counter +:+ ".png")%string in
            let filepath := path_join output_dir filename in
            inl (Extraction
                   (extracted_images st
                      ++ [ImageRecord filename filepath cell_idx plot_type
                            (String.substring 0 200 cell_source)])
                   image_counter
                   (written st ++ [(filepath, image_bytes)]))
        end
    | None => inl st
    end
  else inl st.

(** A loop whose body may raise. *)
Definition fold_raising {A S : Type} (f : S → A → S + S) (l : list A) (st : S)
  : S + S :=
  fold_left (fun r x => match r with inl st => f st x | inr st => inr st end)
            l (inl st).

Definition cell_step (output_dir : string) (st : extraction)
  (c : nat * nb_cell) : extraction + extraction :=
  let '(cell_idx, cell) := c in
  if negb (has_type "code" cell) then inl st
  else fold_raising (output_step output_dir cell_idx (source_text cell))
                    (nb_outputs cell) st.

(** [extract_images_from_notebook]: the images ([inl]) and the files
    written, or the state in which the decoding raised ([inr]). *)
Definition extract_images_from_notebook (nb : option notebook)
  (output_dir : string) : extraction + extraction :=
  match nb with
  | None => inl (Extraction [] 0 [])
  | Some cells =>
      fold_raising (cell_step output_dir) (enumerate cells) (Extraction [] 0 [])
  end.

(** The dictionary of a saved code file. *)
Record saved_file := SavedFile {
  saved_filename : string;
  saved_filepath : string;
  saved_cell_index : nat
}.

(** [save_code_cells_to_files]: the list returned and the files
    written. *)
Definition save_code_cells_to_files (code_cells : list code_cell)
  (output_dir : string) : list saved_file * list file :=
  fold_left
    (fun '(saved_files, files) code_cell =>
       let filename :=
         ("cell_" +:+ fmt_03d (code_cell_index code_cell) +:+ ".py")%string in
       let filepath := path_join output_dir filename in
       (saved_files ++ [SavedFile filename filepath (code_cell_index code_cell)],
        files ++ [(filepath, code_content code_cell)]))
    code_cells ([], []).

End Extraction.

(** ** The themes and [load_template] *)

(** An entry of [UNIVERSITY_THEMES]. *)
Record theme_config := ThemeConfig {
  th_name : string;
  th_primary : nat * nat * nat;
  th_secondary : nat * nat * nat;
  th_tertiary : nat * nat * nat;
  th_quaternary : nat * nat * nat;
  th_logo : string
}.

Definition cu_theme : theme_config :=
  ThemeConfig "University of Colorado Boulder"
              (207, 184, 124) (0, 0, 0) (86, 90, 92) (162, 164, 163)
              "cu_logo.png".

(** The dictionary, in insertion order. *)
Definition UNIVERSITY_THEMES : list (string * theme_config) :=
  [ ("cu", cu_theme);
    ("mit",
     ThemeConfig "Massachusetts Institute of Technology"
                 (163, 31, 52) (138, 139, 140) (0, 0, 0) (200, 200, 200)
                 "mit_logo.png");
    ("stanford",
     ThemeConfig "Stanford University"
                 (140, 21, 21) (46, 45, 41) (0, 0, 0) (229, 229, 229)
                 "stanford_logo.png");
    ("fiu",
     ThemeConfig "Florida International University"
                 (8, 30, 63) (179, 163, 105) (0, 0, 0) (200, 200, 200)
                 "fiu_logo.png") ]%string.

(** [UNIVERSITY_THEMES[theme]], [None] for a [KeyError]. *)
Definition theme_lookup (theme : string) : option theme_config :=
  snd <$> find (fun kv => String.eqb kv.1 theme) UNIVERSITY_THEMES.

(** [s.split()]: the words between runs of blanks. *)
Fixpoint split_ws (s : string) : list string :=
  match s with
  | EmptyString => []
  | String c s' =>
      if is_space c then split_ws s'
      else
        match s' with
        | EmptyString => [String c EmptyString]
        | String d _ =>
            if is_space d then String c EmptyString :: split_ws s'
            else match split_ws s' with
                 | h :: t => String c h :: t
                 | [] => [String c EmptyString]
                 end
        end
  end.

(** What a call may raise. *)
Inductive error : Type :=
  FileNotFoundError | KeyError | IndexError | BinasciiError.

(** The double quote, and an attribute of the placeholder logo. *)
Definition dq : string := String "034"%char EmptyString.

Definition attr (key value : string) : string :=
  (key +:+ "=" +:+ dq +:+ value +:+ dq)%string.

Definition rgb (colour : nat * nat * nat) : string :=
  ("rgb(" +:+ fmt_d colour.1.1 +:+ "," +:+ fmt_d colour.1.2 +:+ ","
     +:+ fmt_d colour.2 +:+ ")")%string.

(** The text of the placeholder logo, for the colour [primary], the
    first word of the name of the university and its other words. *)
Definition svg_content (primary : nat * nat * nat) (first_word others : string)
  : string :=
  join NL
    [ "<?xml " +:+ attr "version" "1.0" +:+ " " +:+ attr "encoding" "UTF-8"
        +:+ "?>";
      "<svg " +:+ attr "width" "300" +:+ " " +:+ attr "height" "300" +:+ " "
        +:+ attr "xmlns" "http://www.w3.org/2000/svg" +:+ ">";
      "  <rect " +:+ attr "width" "300" +:+ " " +:+ attr "height" "300"
        +:+ " " +:+ attr "fill" (rgb primary) +:+ " "
        +:+ attr "opacity" "0.1" +:+ "/>";
      "  <text " +:+ attr "x" "150" +:+ " " +:+ attr "y" "150" +:+ " "
        +:+ attr "font-family" "Arial, sans-serif" +:+ " "
        +:+ attr "font-size" "24";
      "        " +:+ attr "font-weight" "bold" +:+ " "
        +:+ attr "text-anchor" "middle";
      "        " +:+ attr "fill" (rgb primary) +:+ ">";
      "    " +:+ first_word;
      "  </text>";
      "  <text " +:+ attr "x" "150" +:+ " " +:+ attr "y" "180" +:+ " "
        +:+ attr "font-family" "Arial, sans-serif" +:+ " "
        +:+ attr "font-size" "18";
      "        " +:+ attr "text-anchor" "middle";
      "        " +:+ attr "fill" (rgb primary) +:+ ">";
      "    " +:+ others;
      "  </text>";
      "</svg>" ]%string.

Section Templates.
(** The files that the functions look at: the text of
    [templates/beamer_template.tex] if it exists, whether the logo of a
    name exists in [assets/logos], its path there, and [Path.with_suffix]
    of pathlib. *)
Variable template_file : option string.
Variable logo_exists : string → bool.
Variable logo_path : string → string.
Variable with_suffix : string → string → string.

(** [ensure_logo_exists(theme, script_dir)]: the name of the logo to
    include and the files written. *)
Definition ensure_logo_exists (theme : string)
  : error + (string * list file) :=
  match theme_lookup theme with
  | None => inl KeyError
  | Some config =>
      let logo_filename := th_logo config in
      if negb (logo_exists logo_filename) then
        let university_name := th_name config in
        let primary := th_primary config in
        match split_ws university_name with
        | [] => inl IndexError
        | first_word :: others =>
            let svg := svg_content primary first_word (join " " others) in
            let svg_logo_path := with_suffix (logo_path logo_filename) ".svg" in
            inr (replace ".png" ".svg" logo_filename, [(svg_logo_path, svg)])
        end
      else inr (logo_filename, [])
  end.

(** The dictionary [replacements] of [load_template], in insertion
    order. *)
Definition theme_replacements (theme_config : theme_config)
  (logo_file : string) : list (string * string) :=
  [ ("{{UNIVERSITY_NAME}}", th_name theme_config);
    ("{{PRIMARY_R}}", fmt_d (th_primary theme_config).1.1);
    ("{{PRIMARY_G}}", fmt_d (th_primary theme_config).1.2);
    ("{{PRIMARY_B}}", fmt_d (th_primary theme_config).2);
    ("{{SECONDARY_R}}", fmt_d (th_secondary theme_config).1.1);
    ("{{SECONDARY_G}}", fmt_d (th_secondary theme_config).1.2);
    ("{{SECONDARY_B}}", fmt_d (th_secondary theme_config).2);
    ("{{TERTIARY_R}}", fmt_d (th_tertiary theme_config).1.1);
    ("{{TERTIARY_G}}", fmt_d (th_tertiary theme_config).1.2);
    ("{{TERTIARY_B}}", fmt_d (th_tertiary theme_config).2);
    ("{{QUATERNARY_R}}", fmt_d (th_quaternary theme_config).1.1);
    ("{{QUATERNARY_G}}", fmt_d (th_quaternary theme_config).1.2);
    ("{{QUATERNARY_B}}", fmt_d (th_quaternary theme_config).2);
    ("{{LOGO_FILE}}", logo_file) ]%string.

(** [load_template(script_dir, theme)]: the populated template and the
    files written. *)
Definition load_template (theme : string) : error + (string * list file) :=
  match template_file with
  | None => inl FileNotFoundError
  | Some template =>
      let theme_config := default cu_theme (theme_lookup theme) in
      match ensure_logo_exists theme with
      | inl e => inl e
      | inr (logo_file, files) =>
          inr (replace_all (theme_replacements theme_config logo_file) template,
               files)
      end
  end.

End Templates.

(** ** [save_presentation], [create_compile_script] and [main] *)

(** [save_presentation(content, output_file)]: the file written. *)
Definition save_presentation (content output_file : string) : list file :=
  [(output_file, content)].

(** [create_compile_script(output_dir, script_dir)]: the two templates
    are read, then the two scripts are written; [None] is a template
    that does not exist. *)
Definition create_compile_script (path_join : string → string → string)
  (shell_template batch_template : option string) (output_dir : string)
  : error + list file :=
  match shell_template with
  | None => inl FileNotFoundError
  | Some shell_script_content =>
      match batch_template with
      | None => inl FileNotFoundError
      | Some batch_script_content =>
          inr [ (path_join output_dir "compile_presentation.sh",
                 shell_script_content);
                (path_join output_dir "compile_presentation.bat",
                 batch_script_content) ]%string
      end
  end.

(** How a run ends: [sys.exit], an exception that escapes after some
    files were written, or all the files generated. *)
Inductive outcome : Type :=
| Exit (status : nat)
| Raised (e : error) (files : list file)
| Generated (files : list file).

Section Main.
(** The library functions and what the run finds on the disk: the
    templates, the logos, and the paths of the output directory, of its
    directories of code and figures and of the presentation. *)
Variable path_join : string → string → string.
Variable b64decode : string → option string.
Variable str_title : string → string.
Variable template_file : option string.
Variable logo_exists : string → bool.
Variable logo_path : string → string.
Variable with_suffix : string → string → string.
Variable shell_template batch_template : option string.
Variable output_dir code_dir figures_dir presentation_file : string.

(** [theme = sys.argv[2] if len(sys.argv) > 2 else 'cu'] *)
Definition theme_of (argv : list string) : string :=
  if Nat.ltb 2 (List.length argv) then default ""%string (argv !! 2)
  else "cu"%string.

(** [main], from the command line to the creation of the compile
    scripts: [argv] is [sys.argv] and [notebook] the notebook at
    [sys.argv[1]], [None] when the path does not exist.  The copy of the
    logos and the run of the LaTeX compiler that follow are outside of
    the model. *)
Definition main (argv : list string) (notebook : option notebook) : outcome :=
  if Nat.ltb (List.length argv) 2 then Exit 1
  else
    let theme := theme_of argv in
    if negb (bool_decide (theme ∈ map fst UNIVERSITY_THEMES)) then Exit 1
    else
      match notebook with
      | None => Exit 1
      | Some _ =>
          let markdown_cells := extract_markdown_cells notebook in
          let code_cells := extract_code_cells notebook in
          let code_files :=
            (save_code_cells_to_files path_join code_cells code_dir).2 in
          match extract_images_from_notebook path_join b64decode notebook
                                             figures_dir with
          | inr st => Raised BinasciiError (code_files ++ written st)
          | inl st =>
              let images := map to_image (extracted_images st) in
              match load_template template_file logo_exists logo_path
                                  with_suffix theme with
              | inl e => Raised e (code_files ++ written st)
              | inr (template, logo_files) =>
                  let latex_content :=
                    generate_beamer_with_content str_title template images
                                                 markdown_cells code_cells in
                  let files :=
                    code_files ++ written st ++ logo_files
                    ++ save_presentation latex_content presentation_file in
                  match create_compile_script path_join shell_template
                                              batch_template output_dir with
                  | inl e => Raised e files
                  | inr scripts => Generated (files ++ scripts)
                  end
              end
          end
      end.

End Main.

(** ** Notions used in the statements *)

(** [old in s] *)
Fixpoint occurs (old s : string) : bool :=
  String.prefix old s
  || match s with
     | String _ s' => occurs old s'
     | EmptyString => false
     end.

(** A code cell of [n] lines, for [n >= 1]. *)
Definition synthetic_code (cell_idx n : nat) : code_cell :=
  CodeCell cell_idx (join NL (repeat "x = 1"%string n)).

(** The lines of the first cell, as [extract_title_info] reads them. *)
Definition is_title_line (line : string) : bool :=
  startswith "## " (strip line) || startswith "# " (strip line).

Definition is_h3_line (line : string) : bool :=
  startswith "### " (strip line).

(** The text of a header of level three: the leading hashes and blanks
    are dropped, then the text is stripped. *)
Definition h3_text (line : string) : string :=
  strip (lstrip_chars "### " (strip line)).

Definition excluded (line : string) : bool :=
  mem_string (lower (h3_text line)) generic_headers.

(** The lines that follow the first title line. *)
Fixpoint after_title (lines : list string) : option (list string) :=
  match lines with
  | line :: rest => if is_title_line line then Some rest else after_title rest
  | [] => None
  end.

(** The subtitle as the specification words it: the first header of
    level three after the title line, taken unless its lowercased text is
    a generic header. *)
Definition claimed_subtitle (lines : list string) : string :=
  match after_title lines with
  | Some rest =>
      match find (fun line => is_h3_line line && negb (excluded line)) rest with
      | Some line => h3_text line
      | None => ""%string
      end
  | None => ""%string
  end.

(** The same, when the very first header of level three decides. *)
Definition claimed_subtitle_first_only (lines : list string) : string :=
  match after_title lines with
  | Some rest =>
      match find is_h3_line rest with
      | Some line => if excluded line then ""%string else h3_text line
      | None => ""%string
      end
  | None => ""%string
  end.

(** The subtitle of the program: a header whose text is empty is passed
    over like a generic one. *)
Definition subtitle_of_lines (lines : list string) : string :=
  match after_title lines with
  | Some rest =>
      match find (fun line => is_h3_line line && negb (excluded line)
                              && negb (is_empty (h3_text line))) rest with
      | Some line => h3_text line
      | None => ""%string
      end
  | None => ""%string
  end.

(** The three kinds of events. *)
Definition is_markdown_event (e : event) : bool :=
  match e with Section _ | MdFrame _ _ => true | _ => false end.



(** The characters that the translator escapes, and those of them that
    no command of the output contains. *)
Definition special : string := "&%$#_{}".

(** Every character of [s] satisfies [f]. *)
Fixpoint all_chars (f : ascii → bool) (s : string) : bool :=
  match s with
  | String c s' => f c && all_chars f s'
  | EmptyString => true
  end.

(** No character of [cs] occurs in [s]. *)
Definition no_char (cs s : string) : bool :=
  all_chars (fun c => negb (mem_char c cs)) s.

(** The escaping of a text, character by character: a backslash is put
    before every special character. *)
Fixpoint escape_chars (s : string) : string :=
  match s with
  | String c s' =>
      if mem_char c special
      then String "\" (String c (escape_chars s'))
      else String c (escape_chars s')
  | EmptyString => EmptyString
  end.

(** Every occurrence in [s] of a character of [cs] comes right after a
    backslash; [after_bs] tells whether [s] itself comes after one. *)
Fixpoint escaped_in (cs : string) (after_bs : bool) (s : string) : bool :=
  match s with
  | String c s' =>
      (negb (mem_char c cs) || after_bs) && escaped_in cs (Ascii.eqb c "\") s'
  | EmptyString => true
  end.

Definition escaped (cs s : string) : bool := escaped_in cs false s.

(** Some line of the text starts with [h]; [bol] tells whether the text
    starts a line. *)
Fixpoint line_starts (h : string) (bol : bool) (s : string) : bool :=
  match s with
  | String c s' =>
      (bol && String.prefix h s) || line_starts h (Ascii.eqb c nl) s'
  | EmptyString => false
  end.

(** A line of blanks only. *)
Definition is_blank (line : string) : bool := is_empty (strip line).

(** Some line of the text is an item of a list. *)
Definition has_list_item (text : string) : bool :=
  existsb (fun line => is_list_item (strip line)) (split nl text).

(** The first character that a match of the pattern has to read. *)
Fixpoint first_lit (p : pattern) : option ascii :=
  match p with
  | Lit c :: _ => Some c
  | (Bol | GOpen | GClose) :: p' => first_lit p'
  | _ => None
  end.

(** Whether the text that follows [s] comes after a backslash, when [s]
    itself comes after one or not according to [after_bs]. *)
Fixpoint ends_bs (after_bs : bool) (s : string) : bool :=
  match s with
  | String c s' => ends_bs (Ascii.eqb c "\") s'
  | EmptyString => after_bs
  end.

(** The character before a position: does it start a line, is it a
    backslash. *)
Definition is_bol (prev : option ascii) : bool :=
  match prev with Some a => Ascii.eqb a nl | None => true end.

Definition is_bs (prev : option ascii) : bool :=
  match prev with Some a => Ascii.eqb a "\" | None => false end.

(** A replacement that keeps the characters of [cs] escaped: [old] is not
    empty and has no backslash, [new] has no character of [cs]. *)
Definition keeps_escaped (cs : string) (r : string * string) : bool :=
  negb (is_empty (fst r)) && no_char "\" (fst r) && no_char cs (snd r).










(** The frame of a code cell and of an image. *)
Definition code_event (cell : code_cell) : event :=
  CodeFrame (code_cell_index cell) cell.





(** *** The frames that a markdown cell is to give

    The account of the frames of a cell in the words of the
    specification, from the lines of the cell and not from a loop over
    them: the lines are cut at the headers, the lines of a header are cut
    at the separators, and every piece gives at most one frame. *)













(** The cells that the assembler reads when indices repeat: the first
    markdown cell of an index ([next(...)]) and the last code cell of an
    index (the assignment [code_by_cell[cell_idx] = code]). *)
Fixpoint first_by_index (markdown_cells : list markdown_cell)
  : list markdown_cell :=
  match markdown_cells with
  | mc :: rest =>
      mc :: List.filter
              (fun other => negb (Nat.eqb (md_cell_index other) (md_cell_index mc)))
              (first_by_index rest)
  | [] => []
  end.

Fixpoint last_by_index (code_cells : list code_cell) : list code_cell :=
  match code_cells with
  | cc :: rest =>
      if existsb (fun other => Nat.eqb (code_cell_index other) (code_cell_index cc))
                 rest
      then last_by_index rest
      else cc :: last_by_index rest
  | [] => []
  end.

(** The place of a line with respect to the itemize environments, and
    the lines that open one, close one, and are an item. *)
Inductive list_position : Type := Outside | Opened | Inside.

Definition is_begin (l : string) : bool := String.eqb l "\begin{itemize}".
Definition is_end (l : string) : bool := String.eqb l "\end{itemize}".
Definition is_item (l : string) : bool := startswith "    \item " l.
Definition is_marker (l : string) : bool := is_begin l || is_end l || is_item l.

(** One line read: an environment is opened outside of any other, an
    item stands in an environment, an environment with an item is
    closed, any other line stands outside; [None] otherwise. *)
Definition scan_line (st : option list_position) (l : string)
  : option list_position :=
  match st with
  | None => None
  | Some pos =>
      if is_begin l then
        match pos with Outside => Some Opened | _ => None end
      else if is_end l then
        match pos with Inside => Some Outside | _ => None end
      else if is_item l then
        match pos with Outside => None | _ => Some Inside end
      else
        match pos with Outside => Some Outside | _ => None end
  end.

Definition well_listed (lines : list string) : bool :=
  match fold_left scan_line lines (Some Outside) with
  | Some Outside => true
  | _ => false
  end.

(** The title that a title line gives. *)
Definition title_of_line (line : string) : string :=
  strip (lstrip_chars "# " (strip line)).

(** A text with a character that is not a blank, and a replacement
    template with such a text. *)
Definition has_ink (s : string) : bool := negb (all_chars is_space s).

Definition template_has_ink (t : list piece) : bool :=
  existsb (fun p => match p with Txt s => has_ink s | Grp _ => false end) t.

(** A line that is not blank and has no line break. *)
Definition good_line (l : string) : Prop :=
  has_ink l = true ∧ all_chars dot l = true.

(** A loop over [enumerate] that appends an element for each item kept. *)
Definition kept_from {A B : Type} (keep : A → bool) (make : nat → A → B)
  (k : nat) (l : list A) : list B :=
  fold_left
    (fun acc '(i, x) => if keep x then acc ++ [make i x] else acc)
    (combine (seq k (List.length l)) l) [].

(** The PNG payload that [extract_images_from_notebook] reads in an
    output. *)
Definition png_payload (output : nb_output) : option string :=
  if bool_decide (out_type output = Some "display_data"%string
                  ∨ out_type output = Some "execute_result"%string)
  then out_data output !! "image/png"%string
  else None.

(** A PNG output with the index and the source of its cell. *)
Record png := Png {
  png_cell_index : nat;
  png_cell_source : string;
  png_data : string
}.

Definition cell_pngs (c : nat * nb_cell) : list png :=
  if has_type "code" c.2
  then omap (fun output => Png c.1 (source_text c.2) <$> png_payload output)
            (nb_outputs c.2)
  else [].

(** The PNG outputs of the code cells of a notebook, in their order. *)
Definition png_outputs (nb : option notebook) : list png :=
  match nb with
  | Some cells => List.flat_map cell_pngs (enumerate cells)
  | None => []
  end.

(** The number that a decimal text denotes, leading zeros allowed. *)
Definition parse_nat (s : string) : option nat :=
  option_map Nat.of_uint (NilEmpty.uint_of_string s).

(** The name of the file of a code cell and of the n-th image. *)
Definition code_filename (cell_idx : nat) : string :=
  ("cell_" +:+ fmt_03d cell_idx +:+ ".py")%string.

Definition figure_filename (n : nat) : string :=
  ("figure_" +:+ fmt_03d n +:+ ".png")%string.

(** The dictionary of the n-th image, and the step of the extraction on
    a PNG output. *)
Definition image_of (path_join : string → string → string)
  (output_dir : string) (n : nat) (p : png) : image_record :=
  ImageRecord (figure_filename n) (path_join output_dir (figure_filename n))
              (png_cell_index p) None
              (String.substring 0 200 (png_cell_source p)).

Definition png_step (path_join : string → string → string)
  (b64decode : string → option string) (output_dir : string)
  (st : extraction) (p : png) : extraction + extraction :=
  let n := image_counter st + 1 in
  match b64decode (png_data p) with
  | None => inr (Extraction (extracted_images st) n (written st))
  | Some image_bytes =>
      inl (Extraction
             (extracted_images st ++ [image_of path_join output_dir n p])
             n
             (written st
                ++ [(path_join output_dir (figure_filename n), image_bytes)]))
  end.

(** The events of one cell of the notebook: the frames of its markdown,
    the frame of its code, the frames of its images. *)
Definition notebook_events (images : list image) (c : nat * nb_cell)
  : list event :=
  (if has_type "markdown" c.2
   then markdown_events (MarkdownCell c.1 (source_text c.2)) else [])
  ++ (if has_type "code" c.2 && negb (is_empty (strip (source_text c.2)))
      then [CodeFrame c.1 (CodeCell c.1 (source_text c.2))] else [])
  ++ map (ImageFrame c.1)
         (List.filter (fun img => Nat.eqb (img_cell_index img) c.1) images).

(** The content of a file after a list of writes: the last one. *)
Definition last_write (path : string) (files : list file) : option string :=
  snd <$> last (List.filter (fun f => String.eqb f.1 path) files).

(** * Properties *)

#[local] Arguments String.append : simpl nomatch.

Section StringFacts.

Lemma append_assoc (a b c : string) : (a +:+ b) +:+ c = a +:+ (b +:+ c).
Proof. induction a as [|x a IH]; simpl; [done | by rewrite IH]. Qed.

Lemma append_nil_r (a : string) : a +:+ "" = a.
Proof. induction a as [|x a IH]; simpl; [done | by rewrite IH]. Qed.

Lemma prefix_app (old rest : string) : String.prefix old (old +:+ rest) = true.
Proof.
  induction old as [|x old IH]; simpl; [by destruct rest|].
  destruct (ascii_dec x x); [done | congruence].
Qed.

Lemma occurs_here (old s : string) :
  String.prefix old s = true → occurs old s = true.
Proof. intros H. destruct s; simpl in *; rewrite H; done. Qed.

Lemma occurs_cons (old : string) (c : ascii) (s : string) :
  occurs old s = true → occurs old (String c s) = true.
Proof. intros H. simpl. rewrite H. apply orb_true_r. Qed.

Lemma occurs_app_r (old a b : string) :
  occurs old b = true → occurs old (a +:+ b) = true.
Proof. intros H. induction a as [|x a IH]; [done|]. by apply occurs_cons. Qed.

Lemma prefix_same_head (v a b : string) :
  String.prefix (v +:+ a) (v +:+ b) = String.prefix a b.
Proof.
  induction v as [|x v IH]; simpl; [done|].
  destruct (ascii_dec x x); [done | congruence].
Qed.

End StringFacts.

(** [occurs old s = true] where [s] is built from literals and variables. *)
Ltac flatten_appends := repeat first [ rewrite append_assoc | progress simpl ].
Ltac here :=
  apply occurs_here; simpl; repeat (rewrite prefix_same_head; simpl);
  reflexivity.
Ltac find_occurrence :=
  flatten_appends;
  repeat first [ here | apply occurs_cons | apply occurs_app_r ];
  try reflexivity.

(** ** Code cells *)



(** The four sizes at the two thresholds. *)
Example code_frame_201_lines :
  num_lines (synthetic_code 12 201) = 201
  ∧ render_code 12 (synthetic_code 12 201) = large_code_frame 12 201 "cell_012.py".
Proof. split; vm_compute; reflexivity. Qed.

Example code_frame_200_lines :
  num_lines (synthetic_code 12 200) = 200
  ∧ render_code 12 (synthetic_code 12 200) = breaking_code_frame 12 "cell_012.py".
Proof. split; vm_compute; reflexivity. Qed.

Example code_frame_51_lines :
  num_lines (synthetic_code 12 51) = 51
  ∧ render_code 12 (synthetic_code 12 51) = breaking_code_frame 12 "cell_012.py".
Proof. split; vm_compute; reflexivity. Qed.

Example code_frame_50_lines :
  num_lines (synthetic_code 12 50) = 50
  ∧ render_code 12 (synthetic_code 12 50) = plain_code_frame 12 "cell_012.py".
Proof. split; vm_compute; reflexivity. Qed.

(** ** Images *)

(** C7. With no markdown cell, no code cell and one image of cell 5 for
    which no plot type was inferred, the content is exactly one frame:
    its title is [Analysis Result], its caption [Output from Cell 5], and
    it includes the image by the file name of the record.  Plot type
    inference never infers anything. *)
Theorem single_image_frame (str_title : string → string) (filename : string) :
  let img := Image filename 5 (infer_plot_type "" 1) in
  timeline [img] [] [] = [ImageFrame 5 img]
  ∧ generate_content str_title [img] [] []
    = join NL
        [ "";
          "\begin{frame}{Analysis Result}";
          "    \begin{figure}";
          "        \centering";
          "        \includegraphics[width=0.85\textwidth,height=0.7\textheight,keepaspectratio]{assets/figures/"
            +:+ filename +:+ "}";
          "        \caption{Output from Cell 5}";
          "    \end{figure}";
          "\end{frame}";
          "";
          "" ]%string
  ∧ ∀ cell_source counter, infer_plot_type cell_source counter = None.
Proof.
  intros img.
  assert (Ht : timeline [img] [] [] = [ImageFrame 5 img])
    by (vm_compute; reflexivity).
  split_and!; [exact Ht | | done].
  unfold generate_content. rewrite Ht. vm_compute. reflexivity.
Qed.

(** ** The translator on concrete texts *)

(** C2. A header of level one, two or three is not turned into a section
    command by the second pass: its hashes were escaped before, and the
    text is returned with the escaped hashes. *)
Theorem rescan_misses_escaped_headers :
  markdown_to_latex "### Foo" = Some "\#\#\# Foo"%string
  ∧ occurs "\subsection{Foo}" (default ""%string (markdown_to_latex "### Foo")) = false
  ∧ markdown_to_latex "## Foo" = Some "\#\# Foo"%string
  ∧ markdown_to_latex "# Foo" = Some "\# Foo"%string
  ∧ markdown_to_latex ("Intro" +:+ NL +:+ "### Foo")
    = Some ("Intro" +:+ NL +:+ "\#\#\# Foo")%string.
Proof. split_and!; vm_compute; reflexivity. Qed.

(** C10. A text without any markdown markup that contains the literal
    placeholder [<<<BOLD>>>] is translated to a text with the command
    [\textbf{], although no span was recognised in it. *)
Theorem literal_placeholder_is_expanded :
  ∃ input out : string,
    markdown_to_latex input = Some out
    ∧ forallb (fun c => negb (mem_char c "*`[]()#-_")) (list_ascii_of_string input) = true
    ∧ tag_spans (strip input) = strip input
    ∧ occurs "<<<BOLD>>>" input = true
    ∧ occurs "\textbf{" input = false
    ∧ occurs "\textbf{" out = true.
Proof.
  exists "a <<<BOLD>>> b"%string, "a \textbf{ b"%string.
  split_and!; vm_compute; reflexivity.
Qed.

(** ** The metadata extractor *)

Section TitleInfo.

Lemma is_empty_true (s : string) : is_empty s = true → s = ""%string.
Proof. by destruct s. Qed.

(** Once a subtitle is set, the loop leaves the state alone. *)
Lemma title_step_frozen (t s line : string) :
  is_empty s = false →
  title_step (TitleState t true s) line = TitleState t true s.
Proof.
  intros Hs. unfold title_step. simpl. rewrite Hs.
  by rewrite !andb_false_r.
Qed.

Lemma title_fold_frozen (t s : string) (lines : list string) :
  is_empty s = false →
  fold_left title_step lines (TitleState t true s) = TitleState t true s.
Proof.
  intros Hs. induction lines as [|l lines IH]; [done|].
  simpl. by rewrite title_step_frozen.
Qed.

(** After the title, with no subtitle yet. *)
Lemma title_fold_found (t : string) (lines : list string) :
  ts_subtitle (fold_left title_step lines (TitleState t true ""))
  = match find (fun line => is_h3_line line && negb (excluded line)
                            && negb (is_empty (h3_text line))) lines with
    | Some line => h3_text line
    | None => ""%string
    end.
Proof.
  induction lines as [|l lines IH]; [done|].
  cbn [fold_left find].
  unfold title_step at 2. cbn [ts_title_found ts_subtitle ts_title negb is_empty].
  rewrite !andb_false_r, !andb_true_r.
  fold (is_h3_line l). fold (h3_text l). fold (excluded l).
  destruct (is_h3_line l); cbn [andb]; [|exact IH].
  destruct (excluded l); cbn [negb]; [exact IH|].
  destruct (is_empty (h3_text l)) eqn:He; cbn [negb].
  - apply is_empty_true in He. rewrite He. exact IH.
  - by rewrite title_fold_frozen.
Qed.

(** Before the title. *)
Lemma title_fold_not_found (t : string) (lines : list string) :
  ts_subtitle (fold_left title_step lines (TitleState t false ""))
  = subtitle_of_lines lines.
Proof.
  unfold subtitle_of_lines.
  induction lines as [|l lines IH]; [done|].
  cbn [fold_left after_title].
  unfold title_step at 2. cbn [ts_title_found ts_subtitle ts_title negb].
  rewrite !andb_true_r, !andb_false_r. cbn [andb].
  unfold is_title_line.
  destruct (startswith "## " (strip l)); cbn [orb].
  { apply title_fold_found. }
  destruct (startswith "# " (strip l)).
  { apply title_fold_found. }
  exact IH.
Qed.

End TitleInfo.

(** C8, as amended.  The subtitle is the text of the first line of the
    first markdown cell that follows the title line, is a header of
    level three, has a lowercased text outside the seven generic headers
    and a text that is not empty; without such a line, and without any
    cell, it is the empty string. *)
Theorem subtitle_first_acceptable_header (first : markdown_cell)
  (others : list markdown_cell) :
  subtitle (extract_title_info (first :: others))
  = subtitle_of_lines (split nl (md_content first))
  ∧ subtitle (extract_title_info []) = ""%string
  ∧ generic_headers
    = ["problem statement"; "objectives"; "introduction"; "the dataset";
       "eda"; "models"; "deliverables"]%string.
Proof.
  split_and!; [|done..].
  unfold extract_title_info. cbn [subtitle]. apply title_fold_not_found.
Qed.

(** C8, as stated, fails: the first header of level three after the
    title has an empty text, is not a generic header, and the subtitle is
    nevertheless taken from the header after it. *)
Lemma subtitle_first_header_counterexample :
  let cell := MarkdownCell 0 ("# T" +:+ NL +:+ "### ##" +:+ NL +:+ "### Real") in
  let lines := split nl (md_content cell) in
  subtitle (extract_title_info [cell]) = "Real"%string
  ∧ claimed_subtitle lines = ""%string
  ∧ claimed_subtitle_first_only lines = ""%string
  ∧ subtitle (extract_title_info [cell]) ≠ claimed_subtitle lines
  ∧ subtitle (extract_title_info [cell]) ≠ claimed_subtitle_first_only lines.
Proof. split_and!; vm_compute; done. Qed.

(** The subtitle skips a generic header and takes the next one. *)
Example subtitle_skips_generic_header :
  subtitle (extract_title_info
              [MarkdownCell 0 ("# T" +:+ NL +:+ "### Introduction" +:+ NL
                               +:+ "### Real Sub")])
  = "Real Sub"%string.
Proof. vm_compute. reflexivity. Qed.

Section FirstMatch.

Lemma first_match_none (patterns : list pattern) (text : string) :
  Forall (fun p => search p text = None) patterns →
  first_match patterns text = None.
Proof.
  induction 1 as [|p ps Hp _ IH]; [done|]. simpl. by rewrite Hp.
Qed.

(** The pattern at position [k] matches and no pattern before it does. *)
Lemma first_match_at (patterns : list pattern) (text : string) (k : nat)
  (p : pattern) (gs : list string) :
  patterns !! k = Some p →
  search p text = Some gs →
  (∀ j q, j < k → patterns !! j = Some q → search q text = None) →
  first_match patterns text = Some (strip (group 1 gs)).
Proof.
  revert k. induction patterns as [|p0 ps IH]; intros k Hk Hs Hbefore.
  - by rewrite lookup_nil in Hk.
  - destruct k as [|k]; simpl in *.
    + injection Hk as ->. by rewrite Hs.
    + rewrite (Hbefore 0 p0); [|lia|done].
      apply (IH k); [done..|].
      intros j q Hj Hq. apply (Hbefore (S j) q); [lia|done].
Qed.

End FirstMatch.

(** C9.  The author is the stripped first group of the first of the four
    author patterns, in their order, that matches the markdown contents
    joined by newlines; when none matches, and when there is no cell, it
    is [Author].  The text [I, **Jane Doe**, declare...] gives
    [Jane Doe]. *)
Theorem author_first_matching_pattern (markdown_cells : list markdown_cell) :
  let all_content := join NL (map md_content markdown_cells) in
  (∀ k p gs,
      markdown_cells ≠ [] →
      author_patterns !! k = Some p →
      search p all_content = Some gs →
      (∀ j q, j < k → author_patterns !! j = Some q → search q all_content = None) →
      author (extract_title_info markdown_cells) = strip (group 1 gs))
  ∧ (Forall (fun p => search p all_content = None) author_patterns →
     author (extract_title_info markdown_cells) = "Author"%string)
  ∧ author (extract_title_info []) = "Author"%string
  ∧ List.length author_patterns = 4
  ∧ author (extract_title_info [MarkdownCell 0 "I, **Jane Doe**, declare..."])
    = "Jane Doe"%string.
Proof.
  intros all_content. split_and!.
  - intros k p gs Hne Hk Hs Hbefore.
    destruct markdown_cells as [|first others]; [done|].
    unfold extract_title_info. cbn [author]. fold all_content.
    by rewrite (first_match_at _ _ k p gs).
  - intros Hnone.
    destruct markdown_cells as [|first others]; [done|].
    unfold extract_title_info. cbn [author]. fold all_content.
    by rewrite first_match_none.
  - done.
  - done.
  - vm_compute. reflexivity.
Qed.

Lemma author_first_matching_pattern_witness :
  author (extract_title_info
            [MarkdownCell 0 "A talk"; MarkdownCell 2 "By: Bob Smith, 2024"])
  = "Bob Smith"%string
  ∧ author (extract_title_info [MarkdownCell 0 "no name in here"])
    = "Author"%string.
Proof.
  split.
  - apply (proj1 (author_first_matching_pattern
                    [MarkdownCell 0 "A talk"; MarkdownCell 2 "By: Bob Smith, 2024"])
             2 (Cls (one_of "Bb") :: lits "y"
                  ++ [Opt ":"; Plus ws; GOpen; Cls upper_az; Plus name_char; GClose])
             ["Bob Smith"%string]).
    + discriminate.
    + reflexivity.
    + vm_compute. reflexivity.
    + intros j q Hj Hq.
      destruct j as [|[|j]]; [| |lia]; vm_compute in Hq; injection Hq as <-;
        vm_compute; reflexivity.
  - apply (proj1 (proj2 (author_first_matching_pattern
                           [MarkdownCell 0 "no name in here"]))).
    repeat constructor.
Defined.

(** ** The order of the timeline *)

Section Timeline.

Lemma fold_left_app_concat {A B : Type} (f : A → list B) (l : list A)
  (acc : list B) :
  fold_left (fun out i => out ++ f i) l acc = acc ++ List.concat (map f l).
Proof.
  revert acc. induction l as [|i l IH]; intros acc; simpl.
  - by rewrite app_nil_r.
  - by rewrite IH, <- app_assoc.
Qed.

Lemma timeline_concat (images : list image) (markdown_cells : list markdown_cell)
  (code_cells : list code_cell) :
  timeline images markdown_cells code_cells
  = List.concat (map (cell_events images markdown_cells code_cells)
                (sorted_indices images markdown_cells code_cells)).
Proof. unfold timeline. by rewrite fold_left_app_concat. Qed.

Lemma render_all_fold (str_title : string → string) (es : list event)
  (acc : string) :
  fold_left (fun content_latex e => content_latex +:+ render str_title e) es acc
  = acc +:+ foldr (fun e rest => render str_title e +:+ rest) ""%string es.
Proof.
  revert acc. induction es as [|e es IH]; intros acc; simpl.
  - by rewrite append_nil_r.
  - by rewrite IH, append_assoc.
Qed.

(** The dictionary of the images has the cell indices of the images as
    keys. *)
Lemma images_by_cell_dom_fold (images : list image) (by_cell : gmap nat (list image)) :
  dom (fold_left
         (fun by_cell img =>
            <[img_cell_index img
              := default [] (by_cell !! img_cell_index img) ++ [img]]> by_cell)
         images by_cell)
  = dom by_cell ∪ list_to_set (map img_cell_index images).
Proof.
  revert by_cell. induction images as [|img images IH]; intros by_cell; simpl.
  - set_solver.
  - rewrite IH, dom_insert_L. set_solver.
Qed.

Lemma images_by_cell_dom (images : list image) :
  dom (images_by_cell images) = list_to_set (map img_cell_index images).
Proof.
  unfold images_by_cell. rewrite images_by_cell_dom_fold. set_solver.
Qed.

Lemma elem_of_sorted_indices (images : list image)
  (markdown_cells : list markdown_cell) (code_cells : list code_cell) (i : nat) :
  i ∈ sorted_indices images markdown_cells code_cells
  ↔ i ∈ map md_cell_index markdown_cells
    ∨ i ∈ map code_cell_index code_cells
    ∨ i ∈ map img_cell_index images.
Proof.
  unfold sorted_indices, all_cell_indices.
  rewrite merge_sort_Permutation, elem_of_elements, images_by_cell_dom.
  set_solver.
Qed.

Lemma NoDup_sorted_indices (images : list image)
  (markdown_cells : list markdown_cell) (code_cells : list code_cell) :
  NoDup (sorted_indices images markdown_cells code_cells).
Proof.
  unfold sorted_indices. rewrite merge_sort_Permutation. apply NoDup_elements.
Qed.

Lemma StronglySorted_le_lt (l : list nat) :
  StronglySorted Nat.le l → NoDup l → StronglySorted lt l.
Proof.
  induction 1 as [|x l Hs IH Hx]; intros Hnd; [constructor|].
  apply NoDup_cons in Hnd as [Hnot Hnd].
  constructor; [by apply IH|].
  rewrite Forall_forall in Hx |- *. intros y Hy.
  pose proof (Hx y Hy) as Hle.
  destruct (decide (x = y)) as [->|Hne]; [done|]. unfold Nat.le in Hle. lia.
Qed.

Lemma sorted_indices_ascending (images : list image)
  (markdown_cells : list markdown_cell) (code_cells : list code_cell) :
  StronglySorted lt (sorted_indices images markdown_cells code_cells).
Proof.
  apply StronglySorted_le_lt; [|apply NoDup_sorted_indices].
  unfold sorted_indices. apply Sorted_StronglySorted; [apply _|].
  apply (Sorted_merge_sort Nat.le).
Qed.

(** The loop over the lines of a markdown cell only emits sections and
    markdown frames. *)
Lemma close_frame_markdown (st : walk_state) :
  Forall (fun e => is_markdown_event e = true) (w_out st) →
  Forall (fun e => is_markdown_event e = true) (w_out (close_frame st)).
Proof.
  intros H. unfold close_frame. destruct (is_open st); [|done].
  simpl. apply Forall_app. split; [done|]. by repeat constructor.
Qed.

Lemma walk_step_markdown (st : walk_state) (line : string) :
  Forall (fun e => is_markdown_event e = true) (w_out st) →
  Forall (fun e => is_markdown_event e = true) (w_out (walk_step st line)).
Proof.
  intros H. pose proof (close_frame_markdown st H) as Hc.
  unfold walk_step, start_section.
  repeat case_match; simpl; try done;
    apply Forall_app; split; try done; by repeat constructor.
Qed.

Lemma walk_fold_markdown (lines : list string) (st : walk_state) :
  Forall (fun e => is_markdown_event e = true) (w_out st) →
  Forall (fun e => is_markdown_event e = true)
         (w_out (fold_left walk_step lines st)).
Proof.
  revert st. induction lines as [|l lines IH]; intros st H; [done|].
  simpl. by apply IH, walk_step_markdown.
Qed.

Lemma markdown_events_markdown (md_cell : markdown_cell) :
  Forall (fun e => is_markdown_event e = true) (markdown_events md_cell).
Proof.
  unfold markdown_events. case_match; [constructor|].
  apply close_frame_markdown, walk_fold_markdown. constructor.
Qed.

End Timeline.


(** Two cells given out of order, with an image and a code cell at the
    same index. *)
Example timeline_of_unordered_cells :
  timeline [Image "figure_001.png" 4 None]
           [MarkdownCell 7 "closing words"; MarkdownCell 0 "## Start"]
           [CodeCell 4 "plot()"]
  = [Section "Start";
     CodeFrame 4 (CodeCell 4 "plot()");
     ImageFrame 4 (Image "figure_001.png" 4 None);
     MdFrame (Some ""%string) ["closing words"%string]].
Proof. vm_compute. reflexivity. Qed.

(** ** Facts about the string primitives *)

Section StripFacts.

Lemma all_chars_app (f : ascii → bool) (a b : string) :
  all_chars f (a +:+ b) = all_chars f a && all_chars f b.
Proof.
  induction a as [|c a IH]; simpl; [done|]. by rewrite IH, andb_assoc.
Qed.

(** [lstrip] drops a prefix of blanks, [rstrip] a suffix of blanks. *)
Lemma lstrip_split (s : string) :
  ∃ w, s = w +:+ lstrip s ∧ all_chars is_space w = true.
Proof.
  induction s as [|c s (w & Hs & Hw)]; simpl.
  - by exists ""%string.
  - destruct (is_space c) eqn:Hc.
    + exists (String c w). simpl. rewrite Hc, Hw. by rewrite <- Hs.
    + by exists ""%string.
Qed.

Lemma rstrip_split (s : string) :
  ∃ w, s = rstrip s +:+ w ∧ all_chars is_space w = true.
Proof.
  induction s as [|c s (w & Hs & Hw)]; simpl.
  - by exists ""%string.
  - destruct (rstrip s) as [|d r] eqn:Hr.
    + simpl in Hs. subst w.
      destruct (is_space c) eqn:Hc.
      * exists (String c s). simpl. by rewrite Hc, Hw.
      * by exists s.
    + exists w. simpl in *. by rewrite <- Hs.
Qed.

Lemma all_chars_lstrip (f : ascii → bool) (s : string) :
  all_chars f s = true → all_chars f (lstrip s) = true.
Proof.
  destruct (lstrip_split s) as (w & Hs & _). rewrite Hs at 1.
  rewrite all_chars_app. by intros [_ ?]%andb_true_iff.
Qed.

Lemma all_chars_rstrip (f : ascii → bool) (s : string) :
  all_chars f s = true → all_chars f (rstrip s) = true.
Proof.
  destruct (rstrip_split s) as (w & Hs & _). rewrite Hs at 1.
  rewrite all_chars_app. by intros [? _]%andb_true_iff.
Qed.

Lemma all_chars_strip (f : ascii → bool) (s : string) :
  all_chars f s = true → all_chars f (strip s) = true.
Proof. intros H. by apply all_chars_rstrip, all_chars_lstrip. Qed.

Lemma prefix_app_l (old a b : string) :
  String.prefix old a = true → String.prefix old (a +:+ b) = true.
Proof.
  revert a. induction old as [|x old IH]; intros a H.
  { by destruct (a +:+ b). }
  destruct a as [|y a]; [done|]. simpl in *.
  destruct (ascii_dec x y); [by apply IH | done].
Qed.

Lemma occurs_String (old : string) (c : ascii) (s : string) :
  occurs old (String c s) = String.prefix old (String c s) || occurs old s.
Proof. done. Qed.

Lemma occurs_nil (old : string) : occurs old "" = is_empty old.
Proof. by destruct old. Qed.

Lemma occurs_app_l (old a b : string) :
  occurs old a = true → occurs old (a +:+ b) = true.
Proof.
  induction a as [|y a IH].
  - rewrite occurs_nil. intros H%is_empty_true. subst old.
    apply occurs_here. by destruct (""%string +:+ b).
  - rewrite occurs_String. intros [H|H]%orb_true_iff.
    + apply occurs_here. by apply prefix_app_l.
    + change (String y a +:+ b) with (String y (a +:+ b)).
      apply occurs_cons. by apply IH.
Qed.

Lemma occurs_strip (old s : string) :
  occurs old s = false → occurs old (strip s) = false.
Proof.
  intros H. destruct (occurs old (strip s)) eqn:Ho; [|done].
  unfold strip in Ho.
  destruct (lstrip_split s) as (w1 & Hs1 & _).
  destruct (rstrip_split (lstrip s)) as (w2 & Hs2 & _).
  rewrite Hs1, Hs2 in H.
  by rewrite (occurs_app_r _ _ _ (occurs_app_l _ _ w2 Ho)) in H.
Qed.

End StripFacts.

Section ReplaceFacts.

Lemma replace_from_skip (old new s : string) (k : nat) :
  replace_from old new s k = replace old new (PyStr.drop k s).
Proof.
  revert s. induction k as [|k IH]; intros s; [by destruct s|].
  destruct s as [|c s]; [done|]. simpl. apply IH.
Qed.

Lemma replace_cons (old new : string) (c : ascii) (s : string) :
  replace old new (String c s)
  = if String.prefix old (String c s)
    then new +:+ replace old new (PyStr.drop (String.length old - 1) s)
    else String c (replace old new s).
Proof.
  unfold replace at 1. cbn [replace_from].
  by rewrite replace_from_skip.
Qed.

Lemma replace_no_occurrence (old new s : string) :
  occurs old s = false → replace old new s = s.
Proof.
  induction s as [|c s IH]; [done|].
  rewrite occurs_String. intros [Hp Ho]%orb_false_iff.
  rewrite replace_cons, Hp. by rewrite IH.
Qed.

Lemma prefix_drop (old s : string) :
  String.prefix old s = true → s = old +:+ PyStr.drop (String.length old) s.
Proof.
  revert s. induction old as [|x old IH]; intros s H; [by destruct s|].
  destruct s as [|y s]; [done|]. simpl in *.
  destruct (ascii_dec x y) as [->|]; [|done]. f_equal. by apply IH.
Qed.

Lemma drop_length (k : nat) (s : string) :
  String.length (PyStr.drop k s) ≤ String.length s.
Proof.
  revert s. induction k as [|k IH]; intros s; [by destruct s|].
  destruct s as [|c s]; simpl; [lia|]. specialize (IH s). lia.
Qed.

Lemma escaped_in_mono (cs : string) (b : bool) (s : string) :
  escaped_in cs false s = true → escaped_in cs b s = true.
Proof.
  destruct s as [|c s]; [done|]. simpl.
  rewrite orb_false_r. intros [-> ->]%andb_true_iff. done.
Qed.

Lemma escaped_in_app (cs : string) (b : bool) (x y : string) :
  escaped_in cs b (x +:+ y)
  = escaped_in cs b x && escaped_in cs (ends_bs b x) y.
Proof.
  revert b. induction x as [|c x IH]; intros b; simpl; [done|].
  by rewrite IH, andb_assoc.
Qed.

Lemma no_char_escaped_in (cs : string) (b : bool) (s : string) :
  no_char cs s = true → escaped_in cs b s = true.
Proof.
  revert b. induction s as [|c s IH]; intros b; [done|]. unfold no_char. simpl.
  intros [-> H]%andb_true_iff. simpl. by apply IH.
Qed.

Lemma ends_bs_no_backslash (b : bool) (c : ascii) (s : string) :
  no_char "\" (String c s) = true → ends_bs b (String c s) = false.
Proof.
  revert b c. induction s as [|d s IH]; intros b c; unfold no_char; simpl.
  - rewrite orb_false_r, andb_true_r. by intros ->%negb_true_iff.
  - intros [_ H]%andb_true_iff. by apply (IH true d).
Qed.

(** A replacement of the kind [keeps_escaped] keeps the characters of
    [cs] escaped. *)
Lemma replace_escaped_bounded (cs old new : string) (n : nat) :
  keeps_escaped cs (old, new) = true →
  ∀ s b, String.length s ≤ n →
    escaped_in cs b s = true → escaped_in cs b (replace old new s) = true.
Proof.
  unfold keeps_escaped. cbn [fst snd].
  intros [[Hne Hold]%andb_true_iff Hnew]%andb_true_iff.
  destruct old as [|o old]; [done|]. clear Hne.
  induction n as [|n IH]; intros s b Hlen H.
  { destruct s; [done | simpl in Hlen; lia]. }
  destruct s as [|c s]; [done|].
  rewrite replace_cons.
  destruct (String.prefix (String o old) (String c s)) eqn:Hp.
  - rewrite escaped_in_app, (no_char_escaped_in _ _ _ Hnew). cbn [andb].
    apply escaped_in_mono, IH.
    { pose proof (drop_length (String.length (String o old) - 1) s).
      simpl in Hlen. lia. }
    rewrite (prefix_drop _ _ Hp), escaped_in_app in H.
    apply andb_true_iff in H as [_ H].
    rewrite (ends_bs_no_backslash _ _ _ Hold) in H.
    cbn [String.length PyStr.drop] in H.
    by replace (String.length (String o old) - 1) with (String.length old)
      by (simpl; lia).
  - simpl in H |- *. apply andb_true_iff in H as [-> H]. cbn [andb].
    apply IH; [simpl in Hlen; lia | done].
Qed.

Lemma replace_escaped (cs old new s : string) (b : bool) :
  keeps_escaped cs (old, new) = true →
  escaped_in cs b s = true → escaped_in cs b (replace old new s) = true.
Proof. intros Hk. by apply (replace_escaped_bounded cs old new (String.length s)). Qed.

Lemma replace_all_escaped (cs : string) (rs : list (string * string))
  (s : string) (b : bool) :
  forallb (keeps_escaped cs) rs = true →
  escaped_in cs b s = true → escaped_in cs b (replace_all rs s) = true.
Proof.
  unfold replace_all. revert s.
  induction rs as [|[old new] rs IH]; intros s Hrs H; [done|].
  simpl in Hrs. apply andb_true_iff in Hrs as [Hr Hrs].
  simpl. apply IH; [done|]. by apply replace_escaped.
Qed.

Lemma replace_all_no_occurrence (rs : list (string * string)) (s : string) :
  forallb (fun r => negb (occurs (fst r) s)) rs = true →
  replace_all rs s = s.
Proof.
  unfold replace_all.
  induction rs as [|[old new] rs IH]; intros Hrs; [done|].
  simpl in Hrs. apply andb_true_iff in Hrs as [Hr Hrs].
  simpl. rewrite replace_no_occurrence; [by apply IH|].
  by apply negb_true_iff.
Qed.

End ReplaceFacts.

(** ** The escaping pass *)

Section EscapeFacts.

Lemma prefix_nil (s : string) : String.prefix "" s = true.
Proof. by destruct s. Qed.

Lemma replace_char (c : ascii) (new : string) (a : ascii) (s : string) :
  replace (String c "") new (String a s)
  = if Ascii.eqb a c then new +:+ replace (String c "") new s
    else String a (replace (String c "") new s).
Proof.
  rewrite replace_cons. cbn [String.prefix String.length Nat.sub PyStr.drop].
  rewrite prefix_nil.
  destruct (ascii_dec c a) as [->|Hne].
  - rewrite Ascii.eqb_refl. by destruct s.
  - destruct (Ascii.eqb a c) eqn:He; [|done].
    apply Ascii.eqb_eq in He. congruence.
Qed.

Lemma escape_special_nil : escape_special "" = ""%string.
Proof. done. Qed.

Lemma escape_special_cons (a : ascii) (s : string) :
  escape_special (String a s)
  = if mem_char a special
    then String "\" (String a (escape_special s))
    else String a (escape_special s).
Proof.
  unfold escape_special, replace_all, replacements. cbn [fold_left fst snd].
  destruct (mem_char a special) eqn:Hm.
  - unfold special in Hm. cbn [mem_char] in Hm.
    repeat (apply orb_true_iff in Hm as [Hm|Hm];
            [apply Ascii.eqb_eq in Hm; subst a;
             repeat (rewrite replace_char; cbn [Ascii.eqb Bool.eqb append]);
             reflexivity|]).
    done.
  - unfold special in Hm. cbn [mem_char] in Hm.
    repeat (apply orb_false_iff in Hm as [? Hm]).
    repeat (rewrite replace_char;
            match goal with H : Ascii.eqb a _ = false |- _ => rewrite H; clear H end).
    reflexivity.
Qed.

Lemma escape_chars_cons (c : ascii) (s : string) :
  escape_chars (String c s)
  = if mem_char c special
    then String "\" (String c (escape_chars s))
    else String c (escape_chars s).
Proof. done. Qed.

Lemma escaped_in_cons (cs : string) (b : bool) (c : ascii) (s : string) :
  escaped_in cs b (String c s)
  = (negb (mem_char c cs) || b) && escaped_in cs (Ascii.eqb c "\") s.
Proof. done. Qed.

(** The seven replacements, one after the other, escape the text
    character by character. *)
Lemma escape_special_chars (s : string) : escape_special s = escape_chars s.
Proof.
  induction s as [|a s IH]; [done|].
  by rewrite escape_special_cons, escape_chars_cons, IH.
Qed.


Lemma escape_chars_plain (s : string) :
  no_char special s = true → escape_chars s = s.
Proof.
  unfold no_char. induction s as [|c s IH]; [done|]. cbn [all_chars].
  intros [Hc Hs]%andb_true_iff. apply negb_true_iff in Hc.
  by rewrite escape_chars_cons, Hc, IH.
Qed.

Lemma escape_chars_escaped (b : bool) (s : string) :
  escaped_in special b (escape_chars s) = true.
Proof.
  revert b. induction s as [|c s IH]; intros b; [done|].
  rewrite escape_chars_cons. destruct (mem_char c special) eqn:Hc.
  - rewrite !escaped_in_cons, IH.
    change (mem_char "\" special) with false.
    change (Ascii.eqb "\" "\") with true. cbn [negb orb andb].
    by rewrite orb_true_r.
  - by rewrite escaped_in_cons, Hc, IH.
Qed.

(** Characters escaped for a set are escaped for every part of it. *)
Lemma escaped_in_subset (cs cs' : string) (b : bool) (s : string) :
  (∀ c, mem_char c cs' = true → mem_char c cs = true) →
  escaped_in cs b s = true → escaped_in cs' b s = true.
Proof.
  intros Hsub. revert b. induction s as [|c s IH]; intros b; [done|]. simpl.
  intros [Hc Hs]%andb_true_iff. rewrite (IH _ Hs), andb_true_r.
  destruct (mem_char c cs') eqn:Hc'; [|done].
  by rewrite (Hsub _ Hc') in Hc.
Qed.


Lemma mem_char_hash (cs : string) (c : ascii) :
  mem_char "#" cs = true → mem_char c "#" = true → mem_char c cs = true.
Proof.
  simpl. rewrite orb_false_r. by intros H ->%Ascii.eqb_eq.
Qed.

End EscapeFacts.

(** ** Matches that cannot happen *)

Section RegexFacts.

(** A match starts with the first literal of its pattern. *)
Lemma m_first_lit (p : pattern) (c : ascii) :
  first_lit p = Some c →
  ∀ prev s pos mk r, m p prev s pos mk = Some r → ∃ s', s = String c s'.
Proof.
  induction p as [|i p IH]; [done|].
  intros Hf prev s pos mk r Hm.
  destruct i; cbn [first_lit] in Hf; try done; cbn [m] in Hm.
  - injection Hf as ->. destruct s as [|a s]; [done|].
    destruct (Ascii.eqb a c) eqn:Ha; [|done].
    apply Ascii.eqb_eq in Ha as ->. by exists s.
  - destruct prev as [a|]; [destruct (Ascii.eqb a nl); [|done]|]; by eapply IH.
  - by eapply IH.
  - by eapply IH.
Qed.

Lemma m_lits (h : string) (p : pattern) (prev : option ascii) (s : string)
  (pos : nat) (mk : list nat) (r : result) :
  m (lits h ++ p) prev s pos mk = Some r → String.prefix h s = true.
Proof.
  revert prev s pos. induction h as [|x h IH]; intros prev s pos Hm.
  { apply prefix_nil. }
  cbn [lits app m] in Hm. destruct s as [|a s]; [done|].
  destruct (Ascii.eqb a x) eqn:Ha; [|done].
  apply Ascii.eqb_eq in Ha as ->. cbn [String.prefix].
  destruct (ascii_dec x x); [|done]. by eapply IH.
Qed.

(** A header is matched at the start of a line only. *)
Lemma m_header (h : string) (prev : option ascii) (s : string) (r : result) :
  match_at (pat_header h) prev s = Some r →
  is_bol prev = true ∧ String.prefix h s = true.
Proof.
  unfold match_at, pat_header. cbn [m]. intros Hm. split.
  - destruct prev as [a|]; [|done]. simpl. by destruct (Ascii.eqb a nl).
  - destruct prev as [a|]; [destruct (Ascii.eqb a nl); [|done]|];
      by eapply m_lits.
Qed.

Lemma sub_from_no_match (p : pattern) (t : list piece) (prev : option ascii)
  (c : ascii) (s : string) :
  match_at p prev (String c s) = None →
  sub_from p t prev (String c s) 0 = String c (sub_from p t (Some c) s 0).
Proof. intros H. cbn [sub_from]. by rewrite H. Qed.

(** Without the first literal of the pattern in the text, nothing is
    replaced. *)
Lemma sub_absent (p : pattern) (t : list piece) (c : ascii) (s : string)
  (prev : option ascii) :
  first_lit p = Some c →
  all_chars (fun a => negb (Ascii.eqb a c)) s = true →
  sub_from p t prev s 0 = s.
Proof.
  intros Hf. revert prev. induction s as [|a s IH]; intros prev Hs; [done|].
  cbn [all_chars] in Hs. apply andb_true_iff in Hs as [Ha Hs].
  rewrite sub_from_no_match; [by rewrite IH|].
  destruct (match_at p prev (String a s)) as [r|] eqn:Hm; [|done].
  destruct (m_first_lit p c Hf _ _ _ _ _ Hm) as (s' & Heq).
  injection Heq as -> _. by rewrite Ascii.eqb_refl in Ha.
Qed.

Lemma no_char_without (cs : string) (c : ascii) (s : string) :
  mem_char c cs = true → no_char cs s = true →
  all_chars (fun a => negb (Ascii.eqb a c)) s = true.
Proof.
  intros Hc. unfold no_char. induction s as [|a s IH]; [done|]. cbn [all_chars].
  intros [Ha Hs]%andb_true_iff. rewrite (IH Hs), andb_true_r.
  destruct (Ascii.eqb a c) eqn:He; [|done].
  apply Ascii.eqb_eq in He as ->. by rewrite Hc in Ha.
Qed.

Lemma prefix_app_inv (a b s : string) :
  String.prefix (a +:+ b) s = true → String.prefix a s = true.
Proof.
  revert s. induction a as [|x a IH]; intros s H; [apply prefix_nil|].
  destruct s as [|y s]; [done|]. cbn [append String.prefix] in *.
  destruct (ascii_dec x y); [by apply IH | done].
Qed.

(** Where no line starts with [h], no header with more hashes is found. *)
Lemma sub_header_no_line (h more : string) (t : list piece) (s : string)
  (prev : option ascii) :
  line_starts h (is_bol prev) s = false →
  sub_from (pat_header (h +:+ more)) t prev s 0 = s.
Proof.
  revert prev. induction s as [|a s IH]; intros prev Hs; [done|].
  cbn [line_starts] in Hs. apply orb_false_iff in Hs as [Hhere Hs].
  rewrite sub_from_no_match; [by rewrite (IH (Some a))|].
  destruct (match_at _ prev (String a s)) as [r|] eqn:Hm; [|done].
  apply m_header in Hm as [Hbol Hp]. apply prefix_app_inv in Hp.
  by rewrite Hbol, Hp in Hhere.
Qed.

(** Where every hash comes after a backslash, no header is found. *)
Lemma sub_header_escaped (h : string) (t : list piece) (s : string)
  (prev : option ascii) :
  escaped_in "#" (is_bs prev) s = true →
  sub_from (pat_header (String "#" h)) t prev s 0 = s.
Proof.
  revert prev. induction s as [|a s IH]; intros prev Hs; [done|].
  rewrite escaped_in_cons in Hs. apply andb_true_iff in Hs as [Ha Hs].
  rewrite sub_from_no_match; [by rewrite (IH (Some a))|].
  destruct (match_at _ prev (String a s)) as [r|] eqn:Hm; [|done].
  apply m_header in Hm as [Hbol Hp]. cbn [String.prefix] in Hp.
  destruct (ascii_dec "#" a) as [<-|]; [|done].
  change (mem_char "#" "#") with true in Ha. cbn [negb orb] in Ha.
  destruct prev as [x|]; [|done]. simpl in Hbol, Ha.
  apply Ascii.eqb_eq in Hbol, Ha. subst x. done.
Qed.

(** The second pass over the headers does nothing to an escaped text. *)
Lemma rescan_headers_escaped (text : string) :
  escaped "#" text = true → rescan_headers text = text.
Proof.
  intros H. unfold rescan_headers, sub.
  by rewrite !(sub_header_escaped _ _ text None H).
Qed.

(** A text without stars, backquotes and brackets, and without a line
    that starts with four hashes, has no span to tag. *)
Lemma tag_spans_plain (text : string) :
  no_char "*`[" text = true →
  line_starts "####" true text = false →
  tag_spans text = text.
Proof.
  intros Hc Hl. unfold tag_spans, sub.
  rewrite (sub_header_no_line "####" "#" _ _ None Hl).
  rewrite (sub_header_no_line "####" "" _ _ None Hl).
  rewrite (sub_absent pat_bold _ "*"); [|done|by apply (no_char_without "*`[")].
  rewrite (sub_absent pat_italic _ "*"); [|done|by apply (no_char_without "*`[")].
  rewrite (sub_absent pat_code _ "`"); [|done|by apply (no_char_without "*`[")].
  by rewrite (sub_absent pat_link _ "["); [|done|by apply (no_char_without "*`[")].
Qed.

End RegexFacts.

(** ** Lines *)

Section LineFacts.

Lemma split_cons (c : ascii) (s : string) :
  split nl (String c s)
  = if Ascii.eqb c nl then ""%string :: split nl s
    else match split nl s with
         | h :: t => String c h :: t
         | [] => [String c ""]
         end.
Proof. done. Qed.

Lemma split_not_nil (s : string) : split nl s ≠ [].
Proof.
  induction s as [|c s IH]; [done|]. rewrite split_cons.
  destruct (Ascii.eqb c nl); [done|]. by destruct (split nl s).
Qed.

Lemma join_cons (x : string) (y : string) (l : list string) :
  join NL (x :: y :: l) = x +:+ String nl (join NL (y :: l)).
Proof. done. Qed.

(** Joining the lines of a text gives the text back. *)
Lemma join_split (s : string) : join NL (split nl s) = s.
Proof.
  induction s as [|c s IH]; [done|]. rewrite split_cons.
  destruct (Ascii.eqb c nl) eqn:Hc.
  - apply Ascii.eqb_eq in Hc as ->.
    pose proof (split_not_nil s) as Hne.
    destruct (split nl s) as [|h t]; [done|].
    rewrite join_cons. by rewrite IH.
  - pose proof (split_not_nil s) as Hne.
    destruct (split nl s) as [|h t]; [done|].
    destruct t as [|h' t].
    + simpl in *. by rewrite IH.
    + rewrite join_cons in *. by rewrite <- IH.
Qed.

(** Without an item of a list, the loop keeps the lines that are not
    blank. *)
Lemma list_step_plain (acc : list string) (line : string) :
  is_list_item (strip line) = false →
  list_step (acc, false) line
  = (acc ++ List.filter (fun l => negb (is_blank l)) [line], false).
Proof.
  intros H. unfold list_step. rewrite H. unfold is_blank. simpl.
  destruct (is_empty (strip line)); simpl; [by rewrite app_nil_r | done].
Qed.

Lemma list_fold_plain (lines acc : list string) :
  existsb (fun line => is_list_item (strip line)) lines = false →
  fold_left list_step lines (acc, false)
  = (acc ++ List.filter (fun l => negb (is_blank l)) lines, false).
Proof.
  revert acc. induction lines as [|l lines IH]; intros acc H.
  { simpl. by rewrite app_nil_r. }
  cbn [existsb] in H. apply orb_false_iff in H as [Hl H].
  cbn [fold_left]. rewrite (list_step_plain _ _ Hl), (IH _ H).
  rewrite <- app_assoc. f_equal. f_equal.
  change (l :: lines) with ([l] ++ lines). by rewrite List.filter_app.
Qed.

Lemma convert_lists_plain (text : string) :
  has_list_item text = false →
  convert_lists text
  = join NL (List.filter (fun l => negb (is_blank l)) (split nl text)).
Proof.
  intros H. unfold convert_lists. by rewrite (list_fold_plain _ [] H).
Qed.

Lemma filter_all {A : Type} (f : A → bool) (l : list A) :
  forallb f l = true → List.filter f l = l.
Proof.
  induction l as [|x l IH]; [done|]. simpl.
  intros [-> H]%andb_true_iff. by rewrite IH.
Qed.

End LineFacts.

(** ** The escaping and the lines *)

Section EscapeLines.

Lemma special_not_space (c : ascii) :
  mem_char c special = true → is_space c = false.
Proof.
  unfold special. cbn [mem_char]. intros H.
  repeat (apply orb_true_iff in H as [H|H];
          [by apply Ascii.eqb_eq in H as ->|]).
  done.
Qed.

Lemma special_not_nl (c : ascii) :
  mem_char c special = true → Ascii.eqb c nl = false.
Proof.
  unfold special. cbn [mem_char]. intros H.
  repeat (apply orb_true_iff in H as [H|H];
          [by apply Ascii.eqb_eq in H as ->|]).
  done.
Qed.

Lemma split_escape_chars (s : string) :
  split nl (escape_chars s) = map escape_chars (split nl s).
Proof.
  induction s as [|c s IH]; [done|].
  rewrite escape_chars_cons, (split_cons c s).
  pose proof (split_not_nil s) as Hne.
  destruct (mem_char c special) eqn:Hc.
  - rewrite (special_not_nl _ Hc), !split_cons, (special_not_nl _ Hc), IH.
    change (Ascii.eqb "\" nl) with false. cbn match.
    destruct (split nl s) as [|h t]; [done|].
    cbn [map]. by rewrite escape_chars_cons, Hc.
  - rewrite split_cons, IH. destruct (Ascii.eqb c nl); [done|].
    destruct (split nl s) as [|h t]; [done|].
    cbn [map]. by rewrite escape_chars_cons, Hc.
Qed.

Lemma lstrip_escape_chars (s : string) :
  lstrip (escape_chars s) = escape_chars (lstrip s).
Proof.
  induction s as [|c s IH]; [done|].
  rewrite escape_chars_cons. destruct (mem_char c special) eqn:Hc.
  - cbn [lstrip]. change (is_space "\") with false.
    by rewrite (special_not_space _ Hc), escape_chars_cons, Hc.
  - cbn [lstrip]. destruct (is_space c); [done|].
    by rewrite escape_chars_cons, Hc.
Qed.

Lemma rstrip_cons (c : ascii) (s : string) :
  rstrip (String c s)
  = match rstrip s with
    | EmptyString => if is_space c then ""%string else String c ""
    | r => String c r
    end.
Proof. done. Qed.

Lemma rstrip_cons_nonspace (c : ascii) (s : string) :
  is_space c = false → rstrip (String c s) = String c (rstrip s).
Proof. intros H. rewrite rstrip_cons, H. by destruct (rstrip s). Qed.

Lemma rstrip_escape_chars (s : string) :
  rstrip (escape_chars s) = escape_chars (rstrip s).
Proof.
  induction s as [|c s IH]; [done|].
  rewrite escape_chars_cons. destruct (mem_char c special) eqn:Hc.
  - pose proof (special_not_space _ Hc) as Hs.
    rewrite !rstrip_cons_nonspace, IH, escape_chars_cons, Hc; done.
  - rewrite !rstrip_cons, IH.
    destruct (rstrip s) as [|d r] eqn:Hr.
    + simpl. destruct (is_space c); [done|]. by rewrite escape_chars_cons, Hc.
    + rewrite (escape_chars_cons c), Hc.
      rewrite escape_chars_cons. by destruct (mem_char d special).
Qed.

Lemma strip_escape_chars (s : string) :
  strip (escape_chars s) = escape_chars (strip s).
Proof. unfold strip. by rewrite lstrip_escape_chars, rstrip_escape_chars. Qed.

Lemma is_empty_escape_chars (s : string) :
  is_empty (escape_chars s) = is_empty s.
Proof.
  destruct s as [|c s]; [done|]. rewrite escape_chars_cons.
  by destruct (mem_char c special).
Qed.

(** A text without special characters and backslashes is found in the
    escaped text where it is found in the text. *)
Lemma prefix_escape_chars (old s : string) :
  no_char special old = true → no_char "\" old = true →
  String.prefix old (escape_chars s) = String.prefix old s.
Proof.
  revert s. induction old as [|o old IH]; intros s H1 H2.
  { by rewrite !prefix_nil. }
  unfold no_char in H1, H2. cbn [all_chars] in H1, H2.
  apply andb_true_iff in H1 as [Ho1 H1]. apply andb_true_iff in H2 as [Ho2 H2].
  destruct s as [|c s]; [done|].
  rewrite escape_chars_cons. destruct (mem_char c special) eqn:Hc.
  - cbn [String.prefix].
    destruct (ascii_dec o "\") as [->|_]; [done|].
    destruct (ascii_dec o c) as [->|_]; [|done]. by rewrite Hc in Ho1.
  - cbn [String.prefix]. destruct (ascii_dec o c); [|done]. by apply IH.
Qed.

Lemma occurs_escape_chars (old s : string) :
  is_empty old = false →
  no_char special old = true → no_char "\" old = true →
  occurs old s = false → occurs old (escape_chars s) = false.
Proof.
  intros Hne H1 H2. induction s as [|c s IH]; [done|].
  rewrite occurs_String. intros [Hp Ho]%orb_false_iff.
  pose proof (prefix_escape_chars old (String c s) H1 H2) as He.
  rewrite escape_chars_cons in He |- *.
  destruct (mem_char c special) eqn:Hc.
  - rewrite !occurs_String, (IH Ho), He, Hp.
    destruct old as [|o old]; [done|].
    unfold no_char in H1. cbn [all_chars] in H1.
    apply andb_true_iff in H1 as [Ho1 _].
    cbn [String.prefix]. destruct (ascii_dec o c) as [->|_]; [|done].
    by rewrite Hc in Ho1.
  - by rewrite occurs_String, (IH Ho), He, Hp.
Qed.

Lemma is_list_item_escape_chars (s : string) :
  is_list_item (escape_chars s) = is_list_item s.
Proof.
  unfold is_list_item, startswith. by rewrite !prefix_escape_chars.
Qed.

Lemma has_list_item_escape_chars (text : string) :
  has_list_item (escape_chars text) = has_list_item text.
Proof.
  unfold has_list_item. rewrite split_escape_chars.
  induction (split nl text) as [|l lines IH]; [done|].
  cbn [map existsb].
  by rewrite strip_escape_chars, is_list_item_escape_chars, IH.
Qed.

Lemma is_blank_escape_chars (line : string) :
  is_blank (escape_chars line) = is_blank line.
Proof.
  unfold is_blank. by rewrite strip_escape_chars, is_empty_escape_chars.
Qed.

Lemma filter_blank_escape_chars (lines : list string) :
  List.filter (fun l => negb (is_blank l)) (map escape_chars lines)
  = map escape_chars (List.filter (fun l => negb (is_blank l)) lines).
Proof.
  induction lines as [|l lines IH]; [done|]. cbn [map List.filter].
  rewrite is_blank_escape_chars, IH. by destruct (is_blank l).
Qed.

End EscapeLines.

(** ** Escaped characters through the later passes *)

Section EscapedOutput.












(** The text after the expansion of the placeholders is left alone by
    the second pass over the headers. *)
Lemma rescan_after_escape (text : string) :
  rescan_headers (expand_placeholders (escape_special text))
  = expand_placeholders (escape_special text).
Proof.
  apply rescan_headers_escaped. unfold escaped, expand_placeholders.
  apply replace_all_escaped; [done|].
  rewrite escape_special_chars.
  apply (escaped_in_subset special); [|apply escape_chars_escaped].
  intros c. simpl. rewrite orb_false_r. intros ->. by rewrite !orb_true_r.
Qed.

(** The translator without its dead pass. *)
Lemma markdown_to_latex_passes (markdown_text : string) :
  markdown_to_latex markdown_text
  = if is_empty (strip markdown_text) then None
    else Some (convert_lists
                 (expand_placeholders
                    (escape_chars (tag_spans (strip markdown_text))))).
Proof.
  unfold markdown_to_latex. destruct (is_empty (strip markdown_text)); [done|].
  by rewrite rescan_after_escape, escape_special_chars.
Qed.


End EscapedOutput.

(** ** Texts without markup *)

Section PlainText.

Lemma forallb_both {A : Type} (ok f g : A → bool) (l : list A) :
  (∀ x, ok x = true → f x = true → g x = true) →
  forallb ok l = true → forallb f l = true → forallb g l = true.
Proof.
  intros Himp. induction l as [|x l IH]; [done|]. cbn [forallb].
  intros [Hx Hl]%andb_true_iff [Hfx Hfl]%andb_true_iff.
  by rewrite (Himp x Hx Hfx), (IH Hl Hfl).
Qed.

(** The placeholders have no special character and no backslash. *)
Lemma placeholders_shape :
  forallb (fun r => negb (is_empty (fst r)) && no_char special (fst r)
                    && no_char "\" (fst r)) placeholders = true.
Proof. done. Qed.

Lemma placeholders_absent_strip_escape (s : string) :
  forallb (fun r => negb (occurs (fst r) s)) placeholders = true →
  forallb (fun r => negb (occurs (fst r) (escape_chars (strip s))))
          placeholders = true.
Proof.
  apply (forallb_both
           (fun r => negb (is_empty (fst r)) && no_char special (fst r)
                     && no_char "\" (fst r)));
    [|apply placeholders_shape].
  intros [old new]. cbn [fst].
  intros [[Hne H1]%andb_true_iff H2]%andb_true_iff Ho.
  apply negb_true_iff in Hne, Ho. apply negb_true_iff.
  by apply occurs_escape_chars, occurs_strip.
Qed.

Lemma no_char_subset (cs cs' s : string) :
  (∀ c, mem_char c cs' = true → mem_char c cs = true) →
  no_char cs s = true → no_char cs' s = true.
Proof.
  intros Hsub. unfold no_char. induction s as [|c s IH]; [done|].
  cbn [all_chars]. intros [Hc Hs]%andb_true_iff. rewrite (IH Hs), andb_true_r.
  destruct (mem_char c cs') eqn:Hc'; [|done]. by rewrite (Hsub _ Hc') in Hc.
Qed.

Lemma line_starts_absent (c : ascii) (h : string) (b : bool) (s : string) :
  all_chars (fun a => negb (Ascii.eqb a c)) s = true →
  line_starts (String c h) b s = false.
Proof.
  revert b. induction s as [|a s IH]; intros b; [done|]. cbn [all_chars].
  intros [Ha Hs]%andb_true_iff. cbn [line_starts String.prefix].
  rewrite (IH _ Hs), orb_false_r.
  destruct (ascii_dec c a) as [->|_]; [|by rewrite andb_false_r].
  by rewrite Ascii.eqb_refl in Ha.
Qed.

(** The translation of a text in which no span, no header of level four
    or five, no placeholder and no item of a list is found: the stripped
    text is escaped and its blank lines are dropped. *)
Lemma translate_plain (s : string) :
  no_char "*`[" s = true →
  line_starts "####" true (strip s) = false →
  forallb (fun r => negb (occurs (fst r) s)) placeholders = true →
  has_list_item (strip s) = false →
  markdown_to_latex s
  = if is_empty (strip s) then None
    else Some (join NL (List.filter (fun l => negb (is_blank l))
                                    (split nl (escape_chars (strip s))))).
Proof.
  intros Hc Hh Hp Hl. rewrite markdown_to_latex_passes.
  destruct (is_empty (strip s)); [done|]. f_equal.
  rewrite tag_spans_plain; [|by apply all_chars_strip|done].
  unfold expand_placeholders.
  rewrite replace_all_no_occurrence by by apply placeholders_absent_strip_escape.
  apply convert_lists_plain. by rewrite has_list_item_escape_chars.
Qed.


End PlainText.

(** C3, as amended.  A text without special characters, stars,
    backquotes and opening brackets, in which no placeholder occurs and
    no line is an item of a list, is translated to its stripped form
    without the blank lines ([None] when nothing is left); the blanks
    inside the other lines are kept.  When the text has no blank at
    either end and no blank line, the translation is the text itself. *)
Theorem plain_text_is_stripped (s : string) :
  no_char "&%$#_{}*`[" s = true →
  forallb (fun r => negb (occurs (fst r) s)) placeholders = true →
  has_list_item (strip s) = false →
  markdown_to_latex s
  = (if is_empty (strip s) then None
     else Some (join NL (List.filter (fun l => negb (is_blank l))
                                     (split nl (strip s)))))
  ∧ (strip s = s → is_empty s = false →
     forallb (fun l => negb (is_blank l)) (split nl s) = true →
     markdown_to_latex s = Some s).
Proof.
  intros Hc Hp Hl.
  assert (Hspans : no_char "*`[" s = true).
  { revert Hc. apply no_char_subset. intros c. cbn [mem_char].
    intros H. repeat (apply orb_true_iff in H as [->|H]; [by rewrite ?orb_true_r|]).
    done. }
  assert (Hspecial : no_char special (strip s) = true).
  { apply all_chars_strip. revert Hc. apply no_char_subset. intros c.
    unfold special. cbn [mem_char].
    intros H. repeat (apply orb_true_iff in H as [->|H]; [by rewrite ?orb_true_r|]).
    done. }
  assert (Hhash : line_starts "####" true (strip s) = false).
  { apply line_starts_absent, all_chars_strip.
    by apply (no_char_without "&%$#_{}*`["). }
  assert (Hmain : markdown_to_latex s
                  = (if is_empty (strip s) then None
                     else Some (join NL (List.filter (fun l => negb (is_blank l))
                                                     (split nl (strip s)))))).
  { rewrite translate_plain by done. by rewrite escape_chars_plain. }
  split; [exact Hmain|].
  intros Hs Hne Hb. rewrite Hmain, Hs, Hne, filter_all by done.
  by rewrite join_split.
Qed.

Lemma plain_text_is_stripped_witness :
  markdown_to_latex ("  Two paragraphs," +:+ NL +:+ NL +:+ "   one result. ")
  = Some ("Two paragraphs," +:+ NL +:+ "   one result.")%string
  ∧ markdown_to_latex ("One line, kept as it is")
    = Some "One line, kept as it is"%string.
Proof.
  split.
  - exact (proj1 (plain_text_is_stripped
                    ("  Two paragraphs," +:+ NL +:+ NL +:+ "   one result. ")
                    eq_refl eq_refl eq_refl)).
  - exact (proj2 (plain_text_is_stripped "One line, kept as it is"
                    eq_refl eq_refl eq_refl) eq_refl eq_refl eq_refl).
Defined.

(** C3, as stated, fails: the blank line between two paragraphs and the
    blanks around the text are not kept, and a literal placeholder is
    expanded. *)
Lemma plain_text_counterexample :
  let paragraphs := ("a" +:+ NL +:+ NL +:+ "b")%string in
  no_char "&%$#_{}*`[]()-<>" paragraphs = true
  ∧ markdown_to_latex paragraphs = Some ("a" +:+ NL +:+ "b")%string
  ∧ String.eqb (default ""%string (markdown_to_latex paragraphs)) paragraphs = false
  ∧ markdown_to_latex " a " = Some "a"%string
  ∧ markdown_to_latex "   " = None.
Proof. split_and!; vm_compute; reflexivity. Qed.


(** Special characters in a plain text, in a span and next to commands. *)
Example escaping_of_mixed_text :
  markdown_to_latex "50% of {A_1 & B_2} cost $3 #1"
  = Some "50\% of \{A\_1 \& B\_2\} cost \$3 \#1"%string
  ∧ markdown_to_latex "**a_b** and `x_y` in #### not_a_header"
    = Some "\textbf{a\_b} and \texttt{x\_y} in \#\#\#\# not\_a\_header"%string
  ∧ escape_special "<<<BOLD>>>a&b<<<ENDBOLD>>>"
    = "<<<BOLD>>>a\&b<<<ENDBOLD>>>"%string.
Proof. split_and!; vm_compute; reflexivity. Qed.

(** ** The frames of a markdown cell *)

Section Walk.






Lemma prefix_String (x y : ascii) (p s : string) :
  String.prefix (String x p) (String y s)
  = if Ascii.eqb x y then String.prefix p s else false.
Proof.
  cbn [String.prefix]. destruct (ascii_dec x y) as [->|Hne].
  - by rewrite Ascii.eqb_refl.
  - destruct (Ascii.eqb x y) eqn:He; [|done].
    by apply Ascii.eqb_eq in He.
Qed.







End Walk.

(** ** The merge of the three collections *)

Section Merge.





(** With distinct indices, the dictionary of the code cells finds the
    cell of an index. *)
Lemma code_by_cell_fold (code_cells : list code_cell)
  (by_cell : gmap nat code_cell) (i : nat) :
  NoDup (map code_cell_index code_cells) →
  fold_left (fun by_cell code => <[code_cell_index code := code]> by_cell)
            code_cells by_cell !! i
  = match find (fun c => Nat.eqb (code_cell_index c) i) code_cells with
    | Some c => Some c
    | None => by_cell !! i
    end.
Proof.
  revert by_cell. induction code_cells as [|c cs IH]; intros by_cell Hnd; [done|].
  cbn [map] in Hnd. apply NoDup_cons in Hnd as [Hc Hnd].
  cbn [fold_left find]. rewrite (IH _ Hnd).
  destruct (Nat.eqb (code_cell_index c) i) eqn:He.
  - apply Nat.eqb_eq in He. subst i.
    destruct (find _ cs) as [c'|] eqn:Hf; [|by rewrite lookup_insert_eq].
    apply find_some in Hf as [Hin He]. apply Nat.eqb_eq in He.
    exfalso. apply Hc. rewrite <- He.
    apply list_elem_of_fmap. exists c'. split; [done|]. by apply list_elem_of_In.
  - apply Nat.eqb_neq in He. by rewrite lookup_insert_ne.
Qed.

Lemma code_part_find (code_cells : list code_cell) (i : nat) :
  NoDup (map code_cell_index code_cells) →
  code_part code_cells i
  = match find (fun c => Nat.eqb (code_cell_index c) i) code_cells with
    | Some c => [code_event c]
    | None => []
    end.
Proof.
  intros Hnd. unfold code_part, code_by_cell. rewrite (code_by_cell_fold _ _ _ Hnd).
  destruct (find _ code_cells) as [c|] eqn:Hf; [|by rewrite lookup_empty].
  apply find_some in Hf as [_ He]. apply Nat.eqb_eq in He.
  unfold code_event. by rewrite He.
Qed.

(** The dictionary of the images holds, for an index, the images of the
    cell in their order. *)
Lemma images_by_cell_fold (images : list image)
  (by_cell : gmap nat (list image)) (i : nat) :
  default [] (fold_left
                (fun by_cell img =>
                   <[img_cell_index img
                     := default [] (by_cell !! img_cell_index img) ++ [img]]>
                     by_cell)
                images by_cell !! i)
  = default [] (by_cell !! i)
    ++ List.filter (fun img => Nat.eqb (img_cell_index img) i) images.
Proof.
  revert by_cell. induction images as [|img images IH]; intros by_cell.
  { cbn [fold_left List.filter]. by rewrite app_nil_r. }
  cbn [fold_left List.filter]. rewrite IH.
  destruct (Nat.eqb (img_cell_index img) i) eqn:He.
  - apply Nat.eqb_eq in He. subst i. rewrite lookup_insert_eq.
    cbn [default from_option id]. unfold id. by rewrite <- app_assoc.
  - apply Nat.eqb_neq in He. by rewrite lookup_insert_ne.
Qed.

Lemma image_part_filter (images : list image) (i : nat) :
  image_part images i
  = map (ImageFrame i)
        (List.filter (fun img => Nat.eqb (img_cell_index img) i) images).
Proof.
  pose proof (images_by_cell_fold images ∅ i) as H.
  rewrite lookup_empty in H. cbn [default app] in H.
  unfold image_part. fold (images_by_cell images) in H.
  destruct (images_by_cell images !! i) as [imgs|]; cbn [default] in H;
    by rewrite <- H.
Qed.



End Merge.

(** ** The rendering of the events *)

Section Rendering.
Variable str_title : string → string.




End Rendering.

(** Headers of level three that are followed at once by a header, by a
    separator or by the end of the cell open a frame without lines, which
    is not emitted; a separator right after a header does not close the
    frame, which takes the lines after it. *)
Example headers_without_body :
  markdown_events
    (MarkdownCell 0 ("### A" +:+ NL +:+ "### B" +:+ NL +:+ "body" +:+ NL
                     +:+ "### C" +:+ NL +:+ "---" +:+ NL +:+ "### D"))
  = [MdFrame (Some "B"%string) ["body"%string]]
  ∧ markdown_events
      (MarkdownCell 0 ("### T" +:+ NL +:+ "---" +:+ NL +:+ "text"))
    = [MdFrame (Some "T"%string) ["text"%string]]
  ∧ markdown_events
      (MarkdownCell 0 ("one" +:+ NL +:+ "---" +:+ NL +:+ "two" +:+ NL
                       +:+ "## S" +:+ NL +:+ "three"))
    = [MdFrame (Some ""%string) ["one"%string];
       MdFrame (Some ""%string) ["two"%string];
       Section "S";
       MdFrame (Some ""%string) ["three"%string]].
Proof. split_and!; vm_compute; reflexivity. Qed.

(** ** Matches are never empty *)

Section MatchLength.

Lemma greedy_plus_le (f : ascii → bool)
  (k : option ascii → string → nat → option result) :
  (∀ prev s pos r, k prev s pos = Some r → pos ≤ r.1) →
  ∀ s prev pos r, greedy_plus f k prev s pos = Some r → S pos ≤ r.1.
Proof.
  intros Hk. induction s as [|a s IH]; intros prev pos r; [done|].
  cbn [greedy_plus]. destruct (f a); [|done].
  destruct (greedy_plus f k (Some a) s (S pos)) as [r'|] eqn:Hg.
  - intros [= <-]. apply IH in Hg. lia.
  - intros Hr. by apply Hk in Hr.
Qed.

Lemma lazy_star_le (f : ascii → bool)
  (k : option ascii → string → nat → option result) :
  (∀ prev s pos r, k prev s pos = Some r → pos ≤ r.1) →
  ∀ s prev pos r, lazy_star f k prev s pos = Some r → pos ≤ r.1.
Proof.
  intros Hk. induction s as [|a s IH]; intros prev pos r; cbn [lazy_star].
  - destruct (k prev ""%string pos) as [r'|] eqn:Hr; [|done].
    intros [= <-]. by apply Hk in Hr.
  - destruct (k prev (String a s) pos) as [r'|] eqn:Hr.
    + intros [= <-]. by apply Hk in Hr.
    + destruct (f a); [|done]. intros Hl. apply IH in Hl. lia.
Qed.

(** A match ends at or after the offset where it is tried. *)
Lemma m_le (p : pattern) :
  ∀ prev s pos mk r, m p prev s pos mk = Some r → pos ≤ r.1.
Proof.
  induction p as [|i p IH]; intros prev s pos mk r; cbn [m].
  { by intros [= <-]. }
  destruct i.
  - destruct s as [|a s]; [done|]. destruct (Ascii.eqb a c); [|done].
    intros H%IH. lia.
  - destruct s as [|a s]; [done|]. destruct (f a); [|done].
    intros H%IH. lia.
  - destruct s as [|a s]; [by intros H%IH|].
    destruct (Ascii.eqb a c); [|by intros H%IH].
    destruct (m p (Some a) s (S pos) mk) as [r'|] eqn:Hm.
    + intros [= <-]. apply IH in Hm. lia.
    + by intros H%IH.
  - intros H. apply greedy_plus_le in H; [lia|].
    intros ????. apply IH.
  - apply lazy_star_le. intros ????. apply IH.
  - destruct prev as [a|]; [destruct (Ascii.eqb a nl); [|done]|]; apply IH.
  - destruct s as [|a s]; [|destruct (Ascii.eqb a nl); [|done]]; apply IH.
  - apply IH.
  - apply IH.
Qed.

(** A pattern that starts with a literal has no empty match. *)
Lemma m_not_empty (p : pattern) (c : ascii) :
  first_lit p = Some c →
  ∀ prev s pos mk r, m p prev s pos mk = Some r → S pos ≤ r.1.
Proof.
  induction p as [|i p IH]; [done|]. intros Hf prev s pos mk r.
  destruct i; cbn [first_lit] in Hf; try done; cbn [m].
  - destruct s as [|a s]; [done|]. destruct (Ascii.eqb a c0); [|done].
    apply m_le.
  - destruct prev as [a|]; [destruct (Ascii.eqb a nl); [|done]|]; by apply IH.
  - by apply IH.
  - by apply IH.
Qed.

(** All the patterns that the translator substitutes start with a
    literal. *)
Lemma substituted_patterns_start_with_literal :
  Forall (fun p => is_Some (first_lit p))
    [pat_header "#####"; pat_header "####"; pat_header "###";
     pat_header "##"; pat_header "#";
     pat_bold; pat_italic; pat_code; pat_link].
Proof. repeat constructor; by eexists. Qed.

End MatchLength.

(** ** The extraction of the cells of a notebook *)

Section Enumerated.
Context {A B : Type} (keep : A → bool) (make : nat → A → B) (key : B → nat).
Hypothesis key_make : ∀ i x, key (make i x) = i.

Lemma kept_fold (k : nat) (l : list A) (acc : list B) :
  fold_left
    (fun acc '(i, x) => if keep x then acc ++ [make i x] else acc)
    (combine (seq k (List.length l)) l) acc
  = acc ++ kept_from keep make k l.
Proof.
  unfold kept_from. revert k acc. induction l as [|x l IH]; intros k acc.
  { by rewrite app_nil_r. }
  cbn [List.length seq combine fold_left].
  rewrite (IH (S k) (if keep x then acc ++ [make k x] else acc)).
  rewrite (IH (S k) (if keep x then [] ++ [make k x] else [])).
  destruct (keep x); [by rewrite <- app_assoc | done].
Qed.

Lemma kept_from_cons (k : nat) (x : A) (l : list A) :
  kept_from keep make k (x :: l)
  = (if keep x then [make k x] else []) ++ kept_from keep make (S k) l.
Proof.
  unfold kept_from at 1. cbn [List.length seq combine fold_left].
  rewrite kept_fold. by destruct (keep x).
Qed.

Lemma elem_of_kept_from (k : nat) (l : list A) (y : B) :
  y ∈ kept_from keep make k l
  ↔ ∃ j x, l !! j = Some x ∧ keep x = true ∧ y = make (k + j) x.
Proof.
  revert k. induction l as [|x l IH]; intros k.
  { split; [by intros ?%elem_of_nil | by intros (j & z & ? & _)]. }
  rewrite kept_from_cons, elem_of_app, IH. split.
  - intros [Hy|(j & z & Hj & Hz & ->)].
    + destruct (keep x) eqn:Hx; [|by apply elem_of_nil in Hy].
      apply list_elem_of_singleton in Hy as ->.
      exists 0, x. by rewrite Nat.add_0_r.
    + exists (S j), z. split_and!; [done..|]. f_equal. lia.
  - intros ([|j] & z & Hj & Hz & ->).
    + injection Hj as ->. left. rewrite Hz, Nat.add_0_r.
      apply list_elem_of_here.
    + right. exists j, z. split_and!; [done..|]. f_equal. lia.
Qed.

Lemma kept_from_sorted (k : nat) (l : list A) :
  StronglySorted lt (map key (kept_from keep make k l))
  ∧ Forall (fun i => k ≤ i) (map key (kept_from keep make k l)).
Proof.
  revert k. induction l as [|x l IH]; intros k.
  { split; constructor. }
  rewrite kept_from_cons, map_app. destruct (IH (S k)) as [Hs Hge].
  assert (Hge' : Forall (fun i => k < i) (map key (kept_from keep make (S k) l))).
  { eapply Forall_impl; [exact Hge|]. intros i Hi. simpl in Hi. lia. }
  destruct (keep x); cbn [map app].
  - rewrite key_make. split.
    + by constructor.
    + constructor; [lia|]. eapply Forall_impl; [exact Hge'|]. intros; simpl in *; lia.
  - split; [done|]. eapply Forall_impl; [exact Hge'|]. intros; simpl in *; lia.
Qed.

End Enumerated.

Lemma StronglySorted_lt_NoDup (l : list nat) :
  StronglySorted lt l → NoDup l.
Proof.
  induction 1 as [|x l Hs IH Hx]; constructor; [|done].
  intros Hin. rewrite Forall_forall in Hx. specialize (Hx _ Hin). lia.
Qed.

Lemma extract_markdown_cells_kept (cells : notebook) :
  extract_markdown_cells (Some cells)
  = kept_from (has_type "markdown")
              (fun i cell => MarkdownCell i (source_text cell)) 0 cells.
Proof. reflexivity. Qed.

Lemma code_fold_kept (cells : notebook) (k : nat) (acc : list code_cell) :
  fold_left
    (fun code_cells '(cell_idx, cell) =>
       if has_type "code" cell
       then
         let content := source_text cell in
         if negb (is_empty (strip content))
         then code_cells ++ [CodeCell cell_idx content]
         else code_cells
       else code_cells)
    (combine (seq k (List.length cells)) cells) acc
  = fold_left
      (fun acc '(i, x) =>
         if has_type "code" x && negb (is_empty (strip (source_text x)))
         then acc ++ [CodeCell i (source_text x)] else acc)
      (combine (seq k (List.length cells)) cells) acc.
Proof.
  revert k acc. induction cells as [|c cells IH]; intros k acc; [done|].
  cbn [List.length seq combine fold_left]. rewrite IH. f_equal.
  by destruct (has_type "code" c), (is_empty (strip (source_text c))).
Qed.

Lemma extract_code_cells_kept (cells : notebook) :
  extract_code_cells (Some cells)
  = kept_from (fun cell => has_type "code" cell
                           && negb (is_empty (strip (source_text cell))))
              (fun i cell => CodeCell i (source_text cell)) 0 cells.
Proof. apply code_fold_kept. Qed.

Lemma has_type_true (t : string) (cell : nb_cell) :
  has_type t cell = true ↔ nb_cell_type cell = Some t.
Proof. unfold has_type. by rewrite bool_decide_eq_true. Qed.

Lemma markdown_indices_sorted (nb : option notebook) :
  StronglySorted lt (map md_cell_index (extract_markdown_cells nb)).
Proof.
  destruct nb as [cells|]; [|constructor].
  rewrite extract_markdown_cells_kept. by apply kept_from_sorted.
Qed.

Lemma code_indices_sorted (nb : option notebook) :
  StronglySorted lt (map code_cell_index (extract_code_cells nb)).
Proof.
  destruct nb as [cells|]; [|constructor].
  rewrite extract_code_cells_kept. by apply kept_from_sorted.
Qed.

Lemma elem_of_extract_markdown_cells (cells : notebook) (c : markdown_cell) :
  c ∈ extract_markdown_cells (Some cells)
  ↔ ∃ cell, cells !! md_cell_index c = Some cell
            ∧ nb_cell_type cell = Some "markdown"%string
            ∧ md_content c = source_text cell.
Proof.
  rewrite extract_markdown_cells_kept, elem_of_kept_from. split.
  - intros (j & cell & Hj & Hk & ->). exists cell.
    by rewrite <- has_type_true.
  - intros (cell & Hj & Hk & Hc). exists (md_cell_index c), cell.
    split_and!; [done|by apply has_type_true|].
    destruct c as [i s]. simpl in *. by rewrite Hc.
Qed.

Lemma elem_of_extract_code_cells (cells : notebook) (c : code_cell) :
  c ∈ extract_code_cells (Some cells)
  ↔ ∃ cell, cells !! code_cell_index c = Some cell
            ∧ nb_cell_type cell = Some "code"%string
            ∧ code_content c = source_text cell
            ∧ is_empty (strip (code_content c)) = false.
Proof.
  rewrite extract_code_cells_kept, elem_of_kept_from. split.
  - intros (j & cell & Hj & Hk & ->). exists cell.
    apply andb_true_iff in Hk as [Hk Hb]. apply has_type_true in Hk.
    apply negb_true_iff in Hb. done.
  - intros (cell & Hj & Hk & Hc & Hb). exists (code_cell_index c), cell.
    split_and!; [done| |].
    + apply andb_true_iff. split; [by apply has_type_true|].
      apply negb_true_iff. by rewrite <- Hc.
    + destruct c as [i s]. simpl in *. by rewrite Hc.
Qed.

(** X1. [extract_markdown_cells] returns the markdown cells of the
    notebook and nothing else: a dictionary is returned exactly when the
    notebook has a cell of type markdown at its index whose joined source
    is its content, and the indices are strictly increasing. *)
Theorem markdown_cells_extracted (cells : notebook) :
  StronglySorted lt (map md_cell_index (extract_markdown_cells (Some cells)))
  ∧ ∀ c, c ∈ extract_markdown_cells (Some cells)
         ↔ ∃ cell, cells !! md_cell_index c = Some cell
                   ∧ nb_cell_type cell = Some "markdown"%string
                   ∧ md_content c = source_text cell.
Proof.
  split; [apply markdown_indices_sorted|apply elem_of_extract_markdown_cells].
Qed.

(** X2. [extract_code_cells] returns the code cells of the notebook whose
    source has something else than blanks, and nothing else, with
    strictly increasing indices. *)
Theorem code_cells_extracted (cells : notebook) :
  StronglySorted lt (map code_cell_index (extract_code_cells (Some cells)))
  ∧ ∀ c, c ∈ extract_code_cells (Some cells)
         ↔ ∃ cell, cells !! code_cell_index c = Some cell
                   ∧ nb_cell_type cell = Some "code"%string
                   ∧ code_content c = source_text cell
                   ∧ is_empty (strip (code_content c)) = false.
Proof.
  split; [apply code_indices_sorted|apply elem_of_extract_code_cells].
Qed.

(** *** The images *)

Section Images.
Variable path_join : string → string → string.
Variable b64decode : string → option string.
Variable output_dir : string.


Lemma fold_raising_inr {A S : Type} (f : S → A → S + S) (l : list A) (e : S) :
  fold_left (fun r x => match r with inl st => f st x | inr st => inr st end)
            l (inr e) = inr e.
Proof. by induction l. Qed.

Lemma fold_raising_cons {A S : Type} (f : S → A → S + S) (x : A) (l : list A)
  (st : S) :
  fold_raising f (x :: l) st
  = match f st x with
    | inl st' => fold_raising f l st'
    | inr e => inr e
    end.
Proof.
  unfold fold_raising. cbn [fold_left].
  destruct (f st x); [done|apply fold_raising_inr].
Qed.

Lemma fold_raising_app {A S : Type} (f : S → A → S + S) (l1 l2 : list A)
  (st : S) :
  fold_raising f (l1 ++ l2) st
  = match fold_raising f l1 st with
    | inl st' => fold_raising f l2 st'
    | inr e => inr e
    end.
Proof.
  revert st. induction l1 as [|x l1 IH]; intros st; [done|].
  cbn [app]. rewrite !fold_raising_cons. by destruct (f st x).
Qed.

Lemma output_step_png (cell_idx : nat) (cell_source : string)
  (st : extraction) (output : nb_output) :
  output_step path_join b64decode output_dir cell_idx cell_source st output
  = match png_payload output with
    | Some data => (png_step path_join b64decode output_dir) st (Png cell_idx cell_source data)
    | None => inl st
    end.
Proof.
  unfold output_step, png_payload, png_step.
  destruct (bool_decide _); [|done].
  destruct (out_data output !! "image/png"%string); [|done].
  cbn [png_data]. by destruct (b64decode _).
Qed.

Lemma outputs_fold_png (cell_idx : nat) (cell_source : string)
  (outputs : list nb_output) (st : extraction) :
  fold_raising
    (output_step path_join b64decode output_dir cell_idx cell_source)
    outputs st
  = fold_raising (png_step path_join b64decode output_dir)
      (omap (fun output => Png cell_idx cell_source <$> png_payload output)
            outputs) st.
Proof.
  revert st. induction outputs as [|o outputs IH]; intros st; [done|].
  rewrite fold_raising_cons, output_step_png.
  destruct (png_payload o) as [data|] eqn:Ho;
    cbn [omap list_omap]; rewrite Ho; cbn [fmap option_fmap option_map].
  - rewrite fold_raising_cons.
    by destruct (png_step path_join b64decode output_dir st _).
  - apply IH.
Qed.

Lemma cell_step_png (st : extraction) (c : nat * nb_cell) :
  cell_step path_join b64decode output_dir st c
  = fold_raising (png_step path_join b64decode output_dir) (cell_pngs c) st.
Proof.
  destruct c as [i cell]. unfold cell_step, cell_pngs. cbn [fst snd].
  destruct (has_type "code" cell); [|done]. apply outputs_fold_png.
Qed.

Lemma cells_fold_png (cs : list (nat * nb_cell)) (st : extraction) :
  fold_raising (cell_step path_join b64decode output_dir) cs st
  = fold_raising (png_step path_join b64decode output_dir) (List.flat_map cell_pngs cs) st.
Proof.
  revert st. induction cs as [|c cs IH]; intros st; [done|].
  cbn [List.flat_map]. rewrite fold_raising_cons, fold_raising_app, cell_step_png.
  by destruct (fold_raising _ (cell_pngs c) st).
Qed.

Lemma extract_images_png (nb : option notebook) :
  extract_images_from_notebook path_join b64decode nb output_dir
  = fold_raising (png_step path_join b64decode output_dir) (png_outputs nb) (Extraction [] 0 []).
Proof. destruct nb as [cells|]; [apply cells_fold_png|done]. Qed.

(** The loop over the PNG outputs when it ends. *)
Lemma png_fold_inl (ps : list png) (st e : extraction) :
  fold_raising (png_step path_join b64decode output_dir) ps st = inl e →
  extracted_images e
  = extracted_images st
    ++ zip_with (image_of path_join output_dir) (seq (image_counter st + 1) (List.length ps)) ps
  ∧ image_counter e = image_counter st + List.length ps
  ∧ ∃ files, written e = written st ++ files
             ∧ map fst files
               = map (fun n => path_join output_dir (figure_filename n))
                     (seq (image_counter st + 1) (List.length ps))
             ∧ map (fun f => Some f.2) files
               = map (fun p => b64decode (png_data p)) ps.
Proof.
  revert st. induction ps as [|p ps IH]; intros st.
  { intros [= <-]. rewrite app_nil_r. split_and!; [done|simpl; lia|].
    exists []. by rewrite app_nil_r. }
  rewrite fold_raising_cons. unfold png_step at 1.
  destruct (b64decode (png_data p)) as [bytes|] eqn:Hp; [|done].
  intros (Hi & Hc & files & Hw & Hf & Hb)%IH.
  cbn [extracted_images image_counter written] in Hi, Hc, Hw, Hf.
  replace (image_counter st + 1 + 1) with (S (image_counter st + 1)) in Hi, Hf
    by lia.
  cbn [List.length seq zip_with map].
  split_and!.
  - by rewrite Hi, <- app_assoc.
  - lia.
  - exists ((path_join output_dir (figure_filename (image_counter st + 1)), bytes)
            :: files).
    split_and!.
    + by rewrite Hw, <- app_assoc.
    + cbn [map fst]. by rewrite Hf.
    + cbn [map snd]. by rewrite Hb, Hp.
Qed.

(** The loop over the PNG outputs when the decoding raises. *)
Lemma png_fold_inr (ps : list png) (st e : extraction) :
  fold_raising (png_step path_join b64decode output_dir) ps st = inr e →
  ∃ k p, ps !! k = Some p
         ∧ b64decode (png_data p) = None
         ∧ Forall (fun q => is_Some (b64decode (png_data q))) (take k ps)
         ∧ image_counter e = image_counter st + k + 1
         ∧ List.length (extracted_images e)
           = List.length (extracted_images st) + k
         ∧ List.length (written e) = List.length (written st) + k.
Proof.
  revert st. induction ps as [|p ps IH]; intros st; [done|].
  rewrite fold_raising_cons. unfold png_step at 1.
  destruct (b64decode (png_data p)) as [bytes|] eqn:Hp.
  - intros (k & q & Hk & Hq & Hbefore & Hc & Hi & Hw)%IH.
    cbn [extracted_images image_counter written] in Hc, Hi, Hw.
    rewrite length_app in Hi, Hw. cbn [List.length] in Hi, Hw.
    exists (S k), q. split_and!; [done..| |lia|lia|lia].
    cbn [take]. constructor; [by rewrite Hp|done].
  - intros [= <-]. exists 0, p. cbn.
    split_and!; [done..|constructor|lia|lia|lia].
Qed.

Lemma png_fold_total (ps : list png) (st : extraction) :
  Forall (fun q => is_Some (b64decode (png_data q))) ps →
  ∃ e, fold_raising (png_step path_join b64decode output_dir) ps st = inl e.
Proof.
  intros Hps. revert st. induction Hps as [|p ps [bytes Hp] _ IH]; intros st.
  { by exists st. }
  rewrite fold_raising_cons. unfold png_step at 1. rewrite Hp. apply IH.
Qed.

Lemma elem_of_cell_pngs_from (cells : notebook) (k : nat) (p : png) :
  p ∈ List.flat_map cell_pngs (combine (seq k (List.length cells)) cells) →
  ∃ j cell, png_cell_index p = k + j ∧ cells !! j = Some cell
            ∧ nb_cell_type cell = Some "code"%string
            ∧ png_cell_source p = source_text cell.
Proof.
  revert k. induction cells as [|c cells IH]; intros k.
  { by intros ?%elem_of_nil. }
  cbn [List.length seq combine List.flat_map]. rewrite elem_of_app.
  intros [Hp|Hp].
  - unfold cell_pngs in Hp. cbn [fst snd] in Hp.
    destruct (has_type "code" c) eqn:Hc; [|by apply elem_of_nil in Hp].
    apply has_type_true in Hc.
    apply list_elem_of_omap in Hp as (o & _ & Ho).
    destruct (png_payload o); [|done]. injection Ho as <-.
    exists 0, c. cbn. split_and!; [lia|done..].
  - destruct (IH _ Hp) as (j & cell & Hj & Hcell & Ht & Hs).
    exists (S j), cell. split_and!; [lia|done..].
Qed.

Lemma cell_pngs_sorted (cells : notebook) (k : nat) :
  StronglySorted Nat.le
    (map png_cell_index
         (List.flat_map cell_pngs (combine (seq k (List.length cells)) cells))).
Proof.
  revert k. induction cells as [|c cells IH]; intros k; [constructor|].
  cbn [List.length seq combine List.flat_map]. rewrite map_app.
  assert (Hc : ∀ p, p ∈ cell_pngs (k, c) → png_cell_index p = k).
  { intros p. unfold cell_pngs. cbn [fst snd].
    destruct (has_type "code" c); [|by intros ?%elem_of_nil].
    intros (o & _ & Ho)%list_elem_of_omap.
    destruct (png_payload o); [|done]. by injection Ho as <-. }
  assert (Hrest : Forall (fun i => k ≤ i)
            (map png_cell_index
               (List.flat_map cell_pngs
                  (combine (seq (S k) (List.length cells)) cells)))).
  { apply Forall_forall. intros i (p & -> & Hp)%list_elem_of_fmap.
    apply elem_of_cell_pngs_from in Hp as (j & _ & -> & _). lia. }
  induction (cell_pngs (k, c)) as [|p ps IHps]; [apply IH|].
  cbn [map app]. constructor.
  - apply IHps. intros q Hq. apply Hc. by apply list_elem_of_further.
  - rewrite (Hc p) by apply list_elem_of_here.
    apply Forall_app. split; [|done].
    apply Forall_forall. intros i (q & -> & Hq)%list_elem_of_fmap.
    rewrite (Hc q); [done|by apply list_elem_of_further].
Qed.

Lemma elem_of_png_outputs (cells : notebook) (p : png) :
  p ∈ png_outputs (Some cells) →
  ∃ cell, cells !! png_cell_index p = Some cell
          ∧ nb_cell_type cell = Some "code"%string
          ∧ png_cell_source p = source_text cell.
Proof.
  intros (j & cell & Hj & Hcell & Ht & Hs)%elem_of_cell_pngs_from.
  exists cell. by rewrite Hj.
Qed.

(** *** The numbers of the file names *)

Lemma parse_nat_zero (s : string) :
  parse_nat (String "0" s) = parse_nat s.
Proof.
  unfold parse_nat. cbn [NilEmpty.uint_of_string].
  by destruct (NilEmpty.uint_of_string s).
Qed.

Lemma parse_nat_zeros (k : nat) (s : string) :
  parse_nat (zeros k +:+ s) = parse_nat s.
Proof.
  induction k as [|k IH]; [done|].
  cbn [zeros String.append]. by rewrite parse_nat_zero.
Qed.

Lemma parse_fmt_d (n : nat) : parse_nat (fmt_d n) = Some n.
Proof.
  unfold parse_nat, fmt_d.
  pose proof (Unsigned.of_to n) as Hn.
  destruct (Nat.to_uint n) eqn:E;
    [by rewrite <- Hn
    |change (NilZero.string_of_uint ?d) with (NilEmpty.string_of_uint d);
     rewrite NilEmpty.usu; cbn [option_map]; by rewrite Hn..].
Qed.

Lemma parse_fmt_03d (n : nat) : parse_nat (fmt_03d n) = Some n.
Proof. unfold fmt_03d. by rewrite parse_nat_zeros, parse_fmt_d. Qed.

Lemma fmt_03d_inj (a b : nat) : fmt_03d a = fmt_03d b → a = b.
Proof.
  intros H. apply (f_equal parse_nat) in H.
  rewrite !parse_fmt_03d in H. by injection H.
Qed.

Lemma length_append (a b : string) :
  String.length (a +:+ b) = String.length a + String.length b.
Proof. induction a as [|x a IH]; simpl; [done | by rewrite IH]. Qed.

Lemma length_zeros (k : nat) : String.length (zeros k) = k.
Proof. induction k as [|k IH]; simpl; [done | by rewrite IH]. Qed.

Lemma append_inj_l (a b c : string) : a +:+ b = a +:+ c → b = c.
Proof. induction a as [|x a IH]; simpl; [done|]. intros [= H]. by apply IH. Qed.

Lemma append_inj_r (a b c : string) : a +:+ c = b +:+ c → a = b.
Proof.
  revert b. induction a as [|x a IH]; intros [|y b] H; simpl in H.
  - done.
  - apply (f_equal String.length) in H. simpl in H.
    rewrite length_append in H. lia.
  - apply (f_equal String.length) in H. simpl in H.
    rewrite length_append in H. lia.
  - injection H as -> H. f_equal. by apply IH.
Qed.

Lemma figure_filename_inj (a b : nat) :
  figure_filename a = figure_filename b → a = b.
Proof.
  unfold figure_filename. intros H%append_inj_l%append_inj_r.
  by apply fmt_03d_inj.
Qed.

Lemma code_filename_inj (a b : nat) :
  code_filename a = code_filename b → a = b.
Proof.
  unfold code_filename. intros H%append_inj_l%append_inj_r.
  by apply fmt_03d_inj.
Qed.

(** X3. The three-digit number of a file name ([:03d]) has at least
    three digits and reads back as the index it was built from, so that
    the names [cell_NNN.py] and [figure_NNN.png] of two different
    indices differ. *)
Theorem file_number_round_trip (n : nat) :
  parse_nat (fmt_03d n) = Some n
  ∧ 3 ≤ String.length (fmt_03d n)
  ∧ (∀ m, code_filename n = code_filename m → n = m)
  ∧ (∀ m, figure_filename n = figure_filename m → n = m).
Proof.
  split_and!.
  - apply parse_fmt_03d.
  - unfold fmt_03d. rewrite length_append, length_zeros. lia.
  - apply code_filename_inj.
  - apply figure_filename_inj.
Qed.

Lemma zip_with_image_names (n : nat) (ps : list png) :
  map rec_filename
      (zip_with (image_of path_join output_dir) (seq n (List.length ps)) ps)
  = map figure_filename (seq n (List.length ps)).
Proof.
  revert n. induction ps as [|p ps IH]; intros n; [done|].
  cbn [List.length seq zip_with map]. by rewrite IH.
Qed.

Lemma zip_with_image_paths (n : nat) (ps : list png) :
  map rec_filepath
      (zip_with (image_of path_join output_dir) (seq n (List.length ps)) ps)
  = map (fun n => path_join output_dir (figure_filename n))
        (seq n (List.length ps)).
Proof.
  revert n. induction ps as [|p ps IH]; intros n; [done|].
  cbn [List.length seq zip_with map]. by rewrite IH.
Qed.

Lemma zip_with_image_cells (n : nat) (ps : list png) :
  map (fun r => img_cell_index (to_image r))
      (zip_with (image_of path_join output_dir) (seq n (List.length ps)) ps)
  = map png_cell_index ps.
Proof.
  revert n. induction ps as [|p ps IH]; intros n; [done|].
  cbn [List.length seq zip_with map]. by rewrite IH.
Qed.

Lemma zip_with_image_plot_types (n : nat) (ps : list png) :
  Forall (fun r => rec_plot_type r = None)
         (zip_with (image_of path_join output_dir) (seq n (List.length ps)) ps).
Proof.
  revert n. induction ps as [|p ps IH]; intros n; [constructor|].
  cbn [List.length seq zip_with]. by constructor.
Qed.

Lemma extracted_images_spec (nb : option notebook) (e : extraction) :
  extract_images_from_notebook path_join b64decode nb output_dir = inl e →
  extracted_images e
  = zip_with (image_of path_join output_dir)
             (seq 1 (List.length (png_outputs nb))) (png_outputs nb).
Proof.
  rewrite extract_images_png. by intros [H _]%png_fold_inl.
Qed.

Lemma NoDup_map_inj {X Y : Type} (f : X → Y) (l : list X) :
  (∀ a b, f a = f b → a = b) → NoDup l → NoDup (map f l).
Proof.
  intros Hf. induction 1 as [|x l Hx _ IH]; cbn [map]; constructor; [|done].
  intros (y & Hy%Hf & Hin)%list_elem_of_fmap. by subst.
Qed.

End Images.

(** X4. When [extract_images_from_notebook] returns, it returns one image
    for each PNG output of a code cell, in the order of the notebook: the
    n-th one is named [figure_NNN.png] with the number n, starting at 1,
    no plot type is ever inferred, and the files written are these images,
    each at its path with the decoded bytes of its output. *)
Theorem images_extracted (path_join : string → string → string)
  (b64decode : string → option string) (nb : option notebook)
  (output_dir : string) (e : extraction) :
  extract_images_from_notebook path_join b64decode nb output_dir = inl e →
  extracted_images e
  = zip_with (image_of path_join output_dir)
             (seq 1 (List.length (png_outputs nb))) (png_outputs nb)
  ∧ image_counter e = List.length (png_outputs nb)
  ∧ map fst (written e) = map rec_filepath (extracted_images e)
  ∧ map (fun f => Some f.2) (written e)
    = map (fun p => b64decode (png_data p)) (png_outputs nb).
Proof.
  rewrite extract_images_png.
  intros (Hi & Hc & files & Hw & Hf & Hb)%png_fold_inl.
  cbn [extracted_images image_counter written app] in Hi, Hc, Hw, Hf.
  subst files. split_and!; [done..| |done].
  by rewrite Hi, zip_with_image_paths.
Qed.

Lemma images_extracted_witness :
  let nb := Some [NbCell (Some "code"%string) ["plot()"%string]
                    [NbOutput (Some "display_data"%string)
                              {["image/png"%string := "AAAA"%string]}]] in
  extracted_images
    (Extraction
       [ImageRecord "figure_001.png" "figure_001.png" 0 None "plot()"]
       1 [("figure_001.png"%string, "AAAA"%string)])
  = zip_with (image_of (fun _ f => f) "out")
             (seq 1 (List.length (png_outputs nb))) (png_outputs nb).
Proof.
  intros nb.
  apply (images_extracted (fun _ f => f) Some nb "out"
           (Extraction
              [ImageRecord "figure_001.png" "figure_001.png" 0 None "plot()"]
              1 [("figure_001.png"%string, "AAAA"%string)])).
  vm_compute. reflexivity.
Defined.

(** X5. The images of a notebook get distinct file names, whatever their
    number, and so do their files when the paths of distinct names are
    distinct: no image overwrites another one. *)
Theorem image_names_distinct (path_join : string → string → string)
  (b64decode : string → option string) (nb : option notebook)
  (output_dir : string) (e : extraction) :
  extract_images_from_notebook path_join b64decode nb output_dir = inl e →
  NoDup (map rec_filename (extracted_images e))
  ∧ ((∀ a b, path_join output_dir a = path_join output_dir b → a = b) →
     NoDup (map fst (written e))).
Proof.
  intros He. pose proof He as Hi%extracted_images_spec.
  assert (Hnames : NoDup (map rec_filename (extracted_images e))).
  { rewrite Hi, zip_with_image_names.
    apply NoDup_map_inj; [apply figure_filename_inj|apply NoDup_seq]. }
  split; [done|]. intros Hinj.
  rewrite extract_images_png in He.
  apply png_fold_inl in He as (_ & _ & files & Hw & Hf & _).
  cbn [written app] in Hw. subst files. rewrite Hf.
  apply NoDup_map_inj; [|apply NoDup_seq].
  intros a b Hab%Hinj. by apply figure_filename_inj.
Qed.

Lemma image_names_distinct_witness :
  NoDup (map rec_filename
           [ImageRecord "figure_001.png" "figure_001.png" 0 None "plot()"]).
Proof.
  refine (proj1 (image_names_distinct (fun _ f => f) Some
           (Some [NbCell (Some "code"%string) ["plot()"%string]
                    [NbOutput (Some "display_data"%string)
                              {["image/png"%string := "AAAA"%string]}]])
           "out"
           (Extraction
              [ImageRecord "figure_001.png" "figure_001.png" 0 None "plot()"]
              1 [("figure_001.png"%string, "AAAA"%string)]) _)).
  vm_compute. reflexivity.
Defined.

(** X6. [extract_images_from_notebook] returns exactly when the payload
    of every PNG output of a code cell decodes; otherwise the decoding
    raises. *)
Theorem extraction_returns_iff (path_join : string → string → string)
  (b64decode : string → option string) (nb : option notebook)
  (output_dir : string) :
  (∃ e, extract_images_from_notebook path_join b64decode nb output_dir = inl e)
  ↔ Forall (fun p => is_Some (b64decode (png_data p))) (png_outputs nb).
Proof.
  rewrite extract_images_png. split; [|apply png_fold_total].
  intros [e (_ & _ & files & _ & _ & Hb)%png_fold_inl].
  apply Forall_forall. intros p Hp.
  assert (Hin : b64decode (png_data p)
                ∈ map (fun p => b64decode (png_data p)) (png_outputs nb)).
  { by apply list_elem_of_fmap_2'  with p. }
  rewrite <- Hb in Hin. apply list_elem_of_fmap in Hin as (f & -> & _). done.
Qed.

(** X7. When the decoding raises, it raises at the first PNG output whose
    payload does not decode: the images before it have been written and
    stay on the disk, and the counter has been advanced for the failing
    one. *)
Theorem extraction_raises_at_first (path_join : string → string → string)
  (b64decode : string → option string) (nb : option notebook)
  (output_dir : string) (e : extraction) :
  extract_images_from_notebook path_join b64decode nb output_dir = inr e →
  ∃ k p, png_outputs nb !! k = Some p
         ∧ b64decode (png_data p) = None
         ∧ Forall (fun q => is_Some (b64decode (png_data q)))
                  (take k (png_outputs nb))
         ∧ image_counter e = k + 1
         ∧ List.length (extracted_images e) = k
         ∧ List.length (written e) = k.
Proof.
  rewrite extract_images_png.
  intros (k & p & Hk & Hp & Hbefore & Hc & Hi & Hw)%png_fold_inr.
  exists k, p. cbn in Hc, Hi, Hw. done.
Qed.

Lemma extraction_raises_at_first_witness :
  ∃ k p,
    png_outputs
      (Some [NbCell (Some "code"%string) ["plot()"%string]
               [NbOutput (Some "display_data"%string)
                         {["image/png"%string := "AAAA"%string]};
                NbOutput (Some "execute_result"%string)
                         {["image/png"%string := "!"%string]}]]) !! k = Some p
    ∧ (if String.eqb (png_data p) "!" then None else Some (png_data p)) = None
    ∧ Forall (fun q => is_Some (if String.eqb (png_data q) "!"
                                then None else Some (png_data q)))
             (take k (png_outputs
                (Some [NbCell (Some "code"%string) ["plot()"%string]
                         [NbOutput (Some "display_data"%string)
                                   {["image/png"%string := "AAAA"%string]};
                          NbOutput (Some "execute_result"%string)
                                   {["image/png"%string := "!"%string]}]])))
    ∧ 2 = k + 1 ∧ 1 = k ∧ 1 = k.
Proof.
  apply (extraction_raises_at_first (fun _ f => f)
           (fun s => if String.eqb s "!" then None else Some s) _ "out"
           (Extraction
              [ImageRecord "figure_001.png" "figure_001.png" 0 None "plot()"]
              2 [("figure_001.png"%string, "AAAA"%string)])).
  vm_compute. reflexivity.
Defined.

Lemma zip_with_image_Forall (path_join : string → string → string)
  (output_dir : string) (P : image_record → Prop) (n : nat) (ps : list png) :
  (∀ p m, p ∈ ps → P (image_of path_join output_dir m p)) →
  Forall P (zip_with (image_of path_join output_dir)
                     (seq n (List.length ps)) ps).
Proof.
  revert n. induction ps as [|p ps IH]; intros n HP; [constructor|].
  cbn [List.length seq zip_with]. constructor.
  - apply HP, list_elem_of_here.
  - apply IH. intros q m Hq. by apply HP, list_elem_of_further.
Qed.

(** X8. Every extracted image belongs to a code cell of the notebook: its
    index is the position of the cell, its source is the first 200
    characters of the source of the cell, and the images come in the
    order of the cells. *)
Theorem images_of_code_cells (path_join : string → string → string)
  (b64decode : string → option string) (cells : notebook)
  (output_dir : string) (e : extraction) :
  extract_images_from_notebook path_join b64decode (Some cells) output_dir
  = inl e →
  StronglySorted Nat.le (map rec_cell_index (extracted_images e))
  ∧ Forall (fun r => ∃ cell, cells !! rec_cell_index r = Some cell
                             ∧ nb_cell_type cell = Some "code"%string
                             ∧ rec_cell_source r
                               = String.substring 0 200 (source_text cell))
           (extracted_images e).
Proof.
  intros ->%extracted_images_spec. split.
  - change (map rec_cell_index ?l)
      with (map (fun r => img_cell_index (to_image r)) l).
    rewrite zip_with_image_cells. apply (cell_pngs_sorted cells 0).
  - apply zip_with_image_Forall. intros p m Hp.
    apply elem_of_png_outputs in Hp as (cell & Hc & Ht & Hsrc).
    exists cell. cbn [image_of rec_cell_index rec_cell_source].
    by rewrite Hsrc.
Qed.

Lemma images_of_code_cells_witness :
  StronglySorted Nat.le
    (map rec_cell_index
       [ImageRecord "figure_001.png" "figure_001.png" 0 None "plot()"]).
Proof.
  refine (proj1 (images_of_code_cells (fun _ f => f) Some
           [NbCell (Some "code"%string) ["plot()"%string]
              [NbOutput (Some "display_data"%string)
                        {["image/png"%string := "AAAA"%string]}]]
           "out"
           (Extraction
              [ImageRecord "figure_001.png" "figure_001.png" 0 None "plot()"]
              1 [("figure_001.png"%string, "AAAA"%string)]) _)).
  vm_compute. reflexivity.
Defined.

(** *** The presentation follows the notebook *)

Lemma flat_map_all_nil {X Y : Type} (f : X → list Y) (l : list X) :
  (∀ x, x ∈ l → f x = []) → List.flat_map f l = [].
Proof.
  induction l as [|x l IH]; intros Hf; [done|]. cbn [List.flat_map].
  rewrite (Hf x) by apply list_elem_of_here.
  apply IH. intros y Hy. by apply Hf, list_elem_of_further.
Qed.

(** A loop over ascending indices below a bound is the loop over all the
    indices below the bound, when the other indices give nothing. *)
Lemma flat_map_sorted_seq {Y : Type} (f : nat → list Y) (l : list nat)
  (k n : nat) :
  StronglySorted lt l →
  Forall (fun i => k ≤ i < k + n) l →
  (∀ i, k ≤ i < k + n → i ∉ l → f i = []) →
  List.flat_map f l = List.flat_map f (seq k n).
Proof.
  revert k l. induction n as [|n IH]; intros k l Hs Hb Hf.
  { destruct l as [|x l]; [done|]. apply Forall_cons in Hb as [? _]. lia. }
  cbn [seq List.flat_map]. destruct l as [|x l].
  { rewrite Hf; [|lia|by intros ?%elem_of_nil].
    symmetry. apply flat_map_all_nil. intros i Hi%elem_of_seq.
    apply Hf; [lia|by intros ?%elem_of_nil]. }
  apply StronglySorted_inv in Hs as [Hs Hx].
  apply Forall_cons in Hb as [Hxb Hb].
  destruct (decide (x = k)) as [->|Hne].
  - cbn [List.flat_map]. f_equal. apply IH; [done| |].
    + rewrite Forall_forall in Hb, Hx. apply Forall_forall. intros i Hi.
      specialize (Hb i Hi). specialize (Hx i Hi). lia.
    + intros i Hi Hnot. apply Hf; [lia|].
      intros [->|?]%elem_of_cons; [lia|done].
  - rewrite (Hf k); [|lia|].
    + cbn [app]. apply IH.
      * by constructor.
      * constructor; [lia|]. rewrite Forall_forall in Hb, Hx.
        apply Forall_forall. intros i Hi.
        specialize (Hb i Hi). specialize (Hx i Hi). lia.
      * intros i Hi Hnot. apply Hf; [lia|done].
    + intros [->|Hk]%elem_of_cons; [done|].
      rewrite Forall_forall in Hx. specialize (Hx k Hk). lia.
Qed.

Lemma flat_map_enumerate {X Y : Type} (g : nat → list Y)
  (h : nat * X → list Y) (l : list X) (k : nat) :
  (∀ j x, l !! j = Some x → g (k + j) = h (k + j, x)) →
  List.flat_map g (seq k (List.length l))
  = List.flat_map h (combine (seq k (List.length l)) l).
Proof.
  revert k. induction l as [|x l IH]; intros k Hg; [done|].
  cbn [List.length seq combine List.flat_map]. f_equal.
  - specialize (Hg 0 x eq_refl). by rewrite Nat.add_0_r in Hg.
  - apply IH. intros j y Hj. specialize (Hg (S j) y Hj).
    by replace (S k + j) with (k + S j) by lia.
Qed.

Lemma find_all_false {X : Type} (f : X → bool) (l : list X) :
  (∀ x, x ∈ l → f x = false) → find f l = None.
Proof.
  induction l as [|x l IH]; intros Hf; [done|]. cbn [find].
  rewrite (Hf x) by apply list_elem_of_here.
  apply IH. intros y Hy. by apply Hf, list_elem_of_further.
Qed.

Section FindKept.
Context {A B : Type} (keep : A → bool) (make : nat → A → B) (key : B → nat).
Hypothesis key_make : ∀ i x, key (make i x) = i.

Lemma find_kept_from_below (k i : nat) (l : list A) :
  i < k → find (fun y => Nat.eqb (key y) i) (kept_from keep make k l) = None.
Proof.
  intros Hi. apply find_all_false. intros y Hy.
  apply (elem_of_kept_from keep make) in Hy as (j & x & _ & _ & ->).
  rewrite key_make. apply Nat.eqb_neq. lia.
Qed.

Lemma find_kept_from (k j : nat) (l : list A) :
  find (fun y => Nat.eqb (key y) (k + j)) (kept_from keep make k l)
  = match l !! j with
    | Some x => if keep x then Some (make (k + j) x) else None
    | None => None
    end.
Proof.
  revert k j. induction l as [|x l IH]; intros k j; [done|].
  rewrite kept_from_cons. destruct j as [|j].
  - rewrite Nat.add_0_r. cbn [lookup list_lookup].
    destruct (keep x); cbn [app find].
    + by rewrite key_make, Nat.eqb_refl.
    + apply find_kept_from_below. lia.
  - cbn [lookup list_lookup]. replace (k + S j) with (S k + j) by lia.
    destruct (keep x); cbn [app find]; [|apply IH].
    rewrite key_make. destruct (Nat.eqb_spec k (S k + j)); [lia|apply IH].
Qed.

End FindKept.

Lemma markdown_part_notebook (cells : notebook) (i : nat) (cell : nb_cell) :
  cells !! i = Some cell →
  markdown_part (extract_markdown_cells (Some cells)) i
  = if has_type "markdown" cell
    then markdown_events (MarkdownCell i (source_text cell)) else [].
Proof.
  intros Hi. unfold notebook in *.
  unfold markdown_part. rewrite extract_markdown_cells_kept.
  rewrite (find_kept_from (has_type "markdown")
             (fun i cell => MarkdownCell i (source_text cell)) md_cell_index
             (fun _ _ => eq_refl) 0 i), Hi.
  by destruct (has_type "markdown" cell).
Qed.

Lemma code_part_notebook (cells : notebook) (i : nat) (cell : nb_cell) :
  cells !! i = Some cell →
  code_part (extract_code_cells (Some cells)) i
  = if has_type "code" cell && negb (is_empty (strip (source_text cell)))
    then [CodeFrame i (CodeCell i (source_text cell))] else [].
Proof.
  intros Hi. unfold notebook in *. rewrite code_part_find
    by apply StronglySorted_lt_NoDup, code_indices_sorted.
  rewrite extract_code_cells_kept.
  rewrite (find_kept_from
             (fun cell => has_type "code" cell
                          && negb (is_empty (strip (source_text cell))))
             (fun i cell => CodeCell i (source_text cell)) code_cell_index
             (fun _ _ => eq_refl) 0 i), Hi.
  by destruct (has_type "code" cell && _).
Qed.

Lemma cell_events_notebook (cells : notebook) (images : list image) (i : nat)
  (cell : nb_cell) :
  cells !! i = Some cell →
  cell_events images (extract_markdown_cells (Some cells))
              (extract_code_cells (Some cells)) i
  = notebook_events images (i, cell).
Proof.
  intros Hi. unfold cell_events, notebook_events. cbn [fst snd].
  by rewrite (markdown_part_notebook _ _ _ Hi), (code_part_notebook _ _ _ Hi),
    image_part_filter.
Qed.

Lemma notebook_indices_bound (cells : notebook) (images : list image) (i : nat) :
  Forall (fun img => img_cell_index img < List.length cells) images →
  i ∈ sorted_indices images (extract_markdown_cells (Some cells))
                     (extract_code_cells (Some cells)) →
  i < List.length cells.
Proof.
  intros Himg [Hi|[Hi|Hi]]%elem_of_sorted_indices.
  - apply list_elem_of_fmap in Hi as (c & -> & Hc).
    apply elem_of_extract_markdown_cells in Hc as (cell & Hc & _).
    by apply lookup_lt_Some in Hc.
  - apply list_elem_of_fmap in Hi as (c & -> & Hc).
    apply elem_of_extract_code_cells in Hc as (cell & Hc & _).
    by apply lookup_lt_Some in Hc.
  - apply list_elem_of_fmap in Hi as (img & -> & Hc).
    rewrite Forall_forall in Himg. by apply Himg.
Qed.

Lemma notebook_events_nothing (cells : notebook) (images : list image) (i : nat)
  (cell : nb_cell) :
  cells !! i = Some cell →
  i ∉ sorted_indices images (extract_markdown_cells (Some cells))
                     (extract_code_cells (Some cells)) →
  notebook_events images (i, cell) = [].
Proof.
  intros Hi Hnot. rewrite elem_of_sorted_indices in Hnot.
  unfold notebook_events. cbn [fst snd].
  destruct (has_type "markdown" cell) eqn:Hm.
  { exfalso. apply Hnot. left.
    apply (list_elem_of_fmap_2' _ _ (MarkdownCell i (source_text cell)));
      [|done].
    apply elem_of_extract_markdown_cells. exists cell.
    by rewrite <- has_type_true. }
  destruct (has_type "code" cell && _) eqn:Hc.
  { exfalso. apply Hnot. right. left.
    apply (list_elem_of_fmap_2' _ _ (CodeCell i (source_text cell))); [|done].
    apply elem_of_extract_code_cells. exists cell.
    apply andb_true_iff in Hc as [Hc Hb]. apply negb_true_iff in Hb.
    by rewrite <- has_type_true. }
  cbn [app].
  destruct (List.filter _ images) as [|img imgs] eqn:Hf; [done|].
  exfalso. apply Hnot. right. right.
  assert (Hin : img ∈ List.filter
                  (fun img => Nat.eqb (img_cell_index img) i) images).
  { rewrite Hf. apply list_elem_of_here. }
  apply list_elem_of_In, filter_In in Hin as [Hin Hidx].
  apply Nat.eqb_eq in Hidx as <-.
  apply list_elem_of_fmap_2, list_elem_of_In, Hin.
Qed.

(** X9. The presentation follows the notebook. With the markdown and the
    code cells extracted from a notebook, and images that belong to its
    cells, the loop of [generate_beamer_with_content] emits, cell after
    cell in the order of the notebook: the sections and frames of a
    markdown cell; the frame of a code cell that is not blank; then the
    frames of the images of the cell. *)
Theorem presentation_follows_notebook (cells : notebook) (images : list image) :
  Forall (fun img => img_cell_index img < List.length cells) images →
  timeline images (extract_markdown_cells (Some cells))
           (extract_code_cells (Some cells))
  = List.flat_map (notebook_events images) (enumerate cells).
Proof.
  intros Himg. rewrite timeline_concat, <- List.flat_map_concat_map.
  rewrite (flat_map_sorted_seq _ _ 0 (List.length cells)).
  - unfold enumerate. apply flat_map_enumerate. intros j cell Hj.
    by apply cell_events_notebook.
  - apply sorted_indices_ascending.
  - apply Forall_forall. intros i Hi.
    pose proof (notebook_indices_bound _ _ _ Himg Hi). lia.
  - intros i [_ Hi] Hnot. cbn in Hi.
    destruct (lookup_lt_is_Some_2 cells i Hi) as [cell Hcell].
    rewrite (cell_events_notebook _ _ _ _ Hcell).
    by apply (notebook_events_nothing cells).
Qed.

Lemma presentation_follows_notebook_witness :
  timeline [Image "figure_001.png" 1 None]
           (extract_markdown_cells
              (Some [NbCell (Some "markdown"%string) ["# T"%string] [];
                     NbCell (Some "code"%string) ["plot()"%string] []]))
           (extract_code_cells
              (Some [NbCell (Some "markdown"%string) ["# T"%string] [];
                     NbCell (Some "code"%string) ["plot()"%string] []]))
  = List.flat_map (notebook_events [Image "figure_001.png" 1 None])
      (enumerate [NbCell (Some "markdown"%string) ["# T"%string] [];
                  NbCell (Some "code"%string) ["plot()"%string] []]).
Proof.
  apply (presentation_follows_notebook
           [NbCell (Some "markdown"%string) ["# T"%string] [];
            NbCell (Some "code"%string) ["plot()"%string] []]
           [Image "figure_001.png" 1 None]).
  repeat constructor.
Defined.

(** *** The frames of the code cells and of the images *)

Lemma elem_of_timeline (images : list image) (markdown_cells : list markdown_cell)
  (code_cells : list code_cell) (e : event) :
  e ∈ timeline images markdown_cells code_cells →
  ∃ i, e ∈ markdown_part markdown_cells i
       ∨ e ∈ code_part code_cells i
       ∨ e ∈ image_part images i.
Proof.
  rewrite timeline_concat, <- List.flat_map_concat_map.
  intros Hin%list_elem_of_In%in_flat_map. destruct Hin as (i & _ & Hin).
  exists i. apply list_elem_of_In in Hin. unfold cell_events in Hin.
  by rewrite !elem_of_app in Hin.
Qed.

Lemma markdown_part_markdown (markdown_cells : list markdown_cell) (i : nat)
  (e : event) :
  e ∈ markdown_part markdown_cells i → is_markdown_event e = true.
Proof.
  unfold markdown_part. destruct (find _ markdown_cells) as [md_cell|].
  - pose proof (markdown_events_markdown md_cell) as H.
    rewrite Forall_forall in H. apply H.
  - by intros ?%elem_of_nil.
Qed.

Lemma timeline_code_frame (images : list image)
  (markdown_cells : list markdown_cell) (code_cells : list code_cell)
  (i : nat) (c : code_cell) :
  CodeFrame i c ∈ timeline images markdown_cells code_cells →
  code_by_cell code_cells !! i = Some c.
Proof.
  intros [j [H|[H|H]]]%elem_of_timeline.
  - by apply markdown_part_markdown in H.
  - unfold code_part in H.
    destruct (code_by_cell code_cells !! j) as [cell|] eqn:Hj;
      [|by apply elem_of_nil in H].
    apply list_elem_of_singleton in H. by injection H as -> ->.
  - rewrite image_part_filter in H.
    by apply list_elem_of_fmap in H as (img & ? & _).
Qed.

Lemma timeline_image_frame (images : list image)
  (markdown_cells : list markdown_cell) (code_cells : list code_cell)
  (i : nat) (img : image) :
  ImageFrame i img ∈ timeline images markdown_cells code_cells →
  img ∈ images ∧ img_cell_index img = i.
Proof.
  intros [j [H|[H|H]]]%elem_of_timeline.
  - by apply markdown_part_markdown in H.
  - unfold code_part in H.
    destruct (code_by_cell code_cells !! j) as [cell|];
      [|by apply elem_of_nil in H].
    by apply list_elem_of_singleton in H.
  - rewrite image_part_filter in H.
    apply list_elem_of_fmap in H as (img' & [= <- <-] & Hin).
    apply list_elem_of_In, filter_In in Hin as [Hin Hidx].
    split; [by apply list_elem_of_In|by apply Nat.eqb_eq].
Qed.

Lemma render_all_ext (t t' : string → string) (es : list event) :
  Forall (fun e => render t e = render t' e) es →
  render_all t es = render_all t' es.
Proof.
  intros H. unfold render_all. rewrite !render_all_fold. f_equal.
  induction H as [|e es He _ IH]; [done|]. cbn [foldr]. by rewrite He, IH.
Qed.

Lemma render_image_untyped (t : string → string) (i : nat) (img : image) :
  truthy (img_plot_type img) = false →
  render t (ImageFrame i img)
  = join NL
      [ "";
        "\begin{frame}{Analysis Result}";
        "    \begin{figure}";
        "        \centering";
        "        \includegraphics[width=0.85\textwidth,height=0.7\textheight,keepaspectratio]{assets/figures/"
          +:+ img_filename img +:+ "}";
        "        \caption{Output from Cell " +:+ fmt_d i +:+ "}";
        "    \end{figure}";
        "\end{frame}";
        "";
        "" ]%string.
Proof.
  intros H. cbn [render]. unfold render_image, image_caption, image_title.
  by rewrite H.
Qed.

Lemma generate_content_untyped (t t' : string → string) (images : list image)
  (markdown_cells : list markdown_cell) (code_cells : list code_cell) :
  Forall (fun img => truthy (img_plot_type img) = false) images →
  generate_content t images markdown_cells code_cells
  = generate_content t' images markdown_cells code_cells.
Proof.
  intros Himg. unfold generate_content. apply render_all_ext.
  apply Forall_forall. intros e He. destruct e as [s|s c|i c|i img]; [done..|].
  apply timeline_image_frame in He as [Hin _].
  rewrite Forall_forall in Himg.
  by rewrite !render_image_untyped by by apply Himg.
Qed.

(** X10. The presentation of a notebook does not depend on [str.title]:
    no plot type is inferred for an extracted image, so that the whole
    text built by [generate_beamer_with_content] from the extracted
    images is the same for every function in the place of [str.title]. *)
Theorem presentation_ignores_str_title (path_join : string → string → string)
  (b64decode : string → option string) (nb : option notebook)
  (output_dir : string) (e : extraction) (t t' : string → string)
  (template : string) (markdown_cells : list markdown_cell)
  (code_cells : list code_cell) :
  extract_images_from_notebook path_join b64decode nb output_dir = inl e →
  generate_beamer_with_content t template (map to_image (extracted_images e))
                               markdown_cells code_cells
  = generate_beamer_with_content t' template
      (map to_image (extracted_images e)) markdown_cells code_cells.
Proof.
  intros He%extracted_images_spec. unfold generate_beamer_with_content.
  f_equal. apply generate_content_untyped.
  apply Forall_forall. intros img (r & -> & Hr)%list_elem_of_fmap.
  rewrite He in Hr.
  pose proof (zip_with_image_plot_types path_join output_dir 1 (png_outputs nb))
    as Hn.
  rewrite Forall_forall in Hn. cbn [to_image img_plot_type].
  by rewrite (Hn r Hr).
Qed.

Lemma presentation_ignores_str_title_witness :
  generate_beamer_with_content (fun s => s) "{{CONTENT}}"
    (map to_image
       [ImageRecord "figure_001.png" "figure_001.png" 0 None "plot()"]) [] []
  = generate_beamer_with_content (fun _ => ""%string) "{{CONTENT}}"
      (map to_image
         [ImageRecord "figure_001.png" "figure_001.png" 0 None "plot()"]) [] [].
Proof.
  apply (presentation_ignores_str_title (fun _ f => f) Some
           (Some [NbCell (Some "code"%string) ["plot()"%string]
                    [NbOutput (Some "display_data"%string)
                              {["image/png"%string := "AAAA"%string]}]])
           "out"
           (Extraction
              [ImageRecord "figure_001.png" "figure_001.png" 0 None "plot()"]
              1 [("figure_001.png"%string, "AAAA"%string)])).
  vm_compute. reflexivity.
Defined.

(** *** The files of the code cells *)

Lemma save_code_cells_fold (path_join : string → string → string)
  (output_dir : string) (code_cells : list code_cell)
  (saved : list saved_file) (files : list file) :
  fold_left
    (fun '(saved_files, files) code_cell =>
       let filename :=
         ("cell_" +:+ fmt_03d (code_cell_index code_cell) +:+ ".py")%string in
       let filepath := path_join output_dir filename in
       (saved_files ++ [SavedFile filename filepath (code_cell_index code_cell)],
        files ++ [(filepath, code_content code_cell)]))
    code_cells (saved, files)
  = (saved
       ++ map (fun c => SavedFile (code_filename (code_cell_index c))
                 (path_join output_dir (code_filename (code_cell_index c)))
                 (code_cell_index c)) code_cells,
     files
       ++ map (fun c => (path_join output_dir (code_filename (code_cell_index c)),
                         code_content c)) code_cells).
Proof.
  revert saved files. induction code_cells as [|c cs IH]; intros saved files.
  { by rewrite !app_nil_r. }
  cbn [fold_left map]. rewrite IH. by rewrite <- !app_assoc.
Qed.

Lemma save_code_cells_spec (path_join : string → string → string)
  (output_dir : string) (code_cells : list code_cell) :
  save_code_cells_to_files path_join code_cells output_dir
  = (map (fun c => SavedFile (code_filename (code_cell_index c))
            (path_join output_dir (code_filename (code_cell_index c)))
            (code_cell_index c)) code_cells,
     map (fun c => (path_join output_dir (code_filename (code_cell_index c)),
                    code_content c)) code_cells).
Proof. apply save_code_cells_fold. Qed.

Lemma code_by_cell_last_fold (code_cells : list code_cell)
  (by_cell : gmap nat code_cell) (i : nat) :
  fold_left (fun by_cell code => <[code_cell_index code := code]> by_cell)
            code_cells by_cell !! i
  = match last (List.filter (fun c => Nat.eqb (code_cell_index c) i) code_cells)
    with
    | Some c => Some c
    | None => by_cell !! i
    end.
Proof.
  revert by_cell. induction code_cells as [|c cs IH]; intros by_cell; [done|].
  cbn [fold_left List.filter]. rewrite IH.
  destruct (Nat.eqb_spec (code_cell_index c) i) as [->|Hne].
  - rewrite last_cons. destruct (last _); [done|]. apply lookup_insert_eq.
  - destruct (last _); [done|]. by apply lookup_insert_ne.
Qed.

Lemma code_by_cell_last (code_cells : list code_cell) (i : nat) :
  code_by_cell code_cells !! i
  = last (List.filter (fun c => Nat.eqb (code_cell_index c) i) code_cells).
Proof.
  unfold code_by_cell. rewrite code_by_cell_last_fold.
  by destruct (last _).
Qed.

Lemma filter_map_comm {X Y : Type} (f : Y → bool) (g : X → Y) (l : list X) :
  List.filter f (map g l) = map g (List.filter (fun x => f (g x)) l).
Proof.
  induction l as [|x l IH]; [done|]. cbn [map List.filter].
  destruct (f (g x)); cbn [map]; by rewrite IH.
Qed.

Lemma filter_ext_eq {X : Type} (f g : X → bool) (l : list X) :
  (∀ x, f x = g x) → List.filter f l = List.filter g l.
Proof.
  intros H. induction l as [|x l IH]; [done|]. cbn [List.filter].
  by rewrite H, IH.
Qed.

Lemma last_write_saved (path_join : string → string → string)
  (output_dir : string) (code_cells : list code_cell) (i : nat) :
  (∀ a b, path_join output_dir a = path_join output_dir b → a = b) →
  last_write (path_join output_dir (code_filename i))
             (save_code_cells_to_files path_join code_cells output_dir).2
  = code_content <$> code_by_cell code_cells !! i.
Proof.
  intros Hinj. rewrite save_code_cells_spec, code_by_cell_last.
  unfold last_write. cbn [snd]. rewrite filter_map_comm.
  rewrite (filter_ext_eq _ (fun c => Nat.eqb (code_cell_index c) i)).
  - rewrite fmap_last, <- option_fmap_compose. done.
  - intros c. cbn [fst].
    destruct (Nat.eqb_spec (code_cell_index c) i) as [->|Hne].
    + apply String.eqb_refl.
    + apply String.eqb_neq. by intros H%Hinj%code_filename_inj.
Qed.

Lemma render_code_names_file (i : nat) (c : code_cell) :
  occurs (code_filename i) (render_code i c) = true.
Proof.
  unfold render_code, code_filename.
  destruct (Nat.ltb 200 (num_lines c)); [|destruct (Nat.ltb 50 (num_lines c))].
  - unfold large_code_frame, join. find_occurrence.
  - unfold breaking_code_frame, code_figure_frame, join. find_occurrence.
  - unfold plain_code_frame, code_figure_frame, join. find_occurrence.
Qed.

(** X11. The frame of a code cell includes the file that
    [save_code_cells_to_files] has written for it: the frame names
    [cell_NNN.py] for the index of the cell and, after all the files are
    written, the file of that name in the output directory holds the
    content of the very cell that the frame stands for, also when
    several cells share an index (the last one wins in both places);
    distinct names are assumed to give distinct paths. *)
Theorem code_frame_includes_saved_file (path_join : string → string → string)
  (output_dir : string) (images : list image)
  (markdown_cells : list markdown_cell) (code_cells : list code_cell)
  (i : nat) (c : code_cell) :
  (∀ a b, path_join output_dir a = path_join output_dir b → a = b) →
  CodeFrame i c ∈ timeline images markdown_cells code_cells →
  occurs (code_filename i) (render_code i c) = true
  ∧ last_write (path_join output_dir (code_filename i))
               (save_code_cells_to_files path_join code_cells output_dir).2
    = Some (code_content c).
Proof.
  intros Hinj Hin%timeline_code_frame. split.
  - apply render_code_names_file.
  - by rewrite last_write_saved, Hin.
Qed.

Lemma code_frame_includes_saved_file_witness :
  occurs (code_filename 3) (render_code 3 (CodeCell 3 "b")) = true
  ∧ last_write (code_filename 3)
      (save_code_cells_to_files (fun _ f => f)
         [CodeCell 3 "a"; CodeCell 3 "b"] "out").2
    = Some "b"%string.
Proof.
  apply (code_frame_includes_saved_file (fun _ f => f) "out" [] []
           [CodeCell 3 "a"; CodeCell 3 "b"] 3 (CodeCell 3 "b")).
  - intros a b H. exact H.
  - vm_compute. apply list_elem_of_here.
Defined.

(** ** The translation is never empty *)

Lemma has_ink_false (s : string) :
  has_ink s = true ↔ all_chars is_space s = false.
Proof. unfold has_ink. by destruct (all_chars is_space s). Qed.

Lemma has_ink_cons (c : ascii) (s : string) :
  has_ink (String c s) = negb (is_space c) || has_ink s.
Proof. unfold has_ink. cbn [all_chars]. by destruct (is_space c). Qed.

Lemma has_ink_app (a b : string) :
  has_ink (a +:+ b) = has_ink a || has_ink b.
Proof. unfold has_ink. rewrite all_chars_app. apply negb_andb. Qed.

(** A text is blank exactly when all its characters are blanks. *)
Lemma is_blank_all_space (s : string) :
  is_blank s = all_chars is_space s.
Proof.
  unfold is_blank, strip. induction s as [|c s IH]; [done|].
  cbn [lstrip all_chars]. destruct (is_space c) eqn:Hc; [done|].
  by rewrite rstrip_cons_nonspace.
Qed.

Lemma is_blank_ink (s : string) : is_blank s = negb (has_ink s).
Proof. unfold has_ink. by rewrite is_blank_all_space, negb_involutive. Qed.

Lemma drop_0 (s : string) : PyStr.drop 0 s = s.
Proof. by destruct s. Qed.

Lemma expand_ink (t : list piece) (gs : list string) :
  template_has_ink t = true → has_ink (expand t gs) = true.
Proof.
  induction t as [|[s|n] t IH]; [done|..]; cbn [template_has_ink existsb expand];
    rewrite has_ink_app.
  - intros [->|H]%orb_true_iff; [done|]. rewrite IH; [apply orb_true_r|done].
  - intros H. rewrite IH; [apply orb_true_r|done].
Qed.

(** [re.sub] keeps a text that is not blank from becoming blank, when
    the replacement has a character that is not a blank. *)
Lemma sub_from_ink (p : pattern) (t : list piece) (prev : option ascii)
  (s : string) (skip : nat) :
  template_has_ink t = true →
  has_ink (PyStr.drop skip s) = true →
  has_ink (sub_from p t prev s skip) = true.
Proof.
  intros Ht. revert prev skip. induction s as [|c s IH]; intros prev skip.
  { by destruct skip. }
  destruct skip as [|k]; cbn [sub_from PyStr.drop]; [|apply IH].
  rewrite has_ink_cons. intros H.
  assert (Hkeep : has_ink (String c (sub_from p t (Some c) s 0)) = true).
  { rewrite has_ink_cons. apply orb_true_iff in H as [->|H]; [done|].
    rewrite IH; [apply orb_true_r|by rewrite drop_0]. }
  destruct (match_at p prev (String c s)) as [[[|n] mk]|]; [done| |done].
  rewrite has_ink_app, expand_ink; done.
Qed.

Lemma sub_ink (p : pattern) (t : list piece) (s : string) :
  template_has_ink t = true → has_ink s = true → has_ink (sub p t s) = true.
Proof. intros Ht Hs. apply sub_from_ink; [done|by rewrite drop_0]. Qed.

Lemma replace_from_ink (old new s : string) (skip : nat) :
  has_ink new = true →
  has_ink (PyStr.drop skip s) = true →
  has_ink (replace_from old new s skip) = true.
Proof.
  intros Hn. revert skip. induction s as [|c s IH]; intros skip.
  { by destruct skip. }
  destruct skip as [|k]; cbn [replace_from PyStr.drop]; [|apply IH].
  rewrite has_ink_cons. intros H.
  destruct (String.prefix old (String c s)).
  - by rewrite has_ink_app, Hn.
  - rewrite has_ink_cons. apply orb_true_iff in H as [->|H]; [done|].
    rewrite IH; [apply orb_true_r|by rewrite drop_0].
Qed.

Lemma replace_all_ink (rs : list (string * string)) (s : string) :
  forallb (fun r => has_ink r.2) rs = true →
  has_ink s = true → has_ink (replace_all rs s) = true.
Proof.
  unfold replace_all. revert s. induction rs as [|r rs IH]; intros s; [done|].
  cbn [forallb fold_left]. intros [Hr Hrs]%andb_true_iff Hs.
  apply IH; [done|]. apply replace_from_ink; [done|by rewrite drop_0].
Qed.

Lemma tag_spans_ink (s : string) :
  has_ink s = true → has_ink (tag_spans s) = true.
Proof. intros H. unfold tag_spans. by repeat apply sub_ink. Qed.

Lemma rescan_headers_ink (s : string) :
  has_ink s = true → has_ink (rescan_headers s) = true.
Proof. intros H. unfold rescan_headers. by repeat apply sub_ink. Qed.

(** The lines of a text. *)
Lemma split_ink (s : string) :
  has_ink s = true → Exists (fun l => has_ink l = true) (split nl s).
Proof.
  induction s as [|c s IH]; [done|]. rewrite has_ink_cons, split_cons.
  pose proof (split_not_nil s) as Hne.
  destruct (Ascii.eqb c nl) eqn:Hc.
  - apply Ascii.eqb_eq in Hc as ->. cbn. intros H. right. by apply IH.
  - destruct (split nl s) as [|h t]; [done|].
    intros [Hi|Hs]%orb_true_iff.
    + left. by rewrite has_ink_cons, Hi.
    + apply IH in Hs. apply Exists_cons in Hs as [Hh|Ht].
      * left. rewrite has_ink_cons, Hh. apply orb_true_r.
      * by right.
Qed.

Lemma join_ink (l : list string) :
  Exists (fun x => has_ink x = true) l → has_ink (join NL l) = true.
Proof.
  induction l as [|x l IH]; intros H; [by apply Exists_nil in H|].
  destruct l as [|y l].
  - apply Exists_cons in H as [H|H]; [done|by apply Exists_nil in H].
  - rewrite join_cons, has_ink_app, has_ink_cons.
    apply Exists_cons in H as [->|H]; [done|].
    rewrite IH; [|done]. by rewrite !orb_true_r.
Qed.

Lemma all_chars_drop (f : ascii → bool) (k : nat) (s : string) :
  all_chars f s = true → all_chars f (PyStr.drop k s) = true.
Proof.
  revert s. induction k as [|k IH]; intros s; [by rewrite drop_0|].
  destruct s as [|c s]; [done|]. cbn [all_chars PyStr.drop].
  intros [_ H]%andb_true_iff. by apply IH.
Qed.

Lemma split_one_line (s : string) :
  Forall (fun l => all_chars dot l = true) (split nl s).
Proof.
  induction s as [|c s IH]; [by repeat constructor|]. rewrite split_cons.
  pose proof (split_not_nil s) as Hne.
  destruct (Ascii.eqb c nl) eqn:Hc; [by constructor|].
  destruct (split nl s) as [|h t]; [done|].
  apply Forall_cons in IH as [Hh Ht]. constructor; [|done].
  cbn [all_chars]. unfold dot at 1. by rewrite Hc, Hh.
Qed.

(** Splitting gives back the lines that were joined. *)
Lemma split_join (l : list string) :
  l ≠ [] → Forall (fun x => all_chars dot x = true) l →
  split nl (join NL l) = l.
Proof.
  intros Hne Hl. induction Hl as [|x l Hx Hl IH]; [done|]. clear Hne.
  assert (Hx' : ∀ rest, split nl (x +:+ String nl rest) = x :: split nl rest).
  { intros rest. clear IH Hl. induction x as [|c x IHx]; [done|].
    cbn [all_chars] in Hx. apply andb_true_iff in Hx as [Hc Hx].
    cbn [String.append]. rewrite split_cons.
    unfold dot in Hc. apply negb_true_iff in Hc. rewrite Hc.
    by rewrite (IHx Hx). }
  destruct l as [|y l].
  - clear IH Hl Hx'. change (join NL [x]) with x.
    induction x as [|c x IHx]; [done|].
    cbn [all_chars] in Hx. apply andb_true_iff in Hx as [Hc Hx].
    rewrite split_cons. unfold dot in Hc. apply negb_true_iff in Hc.
    by rewrite Hc, (IHx Hx).
  - rewrite join_cons, Hx', IH; done.
Qed.

(** The lines that the loop of the lists appends are never blank and
    have no line break. *)
Lemma list_step_good (st : list string * bool) (line : string) :
  all_chars dot line = true →
  Forall good_line st.1 →
  Forall good_line (list_step st line).1
  ∧ (has_ink line = true → (list_step st line).1 ≠ []).
Proof.
  destruct st as [result_lines in_list]. cbn [fst]. intros Hline Hr.
  unfold list_step.
  assert (Hitem : good_line ("    \item " +:+ strip (PyStr.drop 2 (strip line)))).
  { split; [done|]. rewrite all_chars_app. apply andb_true_iff. split; [done|].
    by apply all_chars_strip, all_chars_drop, all_chars_strip. }
  destruct (is_list_item (strip line)).
  - cbn [fst]. split.
    + apply Forall_app. split; [|by constructor].
      destruct in_list; [done|].
      apply Forall_app. split; [done|]. by repeat constructor.
    + intros _. by destruct (if in_list then _ else _).
  - cbn [fst]. fold (is_blank line). rewrite is_blank_ink.
    assert (Hr' : Forall good_line
              (if in_list then result_lines ++ ["\end{itemize}"%string]
               else result_lines)).
    { destruct in_list; [|done].
      apply Forall_app. split; [done|]. by repeat constructor. }
    destruct (has_ink line) eqn:Hi; cbn [negb].
    + split.
      * apply Forall_app. split; [done|]. by repeat constructor.
      * intros _. by destruct (if in_list then _ else _).
    + done.
Qed.

Lemma list_step_grows (st : list string * bool) (line : string) :
  st.1 ≠ [] → (list_step st line).1 ≠ [].
Proof.
  destruct st as [result_lines in_list]. cbn [fst]. intros Hne.
  unfold list_step. destruct result_lines as [|x xs]; [done|].
  destruct (is_list_item (strip line)), in_list, (is_empty (strip line)); done.
Qed.

Lemma list_fold_good (lines : list string) (st : list string * bool) :
  Forall (fun l => all_chars dot l = true) lines →
  Forall good_line st.1 →
  Forall good_line (fold_left list_step lines st).1
  ∧ (st.1 ≠ [] ∨ Exists (fun l => has_ink l = true) lines →
     (fold_left list_step lines st).1 ≠ []).
Proof.
  intros Hl. revert st. induction Hl as [|l lines Hline _ IH]; intros st Hst.
  { split; [done|]. intros [H|H]; [done|by apply Exists_nil in H]. }
  cbn [fold_left]. destruct (list_step_good st l Hline Hst) as [Hg Hne].
  destruct (IH _ Hg) as [IH1 IH2]. split; [done|].
  intros [H|H]; apply IH2.
  - left. by apply list_step_grows.
  - apply Exists_cons in H as [H|H]; [left; by apply Hne|by right].
Qed.

Lemma convert_lists_good (text : string) :
  has_ink text = true →
  has_ink (convert_lists text) = true
  ∧ Forall (fun l => is_blank l = false) (split nl (convert_lists text)).
Proof.
  intros Hink. unfold convert_lists.
  destruct (list_fold_good (split nl text) ([], false) (split_one_line text)
              (List.Forall_nil _)) as [Hg Hne].
  specialize (Hne (or_intror (split_ink _ Hink))).
  destruct (fold_left list_step (split nl text) ([], false))
    as [result_lines in_list].
  cbn [fst] in Hg, Hne.
  set (final := if in_list then result_lines ++ ["\end{itemize}"%string]
                else result_lines).
  assert (Hfinal : Forall good_line final ∧ final ≠ []).
  { unfold final. destruct in_list; [|done]. split.
    - apply Forall_app. split; [done|]. by repeat constructor.
    - by destruct result_lines. }
  destruct Hfinal as [Hf Hfne]. split.
  - apply join_ink. destruct final as [|x xs]; [done|].
    apply Forall_cons in Hf as [[Hx _] _]. by left.
  - rewrite split_join; [|done|].
    + eapply Forall_impl; [exact Hf|]. intros l [Hl _].
      by rewrite is_blank_ink, Hl.
    + eapply Forall_impl; [exact Hf|]. by intros l [_ Hl].
Qed.

Lemma markdown_to_latex_ink (s : string) :
  is_blank s = false →
  ∃ latex, markdown_to_latex s = Some latex
           ∧ has_ink latex = true
           ∧ Forall (fun l => is_blank l = false) (split nl latex).
Proof.
  intros Hs. unfold markdown_to_latex. unfold is_blank in Hs. rewrite Hs.
  eexists. split; [done|]. apply convert_lists_good.
  apply rescan_headers_ink, replace_all_ink; [done|].
  apply replace_all_ink; [done|]. apply tag_spans_ink.
  fold (is_blank s) in Hs. rewrite is_blank_ink in Hs.
  apply negb_false_iff in Hs.
  unfold strip. destruct (lstrip_split s) as (w & Hw & Hsp).
  destruct (rstrip_split (lstrip s)) as (w' & Hw' & Hsp').
  rewrite Hw, Hw', !has_ink_app in Hs.
  unfold has_ink in Hs at 1 3. rewrite Hsp, Hsp' in Hs. cbn in Hs.
  by rewrite orb_false_r in Hs.
Qed.

(** X12. [markdown_to_latex] returns [None] exactly for a text that is
    blank, and never the empty text: the translation of a text that is
    not blank has a character that is not a blank.  So the second test of
    [convert_markdown_to_frame] never fails, and the frame is empty
    exactly when the content is blank. *)
Theorem translation_never_empty (t : option string) (s : string) :
  (markdown_to_latex s = None ↔ is_blank s = true)
  ∧ (∀ latex, markdown_to_latex s = Some latex → is_blank latex = false)
  ∧ is_empty (convert_markdown_to_frame t s) = is_blank s.
Proof.
  destruct (is_blank s) eqn:Hs.
  - unfold convert_markdown_to_frame, markdown_to_latex.
    unfold is_blank in Hs. by rewrite Hs.
  - destruct (markdown_to_latex_ink s Hs) as (latex & Hl & Hink & _).
    split_and!.
    + by rewrite Hl.
    + intros latex' Hl'. rewrite Hl in Hl'. injection Hl' as <-.
      by rewrite is_blank_ink, Hink.
    + unfold convert_markdown_to_frame. unfold is_blank in Hs.
      rewrite Hs, Hl. destruct latex as [|c latex]; [done|].
      cbn [truthy negb is_empty]. by destruct (truthy t).
Qed.

(** X13. The translation of a markdown text has no blank line: every
    line of the text that [markdown_to_latex] returns has a character
    that is not a blank. *)
Theorem translation_has_no_blank_line (s latex : string) :
  markdown_to_latex s = Some latex →
  Forall (fun l => is_blank l = false) (split nl latex).
Proof.
  intros Hl. destruct (is_blank s) eqn:Hs.
  - unfold markdown_to_latex in Hl. unfold is_blank in Hs. by rewrite Hs in Hl.
  - destruct (markdown_to_latex_ink s Hs) as (latex' & Hl' & _ & Hlines).
    rewrite Hl in Hl'. by injection Hl' as ->.
Qed.

Lemma translation_has_no_blank_line_witness :
  Forall (fun l => is_blank l = false)
         (split nl ("\begin{itemize}" +:+ NL +:+ "    \item a" +:+ NL
                    +:+ "\end{itemize}" +:+ NL +:+ "b")).
Proof.
  apply (translation_has_no_blank_line
           ("- a" +:+ NL +:+ NL +:+ "b")
           ("\begin{itemize}" +:+ NL +:+ "    \item a" +:+ NL
            +:+ "\end{itemize}" +:+ NL +:+ "b")).
  vm_compute. reflexivity.
Defined.

(** ** The title and the institute *)

Lemma lstrip_chars_ext (cs cs' s : string) :
  (∀ c, mem_char c cs = mem_char c cs') →
  lstrip_chars cs s = lstrip_chars cs' s.
Proof.
  intros H. induction s as [|c s IH]; [done|].
  cbn [lstrip_chars]. by rewrite H, IH.
Qed.

Lemma lstrip_chars_levels (s : string) :
  lstrip_chars "## " s = lstrip_chars "# " s.
Proof.
  apply lstrip_chars_ext. intros c. cbn [mem_char].
  by destruct (Ascii.eqb c "#"), (Ascii.eqb c " ").
Qed.

(** Once the title is found, it stays. *)
Lemma title_step_found (t s line : string) :
  ∃ s', title_step (TitleState t true s) line = TitleState t true s'.
Proof.
  unfold title_step. cbn [ts_title_found ts_subtitle ts_title negb].
  rewrite !andb_false_r.
  destruct (startswith "### " (strip line) && true && is_empty s);
    [|by eexists].
  destruct (negb _); by eexists.
Qed.

Lemma title_fold_title_found (t s : string) (lines : list string) :
  ts_title (fold_left title_step lines (TitleState t true s)) = t.
Proof.
  revert s. induction lines as [|l lines IH]; intros s; [done|].
  cbn [fold_left]. destruct (title_step_found t s l) as [s' ->]. apply IH.
Qed.

Lemma title_fold_title (t s : string) (lines : list string) :
  ts_title (fold_left title_step lines (TitleState t false s))
  = match find is_title_line lines with
    | Some line => title_of_line line
    | None => t
    end.
Proof.
  induction lines as [|l lines IH]; [done|].
  cbn [fold_left find].
  unfold title_step at 2. cbn [ts_title_found ts_subtitle ts_title negb].
  rewrite !andb_true_r, !andb_false_r. cbn [andb].
  unfold is_title_line, title_of_line.
  destruct (startswith "## " (strip l)); cbn [orb].
  { by rewrite title_fold_title_found, lstrip_chars_levels. }
  destruct (startswith "# " (strip l)).
  { by rewrite title_fold_title_found. }
  exact IH.
Qed.

(** X14. The title is taken from the first cell only, from its first
    line that starts, blanks apart, with one or two hashes and a space:
    all the hashes and spaces at the start of that line are dropped and
    the rest is stripped, the same for both levels.  Without such a line,
    or without any markdown cell, the title is "Presentation". *)
Theorem title_is_first_title_line (first : markdown_cell)
  (others : list markdown_cell) :
  title (extract_title_info (first :: others))
  = match find is_title_line (split nl (md_content first)) with
    | Some line => title_of_line line
    | None => "Presentation"%string
    end
  ∧ title (extract_title_info []) = "Presentation"%string.
Proof.
  split; [|done]. unfold extract_title_info. cbn [title].
  apply title_fold_title.
Qed.

(** A literal pattern in a group. *)
Lemma m_literal (w : string) (prev : option ascii) (s : string) (pos : nat)
  (mk : list nat) :
  m (lits w ++ [GClose]) prev s pos mk
  = if String.prefix w s
    then Some (pos + String.length w, rev ((pos + String.length w) :: mk))
    else None.
Proof.
  revert prev s pos. induction w as [|x w IH]; intros prev s pos.
  { cbn [lits app m String.length]. rewrite prefix_nil, Nat.add_0_r. done. }
  cbn [lits app m]. destruct s as [|a s]; [done|].
  rewrite prefix_String, (Ascii.eqb_sym x a).
  destruct (Ascii.eqb a x); [|done]. cbn [andb].
  rewrite IH. cbn [String.length].
  by replace (S pos + String.length w) with (pos + S (String.length w)) by lia.
Qed.

Lemma substring_prefix (w s : string) :
  String.prefix w s = true → String.substring 0 (String.length w) s = w.
Proof.
  revert s. induction w as [|x w IH]; intros s H.
  { by destruct s. }
  destruct s as [|a s]; [done|].
  rewrite prefix_String in H. apply andb_true_iff in H as [Hx H].
  apply Ascii.eqb_eq in Hx as ->. cbn. by rewrite IH.
Qed.

Lemma search_literal (w : string) (prev : option ascii) (s : string) :
  search_from (GOpen :: lits w ++ [GClose]) prev s
  = if occurs w s then Some [w] else None.
Proof.
  revert prev. induction s as [|a s IH]; intros prev.
  - cbn [search_from]. unfold match_at. cbn [m]. rewrite m_literal.
    rewrite occurs_nil. destruct w as [|x w]; [done|]. done.
  - cbn [search_from]. unfold match_at. cbn [m]. rewrite m_literal.
    rewrite occurs_String.
    destruct (String.prefix w (String a s)) eqn:Hp; cbn [orb].
    + cbn [rev app groups Nat.add]. rewrite Nat.sub_0_r.
      by rewrite (substring_prefix _ _ Hp).
    + apply IH.
Qed.

(** X15. A notebook whose markdown mentions "Colorado Boulder" anywhere
    gets the institute "University of Colorado Boulder", whatever other
    university, college or institute it mentions. *)
Theorem institute_is_normalised (markdown_cells : list markdown_cell) :
  markdown_cells ≠ [] →
  occurs "Colorado Boulder" (join NL (map md_content markdown_cells)) = true →
  institute (extract_title_info markdown_cells)
  = "University of Colorado Boulder"%string.
Proof.
  intros Hne Hocc. destruct markdown_cells as [|first others]; [done|].
  unfold extract_title_info. cbn [institute].
  set (all_content := join NL (map md_content (first :: others))) in *.
  unfold institute_patterns. cbn [first_match]. unfold search.
  rewrite (search_literal "University of Colorado Boulder").
  destruct (occurs "University of Colorado Boulder" all_content); [done|].
  rewrite (search_literal "Colorado Boulder"), Hocc. done.
Qed.

Lemma institute_is_normalised_witness :
  institute (extract_title_info
               [MarkdownCell 0 "Stanford University and Colorado Boulder"])
  = "University of Colorado Boulder"%string.
Proof.
  apply (institute_is_normalised
           [MarkdownCell 0 "Stanford University and Colorado Boulder"]);
    [done|vm_compute; reflexivity].
Defined.

(** ** The themes *)

Lemma theme_lookup_Some (theme : string) (config : theme_config) :
  theme_lookup theme = Some config → (theme, config) ∈ UNIVERSITY_THEMES.
Proof.
  unfold theme_lookup.
  destruct (find _ UNIVERSITY_THEMES) as [[k c]|] eqn:Hf; [|done].
  intros [= <-]. apply find_some in Hf as [Hin Hk].
  apply String.eqb_eq in Hk. cbn [fst] in Hk. subst k.
  by apply list_elem_of_In.
Qed.

Lemma theme_lookup_None (theme : string) :
  theme_lookup theme = None ↔ theme ∉ map fst UNIVERSITY_THEMES.
Proof.
  unfold theme_lookup. split.
  - destruct (find _ UNIVERSITY_THEMES) as [kv|] eqn:Hf; [done|]. intros _.
    intros (kv & -> & Hin)%list_elem_of_fmap.
    apply list_elem_of_In in Hin.
    pose proof (find_none _ _ Hf _ Hin) as Hk. cbn in Hk.
    by rewrite String.eqb_refl in Hk.
  - intros Hnot.
    destruct (find _ UNIVERSITY_THEMES) as [[k c]|] eqn:Hf; [|done].
    apply find_some in Hf as [Hin Hk]. apply String.eqb_eq in Hk.
    cbn [fst] in Hk. subst k. exfalso. apply Hnot.
    apply (list_elem_of_fmap_2' _ _ (theme, c)); [|done].
    by apply list_elem_of_In.
Qed.

(** The name of every theme has a first word. *)
Lemma theme_names_have_words :
  Forall (fun kv => split_ws (th_name kv.2) ≠ []) UNIVERSITY_THEMES.
Proof. repeat constructor; by vm_compute. Qed.

Section TemplateFacts.
Variable template_file : option string.
Variable logo_exists : string → bool.
Variable logo_path : string → string.
Variable with_suffix : string → string → string.

Lemma ensure_logo_exists_known (theme : string) (config : theme_config) :
  theme_lookup theme = Some config →
  ∃ logo_file files,
    ensure_logo_exists logo_exists logo_path with_suffix theme
    = inr (logo_file, files)
    ∧ (if logo_exists (th_logo config)
       then logo_file = th_logo config ∧ files = []
       else logo_file = replace ".png"%string ".svg"%string (th_logo config)
            ∧ ∃ svg, files
                     = [(with_suffix (logo_path (th_logo config)) ".svg"%string, svg)]).
Proof.
  intros Hl. unfold ensure_logo_exists. rewrite Hl.
  destruct (logo_exists (th_logo config)); cbn [negb]; [by eexists _, _|].
  pose proof theme_names_have_words as Hw. rewrite Forall_forall in Hw.
  specialize (Hw _ (theme_lookup_Some _ _ Hl)). cbn [snd] in Hw.
  destruct (split_ws (th_name config)) as [|first_word others]; [done|].
  eexists _, _. split; [done|]. split; [done|]. by eexists.
Qed.

Lemma ensure_logo_exists_unknown (theme : string) :
  theme_lookup theme = None →
  ensure_logo_exists logo_exists logo_path with_suffix theme = inl KeyError.
Proof. intros Hl. unfold ensure_logo_exists. by rewrite Hl. Qed.

End TemplateFacts.

(** X16. [load_template] raises [FileNotFoundError] exactly when the
    template file is missing and [KeyError] exactly when the file exists
    and the theme is not a key of [UNIVERSITY_THEMES], so that the
    default of [UNIVERSITY_THEMES.get(theme, ...)] is never used; it
    returns exactly when the file exists and the theme is a key.  Then it
    writes nothing when the logo of the theme exists, and otherwise only
    the placeholder logo, next to the missing logo with the suffix
    [.svg]. *)
Theorem load_template_outcome (template_file : option string)
  (logo_exists : string → bool) (logo_path : string → string)
  (with_suffix : string → string → string) (theme : string) :
  let r := load_template template_file logo_exists logo_path with_suffix theme in
  (r = inl FileNotFoundError ↔ template_file = None)
  ∧ (r = inl KeyError
     ↔ template_file ≠ None ∧ theme ∉ map fst UNIVERSITY_THEMES)
  ∧ ((∃ v, r = inr v)
     ↔ template_file ≠ None ∧ theme ∈ map fst UNIVERSITY_THEMES)
  ∧ (∀ text files, r = inr (text, files) →
       ∃ config, theme_lookup theme = Some config
                 ∧ if logo_exists (th_logo config) then files = []
                   else ∃ svg,
                     files
                     = [(with_suffix (logo_path (th_logo config)) ".svg"%string, svg)]).
Proof.
  intros r. unfold load_template in r.
  destruct template_file as [template|].
  2:{ subst r. split_and!; [done|split; [done|by intros [? _]]
                           |split; [by intros [? ?]|by intros [? _]]|done]. }
  destruct (theme_lookup theme) as [config|] eqn:Hl.
  - destruct (ensure_logo_exists_known logo_exists logo_path with_suffix
                theme config Hl) as (logo_file & files & He & Hfiles).
    assert (Hin : theme ∈ map fst UNIVERSITY_THEMES).
    { apply (list_elem_of_fmap_2' _ _ (theme, config)); [|done].
      by apply theme_lookup_Some. }
    subst r. rewrite He. split_and!.
    + done.
    + split; [done|]. by intros [_ ?].
    + split; [done|]. intros _. by eexists.
    + intros text files' [= _ <-]. exists config. split; [done|].
      destruct (logo_exists (th_logo config)); [by destruct Hfiles|].
      by destruct Hfiles as [_ ?].
  - pose proof Hl as Hnot%theme_lookup_None.
    subst r.
    rewrite (ensure_logo_exists_unknown logo_exists logo_path with_suffix
               theme Hl).
    split_and!.
    + done.
    + done.
    + split; [by intros [? ?]|]. by intros [_ ?].
    + done.
Qed.

(** ** The lists *)

Lemma scan_app (l1 l2 : list string) (st : option list_position) :
  fold_left scan_line (l1 ++ l2) st
  = fold_left scan_line l2 (fold_left scan_line l1 st).
Proof. apply fold_left_app. Qed.

Lemma is_item_item (content : string) :
  is_begin ("    \item " +:+ content) = false
  ∧ is_end ("    \item " +:+ content) = false
  ∧ is_item ("    \item " +:+ content) = true.
Proof. split_and!; [done..|]. apply prefix_app. Qed.

Lemma scan_item (content : string) (pos : list_position) :
  pos ≠ Outside →
  scan_line (Some pos) ("    \item " +:+ content) = Some Inside.
Proof.
  intros Hpos. destruct (is_item_item content) as (Hb & He & Hi).
  unfold scan_line. rewrite Hb, He, Hi. by destruct pos.
Qed.

Lemma scan_plain (line : string) :
  is_marker line = false → scan_line (Some Outside) line = Some Outside.
Proof.
  unfold is_marker, scan_line.
  intros [[-> ->]%orb_false_iff ->]%orb_false_iff. done.
Qed.

Lemma list_step_scan (st : list string * bool) (line : string) :
  is_marker line = false →
  fold_left scan_line st.1 (Some Outside)
  = Some (if st.2 then Inside else Outside) →
  fold_left scan_line (list_step st line).1 (Some Outside)
  = Some (if (list_step st line).2 then Inside else Outside).
Proof.
  destruct st as [result_lines in_list]. cbn [fst snd]. intros Hline Hst.
  unfold list_step. destruct (is_list_item (strip line)); cbn [fst snd].
  - destruct in_list.
    + rewrite scan_app, Hst. cbn [fold_left]. by apply scan_item.
    + rewrite !scan_app, Hst. cbn [fold_left].
      change (scan_line (Some Outside) "\begin{itemize}") with (Some Opened).
      by apply scan_item.
  - destruct in_list.
    + destruct (is_empty (strip line)); cbn [fst snd];
        rewrite ?scan_app, Hst; cbn [fold_left];
        change (scan_line (Some Inside) "\end{itemize}") with (Some Outside);
        [done|by apply scan_plain].
    + destruct (is_empty (strip line)); cbn [fst snd]; [done|].
      rewrite scan_app, Hst. cbn [fold_left]. by apply scan_plain.
Qed.

Lemma list_fold_scan (lines : list string) (st : list string * bool) :
  Forall (fun l => is_marker l = false) lines →
  fold_left scan_line st.1 (Some Outside)
  = Some (if st.2 then Inside else Outside) →
  fold_left scan_line (fold_left list_step lines st).1 (Some Outside)
  = Some (if (fold_left list_step lines st).2 then Inside else Outside).
Proof.
  intros Hl. revert st. induction Hl as [|l lines Hline _ IH]; intros st Hst;
    [done|].
  cbn [fold_left]. by apply IH, list_step_scan.
Qed.

(** X17. The itemize environments that the translator builds are well
    formed: in the lines that [convert_lists] returns, every
    [\begin{itemize}] is followed by an item and closed by an
    [\end{itemize}], the environments are not nested, and nothing but
    items stands between the two.  The lines of the text given are
    assumed not to be such marks themselves. *)
Theorem lists_are_well_formed (text : string) :
  Forall (fun l => is_marker l = false) (split nl text) →
  well_listed (split nl (convert_lists text)) = true.
Proof.
  intros Hl. unfold convert_lists.
  pose proof (list_fold_scan (split nl text) ([], false) Hl eq_refl) as Hs.
  destruct (list_fold_good (split nl text) ([], false) (split_one_line text)
              (List.Forall_nil _)) as [Hg _].
  destruct (fold_left list_step (split nl text) ([], false))
    as [result_lines in_list].
  cbn [fst snd] in Hs, Hg.
  set (final := if in_list then result_lines ++ ["\end{itemize}"%string]
                else result_lines).
  assert (Hfinal : Forall good_line final
                   ∧ fold_left scan_line final (Some Outside) = Some Outside).
  { unfold final. destruct in_list; [|done]. split.
    - apply Forall_app. split; [done|]. by repeat constructor.
    - by rewrite scan_app, Hs. }
  destruct Hfinal as [Hf Hscan].
  destruct final as [|x xs] eqn:Hfin; [done|].
  rewrite split_join; [|done|].
  - unfold well_listed. by rewrite Hscan.
  - eapply Forall_impl; [exact Hf|]. by intros l [_ ?].
Qed.

Lemma lists_are_well_formed_witness :
  well_listed (split nl (convert_lists ("a" +:+ NL +:+ "- b" +:+ NL +:+ "* c"
                                          +:+ NL +:+ "d" +:+ NL +:+ "- e")))
  = true.
Proof.
  apply (lists_are_well_formed
           ("a" +:+ NL +:+ "- b" +:+ NL +:+ "* c" +:+ NL +:+ "d" +:+ NL
            +:+ "- e")).
  vm_compute. repeat constructor.
Defined.

(** ** The run of [main] *)

Lemma extract_inl_decodable (path_join : string → string → string)
  (b64decode : string → option string) (nb : option notebook)
  (output_dir : string) (e : extraction) :
  extract_images_from_notebook path_join b64decode nb output_dir = inl e →
  Forall (fun p => is_Some (b64decode (png_data p))) (png_outputs nb).
Proof.
  rewrite extract_images_png.
  intros (_ & _ & files & _ & _ & Hb)%png_fold_inl.
  apply Forall_forall. intros p Hp.
  assert (Hin : b64decode (png_data p)
                ∈ map (fun p => b64decode (png_data p)) (png_outputs nb)).
  { by apply list_elem_of_fmap_2' with p. }
  rewrite <- Hb in Hin. by apply list_elem_of_fmap in Hin as (f & -> & _).
Qed.

Lemma extract_inr_undecodable (path_join : string → string → string)
  (b64decode : string → option string) (nb : option notebook)
  (output_dir : string) (e : extraction) :
  extract_images_from_notebook path_join b64decode nb output_dir = inr e →
  ¬ Forall (fun p => is_Some (b64decode (png_data p))) (png_outputs nb).
Proof.
  rewrite extract_images_png. intros He Hall.
  destruct (png_fold_total path_join b64decode output_dir _
              (Extraction [] 0 []) Hall) as [e' He'].
  by rewrite He in He'.
Qed.

Lemma load_template_known (template : string) (logo_exists : string → bool)
  (logo_path : string → string) (with_suffix : string → string → string)
  (theme : string) :
  theme ∈ map fst UNIVERSITY_THEMES →
  ∃ text files,
    load_template (Some template) logo_exists logo_path with_suffix theme
    = inr (text, files).
Proof.
  intros Hin. unfold load_template.
  destruct (theme_lookup theme) as [config|] eqn:Hl.
  - destruct (ensure_logo_exists_known logo_exists logo_path with_suffix
                theme config Hl) as (logo_file & files & -> & _).
    by eexists _, _.
  - by apply theme_lookup_None in Hl.
Qed.

(** X18. A run of [main] ends by [sys.exit(1)] exactly when the notebook
    argument is missing, the theme is not a key of [UNIVERSITY_THEMES]
    or the notebook does not exist, and then nothing has been written.
    It generates all its files exactly when, besides, the payload of
    every PNG output decodes and the three templates exist.  Otherwise an
    exception escapes, which is the error of the decoding or a
    [FileNotFoundError] for a template, never a [KeyError], and the files
    of the code cells have been written before. *)
Theorem main_outcome (path_join : string → string → string)
  (b64decode : string → option string) (str_title : string → string)
  (template_file : option string) (logo_exists : string → bool)
  (logo_path : string → string) (with_suffix : string → string → string)
  (shell_template batch_template : option string)
  (output_dir code_dir figures_dir presentation_file : string)
  (argv : list string) (notebook : option notebook) :
  let r := main path_join b64decode str_title template_file logo_exists
                logo_path with_suffix shell_template batch_template
                output_dir code_dir figures_dir presentation_file
                argv notebook in
  let decodable :=
    Forall (fun p => is_Some (b64decode (png_data p))) (png_outputs notebook) in
  let started :=
    2 ≤ List.length argv ∧ theme_of argv ∈ map fst UNIVERSITY_THEMES
    ∧ notebook ≠ None in
  ((∃ status, r = Exit status) ↔ ¬ started)
  ∧ (∀ status, r = Exit status → status = 1)
  ∧ ((∃ files, r = Generated files)
     ↔ started ∧ decodable ∧ template_file ≠ None
       ∧ shell_template ≠ None ∧ batch_template ≠ None)
  ∧ (∀ e files, r = Raised e files →
       started
       ∧ ((e = BinasciiError ∧ ¬ decodable)
          ∨ (e = FileNotFoundError ∧ decodable
             ∧ (template_file = None ∨ shell_template = None
                ∨ batch_template = None)))
       ∧ ∃ others,
           files
           = (save_code_cells_to_files path_join (extract_code_cells notebook)
                                       code_dir).2 ++ others).
Proof.
  intros r decodable started. subst r. unfold main.
  destruct (Nat.ltb_spec (List.length argv) 2) as [Hlen|Hlen].
  { split_and!.
    - split; [|by eexists]. intros _ (? & _). lia.
    - by intros ? [= <-].
    - split; [by intros [? ?]|]. intros ((? & _) & _). lia.
    - done. }
  destruct (decide (theme_of argv ∈ map fst UNIVERSITY_THEMES)) as [Hth|Hth].
  2:{ rewrite (bool_decide_eq_false_2 _ Hth). cbn [negb].
      split_and!.
      - split; [|by eexists]. by intros _ (_ & ? & _).
      - by intros ? [= <-].
      - split; [by intros [? ?]|]. by intros ((_ & ? & _) & _).
      - done. }
  rewrite (bool_decide_eq_true_2 _ Hth). cbn [negb].
  destruct notebook as [cells|].
  2:{ split_and!.
      - split; [|by eexists]. by intros _ (_ & _ & ?).
      - by intros ? [= <-].
      - split; [by intros [? ?]|]. by intros ((_ & _ & ?) & _).
      - done. }
  assert (Hstarted : started) by done.
  destruct (extract_images_from_notebook path_join b64decode (Some cells)
              figures_dir) as [st|st] eqn:He.
  2:{ apply extract_inr_undecodable in He. split_and!.
      - split; [by intros [? ?]|done].
      - done.
      - split; [by intros [? ?]|]. by intros (_ & ? & _).
      - intros e files [= <- <-]. split_and!; [done|by left|by eexists]. }
  apply extract_inl_decodable in He.
  destruct template_file as [template|].
  2:{ cbn [load_template]. split_and!.
      - split; [by intros [? ?]|done].
      - done.
      - split; [by intros [? ?]|]. by intros (_ & _ & ? & _).
      - intros e files [= <- <-].
        split_and!; [done|right; split_and!; [done..|by left]|by eexists]. }
  destruct (load_template_known template logo_exists logo_path with_suffix
              _ Hth) as (text & logo_files & Hload).
  rewrite Hload. unfold create_compile_script.
  destruct shell_template as [sh|].
  2:{ split_and!.
      - split; [by intros [? ?]|done].
      - done.
      - split; [by intros [? ?]|]. by intros (_ & _ & _ & ? & _).
      - intros e files [= <- <-].
        split_and!; [done|right; split_and!; [done..|by right; left]|].
        by eexists. }
  destruct batch_template as [bat|].
  2:{ split_and!.
      - split; [by intros [? ?]|done].
      - done.
      - split; [by intros [? ?]|]. by intros (_ & _ & _ & _ & ?).
      - intros e files [= <- <-].
        split_and!; [done|right; split_and!; [done..|by right; right]|].
        by eexists. }
  split_and!.
  - split; [by intros [? ?]|done].
  - done.
  - split; [|by eexists]. done.
  - done.
Qed.

(** ** The frames of a markdown cell, from its lines *)













(** ** Cells that share an index *)







Lemma first_by_index_NoDup (markdown_cells : list markdown_cell) :
  NoDup (map md_cell_index markdown_cells) →
  first_by_index markdown_cells = markdown_cells.
Proof.
  induction markdown_cells as [|mc rest IH]; [done|]. cbn [map first_by_index].
  intros [Hx Hl]%NoDup_cons. rewrite (IH Hl). f_equal.
  apply filter_all, forallb_forall. intros y Hy.
  apply negb_true_iff, Nat.eqb_neq. intros Heq. apply Hx. rewrite <- Heq.
  by apply list_elem_of_fmap_2, list_elem_of_In.
Qed.

Lemma existsb_index (code_cells : list code_cell) (i : nat) :
  existsb (fun other => Nat.eqb (code_cell_index other) i) code_cells = true
  ↔ i ∈ map code_cell_index code_cells.
Proof.
  rewrite existsb_exists, list_elem_of_fmap. split.
  - intros (x & Hin & Hx%Nat.eqb_eq). exists x. by rewrite list_elem_of_In.
  - intros (x & -> & Hin). exists x. by rewrite <- list_elem_of_In, Nat.eqb_refl.
Qed.



Lemma last_by_index_NoDup (code_cells : list code_cell) :
  NoDup (map code_cell_index code_cells) →
  last_by_index code_cells = code_cells.
Proof.
  induction code_cells as [|cc rest IH]; [done|]. cbn [map last_by_index].
  intros [Hx Hl]%NoDup_cons. rewrite (IH Hl).
  destruct (existsb _ rest) eqn:He; [|done].
  by apply existsb_index in He.
Qed.








